(** * openreview_filter_search: the ingestion and cross-reference pipeline

    A shallow embedding of [app/services/openreview_client.py],
    [services/arxiv_matcher.py], [app/ingest.py] (with the rows of
    [app/models.py], the session of [app/db.py] and the TTL of
    [app/config.py]) and the table of [app/streamlit_app.py], followed by
    the properties proved about them.

    Conventions of the embedding.
    - A Python [str] is a Rocq [string]; an [ascii] is read as the code point
      of the same number, so the strings of the model are the Python strings
      whose code points are below U+0100.  The character classes below are
      Python's on that range.
    - A Python [float] is an IEEE binary64 number.  Where the code converts
      to floats or computes with them ([float()], the quotient of the
      average) a float is a [spec_float] of the Standard Library's
      specification of binary64, with its rounding, its infinities and its
      NaN.  Where the code only stores and compares finite floats (the
      scores of the matcher, the floats of a decoded body) a float is given
      as the rational number it is.  The built-in [sum] of the average is
      a parameter, its rounding being the interpreter's; the examples take
      the sum added from left to right.
    - A JSON object is an association list in insertion order; [dict.get]
      reads the first binding of a key.
    - A call that raises is [None]; which exception is raised is not
      recorded.
    - Network calls and the clock are oracles: a function of the number of
      calls made before and of the request.
    - The database takes every write and gives it back as written: an
      error at a flush or a commit is not part of the model. *)

From Stdlib Require Import List String Ascii Bool Arith ZArith NArith QArith Lia.
From Stdlib Require Import DecimalString DecimalN DecimalPos.
From Stdlib Require Import SpecFloat.
Import ListNotations.

Local Close Scope Q_scope.
Local Open Scope string_scope.
Local Open Scope list_scope.

(* ------------------------------------------------------------------ *)
(** ** Characters and strings *)

Module PyStr.

Definition code (c : ascii) : N := N_of_ascii c.

Definition between (lo hi : N) (c : ascii) : bool :=
  (N.leb lo (code c) && N.leb (code c) hi)%bool.

Definition is_code (n : N) (c : ascii) : bool := N.eqb (code c) n.

(** [str.isdigit], [str.isspace], [str.isalnum] and [str.lower] on one
    character. *)
Definition isdigit (c : ascii) : bool :=
  between 48 57 c || between 178 179 c || is_code 185 c.

(** The decimal digits, the only digits [float()] converts. *)
Definition isdecimal (c : ascii) : bool := between 48 57 c.

Definition isspace (c : ascii) : bool :=
  between 9 13 c || between 28 32 c || is_code 133 c || is_code 160 c.

Definition isalnum (c : ascii) : bool :=
  between 48 57 c || between 65 90 c || between 97 122 c
  || is_code 170 c || between 178 179 c || is_code 181 c
  || between 185 186 c || between 188 190 c
  || between 192 214 c || between 216 246 c || between 248 255 c.

Definition lower_char (c : ascii) : ascii :=
  if between 65 90 c || between 192 214 c || between 216 222 c
  then ascii_of_N (code c + 32) else c.

Fixpoint lower (s : string) : string :=
  match s with
  | EmptyString => EmptyString
  | String c r => String (lower_char c) (lower r)
  end.

Definition is_empty (s : string) : bool :=
  match s with EmptyString => true | _ => false end.

(** [needle in hay] for two strings. *)
Fixpoint contains (needle hay : string) : bool :=
  String.prefix needle hay
  || match hay with
     | EmptyString => false
     | String _ r => contains needle r
     end.

(** [sep.join(parts)]. *)
Fixpoint join (sep : string) (parts : list string) : string :=
  match parts with
  | [] => EmptyString
  | [p] => p
  | p :: rest => p ++ sep ++ join sep rest
  end.

(** [s.split()]: the maximal runs of non-whitespace characters; [cur] is
    the run being read. *)
Fixpoint split_ws (s cur : string) : list string :=
  match s with
  | EmptyString => if is_empty cur then [] else [cur]
  | String c r =>
      if isspace c
      then (if is_empty cur then split_ws r EmptyString
            else cur :: split_ws r EmptyString)
      else split_ws r (cur ++ String c EmptyString)
  end.

Definition split (s : string) : list string := split_ws s EmptyString.

(** [s.split(sep)] for a one-character separator: empty pieces are kept. *)
Fixpoint split_on (sep : ascii) (s cur : string) : list string :=
  match s with
  | EmptyString => [cur]
  | String c r =>
      if Ascii.eqb c sep then cur :: split_on sep r EmptyString
      else split_on sep r (cur ++ String c EmptyString)
  end.

(** [s.replace(a, b)] for one-character [a] and [b]. *)
Fixpoint replace_char (a b : ascii) (s : string) : string :=
  match s with
  | EmptyString => EmptyString
  | String c r => String (if Ascii.eqb c a then b else c) (replace_char a b r)
  end.

Fixpoint lstrip (s : string) : string :=
  match s with
  | EmptyString => EmptyString
  | String c r => if isspace c then lstrip r else s
  end.

Fixpoint rstrip (s : string) : string :=
  match s with
  | EmptyString => EmptyString
  | String c r =>
      let r' := rstrip r in
      if is_empty r' && isspace c then EmptyString else String c r'
  end.

(** [s.strip()]. *)
Definition strip (s : string) : string := rstrip (lstrip s).

(** [str(z)] for an [int]. *)
Definition of_Z (z : Z) : string := NilZero.string_of_int (Z.to_int z).

End PyStr.

(* ------------------------------------------------------------------ *)
(** ** Floats *)

(** Finite floats that are only stored and compared: each is the rational
    number it denotes, and comparing two floats is comparing these. *)
Module PyFloat.

Definition float := Q.

Definition zero : float := 0%Q.
Definition one : float := 1%Q.

(** [a > b]. *)
Definition gt (a b : float) : bool := negb (Qle_bool a b).

End PyFloat.

(** Floats the code computes: binary64, that is a mantissa of 53 bits and
    exponents below 1024, every operation rounded to the nearest float,
    ties to the even mantissa. *)
Module Binary64.

Definition float : Type := spec_float.

Definition prec : Z := 53.
Definition emax : Z := 1024.

Definition zero : float := S754_zero false.

(** [a + b], [a / b] and [a <= b] on floats. *)
Definition add (a b : float) : float := SFadd prec emax a b.
Definition div (a b : float) : float := SFdiv prec emax a b.
Definition leb (a b : float) : bool := SFleb a b.

Definition is_finite (f : float) : bool :=
  match f with
  | S754_zero _ | S754_finite _ _ _ => true
  | _ => false
  end.

(** The float nearest to the rational [n / d]: an infinity when that is
    beyond the range. *)
Definition of_ratio (n : Z) (d : positive) : float :=
  match n with
  | Z0 => S754_zero false
  | Zpos p => SFdiv prec emax (S754_finite false p 0) (S754_finite false d 0)
  | Zneg p => SFdiv prec emax (S754_finite true p 0) (S754_finite false d 0)
  end.

(** [float(z)] for an [int]: the nearest float, OverflowError ([None])
    when that is beyond the range. *)
Definition of_Z (z : Z) : option float :=
  let f := of_ratio z 1 in
  if is_finite f then Some f else None.

(** The float of a list length, in [x / len(xs)]. *)
Definition of_nat (n : nat) : float := of_ratio (Z.of_nat n) 1.

(** The float that a finite float given as a rational is. *)
Definition of_Q (q : Q) : float := of_ratio (Qnum q) (Qden q).

Definition digit_value (c : ascii) : N := (PyStr.code c - 48)%N.

(** The digits of a token as a number and the power of ten its decimals
    divide it by: [digits] have been read into [num], [scale] is [10^k] for
    the [k] digits read after the point. *)
Fixpoint read_token (s : string) (num : N) (scale : positive) (point digit : bool)
  : option float :=
  match s with
  | EmptyString =>
      if digit then Some (of_ratio (Z.of_N num) scale) else None
  | String c r =>
      if PyStr.isdecimal c
      then read_token r (num * 10 + digit_value c)%N
                      (if point then scale * 10 else scale)%positive point true
      else if Ascii.eqb c "."%char && negb point
      then read_token r num scale true digit
      else None
  end.

(** [float(buf)] on a string made of digit characters and points: it
    raises ([None]) unless [buf] is decimal digits around at most one point
    with a digit somewhere, and is then the float nearest to the number
    written, an infinity when that is beyond the range. *)
Definition of_token (buf : string) : option float :=
  read_token buf 0%N 1%positive false false.

End Binary64.

(* ------------------------------------------------------------------ *)
(** ** JSON values as Python receives them from [resp.json()] *)

#[local] Set Warnings "-register-all".

Inductive json : Type :=
| JNull
| JBool (b : bool)
| JInt (z : Z)
| JFloat (q : Q)   (* a finite float, as the rational it is; the literals
                     NaN and Infinity, which the decoder also takes, are
                     not part of the model *)
| JStr (s : string)
| JList (l : list json)
| JDict (d : list (string * json)).

Module Py.

(** Truth value of a Python object. *)
Definition truthy (v : json) : bool :=
  match v with
  | JNull => false
  | JBool b => b
  | JInt z => negb (Z.eqb z 0)
  | JFloat q => negb (Qeq_bool q 0%Q)
  | JStr s => negb (PyStr.is_empty s)
  | JList l => match l with [] => false | _ => true end
  | JDict d => match d with [] => false | _ => true end
  end.

(** [a or b]. *)
Definition or_ (a b : json) : json := if truthy a then a else b.

Fixpoint lookup (k : string) (d : list (string * json)) : option json :=
  match d with
  | [] => None
  | (k', v) :: rest => if String.eqb k' k then Some v else lookup k rest
  end.

(** [k in d]. *)
Definition has_key (k : string) (d : list (string * json)) : bool :=
  match lookup k d with Some _ => true | None => false end.

(** [d.get(k, default)] and [d.get(k)], whose default is [None]. *)
Definition get_default (d : list (string * json)) (k : string) (default : json) : json :=
  match lookup k d with Some v => v | None => default end.

Definition get (d : list (string * json)) (k : string) : json :=
  get_default d k JNull.

(** The receiver of [.get] / [.items]: anything but a dict raises
    AttributeError. *)
Definition as_dict (v : json) : option (list (string * json)) :=
  match v with JDict d => Some d | _ => None end.

(** The elements a [for] loop (or [list.extend], or [len]) sees: a list's
    elements, a string's characters, a dict's keys; anything else raises
    TypeError. *)
Definition chars (s : string) : list json :=
  map (fun c => JStr (String c EmptyString)) (list_ascii_of_string s).

Definition iter (v : json) : option (list json) :=
  match v with
  | JList l => Some l
  | JStr s => Some (chars s)
  | JDict d => Some (map (fun kv => JStr (fst kv)) d)
  | _ => None
  end.

Definition is_str (s : string) (v : json) : bool :=
  match v with JStr s' => String.eqb s' s | _ => false end.

(** [needle in v] for a string [needle]: substring of a string, element of
    a list, key of a dict; TypeError on the rest. *)
Definition str_in (needle : string) (v : json) : option bool :=
  match v with
  | JStr s => Some (PyStr.contains needle s)
  | JList l => Some (existsb (is_str needle) l)
  | JDict d => Some (has_key needle d)
  | _ => None
  end.

End Py.

(* ------------------------------------------------------------------ *)
(** ** app/services/openreview_client.py *)

(** The dataclass [SubmissionSummary].  [forum], [note], [title] and
    [abstract] hold whatever JSON value [summarize] read (a missing value is
    [JNull]); the other fields are built by [summarize] itself. *)
Module SubmissionSummary.
Record t : Type := mk {
  forum : json;
  note : json;
  title : json;
  abstract : json;
  authors : string;
  keywords : list string;
  decision : option string;
  avg_rating : option Binary64.float;
  num_reviews : nat
}.
End SubmissionSummary.

(** What [client.get] followed by [raise_for_status] and [resp.json()]
    yields: the decoded body, or an exception. *)
Inductive response : Type :=
| Failed
| Body (data : json).

(** How a call of [fetch_notes] ends: the collected records or an
    exception, with the offsets it requested, in order. *)
Inductive fetched : Type :=
| Returned (collected : list json) (requested : list nat)
| Raised (requested : list nat).

Definition page_size : nat := 200.

Section Client.

(** [repr] of the values whose [str] is not spelled out below: floats,
    lists and dicts. *)
Variable repr : json -> string.

(** [str(v)]. *)
Definition str (v : json) : string :=
  match v with
  | JStr s => s
  | JNull => "None"
  | JBool true => "True"
  | JBool false => "False"
  | JInt z => PyStr.of_Z z
  | _ => repr v
  end.

(** The [for ch in s] loop of [parse_rating]; the result is [buf] when the
    loop ends. *)
Fixpoint scan_rating (s buf : string) : string :=
  match s with
  | EmptyString => buf
  | String ch r =>
      if PyStr.isdigit ch
         || (Ascii.eqb ch "."%char && negb (PyStr.contains "." buf))
      then scan_rating r (buf ++ String ch EmptyString)
      else if negb (PyStr.is_empty buf) then buf
      else scan_rating r buf
  end.

(** [float(value)] under the [try] of [parse_rating], for a [bool], an
    [int] or a [float]. *)
Definition float_of_number (value : json) : option Binary64.float :=
  match value with
  | JBool b => Binary64.of_Z (if b then 1 else 0)
  | JInt z => Binary64.of_Z z
  | JFloat q => Some (Binary64.of_Q q)
  | _ => None
  end.

Definition parse_rating (value : json) : option Binary64.float :=
  match value with
  | JNull => None
  | JBool _ | JInt _ | JFloat _ => float_of_number value
  | _ =>
      let buf := scan_rating (str value) EmptyString in
      if PyStr.is_empty buf then None else Binary64.of_token buf
  end.

Definition keyword_keys : list string :=
  ["keywords"; "Keywords"; "key_areas"; "Key Areas"; "Key Area(s)"].

Fixpoint keywords_from (keys : list string) (content : list (string * json))
  : list string :=
  match keys with
  | [] => []
  | k :: rest =>
      match Py.lookup k content with
      | Some (JList l) => map (fun v => PyStr.strip (str v)) l
      | Some (JStr s) =>
          filter (fun token => negb (PyStr.is_empty token))
            (map PyStr.strip
               (PyStr.split_on ","%char (PyStr.replace_char ";"%char ","%char s)
                  EmptyString))
      | _ => keywords_from rest content
      end
  end.

Definition extract_keywords (content : list (string * json)) : list string :=
  keywords_from keyword_keys content.

(** [http_get k invitation offset]: the answer to the [k]-th request of a
    call of [fetch_notes], made for [invitation] at [offset] with limit
    [page_size]. *)
Variable http_get : nat -> string -> nat -> response.

(** The [while True] loop of [fetch_notes]; [None] when [fuel] requests did
    not end it. *)
Fixpoint fetch_loop (fuel : nat) (invitation : string) (offset : nat)
    (collected : list json) (requested : list nat) : option fetched :=
  match fuel with
  | O => None
  | S fuel' =>
      let requested' := requested ++ [offset] in
      match http_get (List.length requested) invitation offset with
      | Failed => Some (Raised requested')
      | Body data =>
          match Py.as_dict data with
          | None => Some (Raised requested')
          | Some d =>
              let notes :=
                Py.or_ (Py.get d "notes") (Py.or_ (Py.get d "items") (JList [])) in
              if negb (Py.truthy notes) then Some (Returned collected requested')
              else
                match Py.iter notes with
                | None => Some (Raised requested')
                | Some page =>
                    let collected' := collected ++ page in
                    let offset' := offset + List.length page in
                    if Nat.ltb (List.length page) page_size
                    then Some (Returned collected' requested')
                    else fetch_loop fuel' invitation offset' collected' requested'
                end
          end
      end
  end.

Definition fetch_notes (fuel : nat) (invitation : string) : option fetched :=
  fetch_loop fuel invitation 0 [] [].

(** The [for key, val in rcontent.items()] loop of [summarize]. *)
Fixpoint collect_ratings (items : list (string * json)) (ratings : list Binary64.float)
  : list Binary64.float :=
  match items with
  | [] => ratings
  | (key, val) :: rest =>
      if PyStr.contains "rating" (PyStr.lower key)
      then match parse_rating val with
           | Some pr => collect_ratings rest (ratings ++ [pr])
           | None => collect_ratings rest ratings
           end
      else collect_ratings rest ratings
  end.

(** [any(k.lower() == "decision" for k in rcontent)]. *)
Definition any_decision_key (rcontent : list (string * json)) : bool :=
  existsb (fun kv => String.eqb (PyStr.lower (fst kv)) "decision") rcontent.

(** The value a deciding reply is read for, unwrapped. *)
Definition decision_value (rcontent : list (string * json)) : json :=
  let dv := Py.or_ (Py.get rcontent "decision")
              (Py.or_ (Py.get rcontent "Decision") (Py.get rcontent "recommendation")) in
  match dv with
  | JDict m => match Py.lookup "value" m with Some v => v | None => dv end
  | _ => dv
  end.

(** One turn of the [for reply in direct] loop on [ratings] and
    [decision]. *)
Definition reply_step (reply : json) (ratings : list Binary64.float)
    (decision : option string) : option (list Binary64.float * option string) :=
  match Py.as_dict reply with
  | None => None
  | Some r =>
      match Py.as_dict (Py.or_ (Py.get_default r "content" (JDict [])) (JDict [])) with
      | None => None
      | Some rcontent =>
          match Py.str_in "Decision" (Py.get_default r "invitation" (JStr EmptyString)) with
          | None => None
          | Some in_invitation =>
              let decision' :=
                if in_invitation || any_decision_key rcontent
                then (let dv := decision_value rcontent in
                      if Py.truthy dv then Some (str dv) else decision)
                else decision in
              Some (collect_ratings rcontent ratings, decision')
          end
      end
  end.

Fixpoint replies_loop (direct : list json) (ratings : list Binary64.float)
    (decision : option string) : option (list Binary64.float * option string) :=
  match direct with
  | [] => Some (ratings, decision)
  | reply :: rest =>
      match reply_step reply ratings decision with
      | None => None
      | Some (ratings', decision') => replies_loop rest ratings' decision'
      end
  end.

(** [sum(ratings)] of the built-in on a list of floats.  Which roundings
    the built-in makes is the interpreter's (CPython adds the floats one
    after the other up to version 3.11 and compensates the rounding of the
    partial sums since), so the sum is an oracle. *)
Variable float_sum : list Binary64.float -> Binary64.float.

(** Line 113: [sum(ratings) / len(ratings) if ratings else None]. *)
Definition average (ratings : list Binary64.float) : option Binary64.float :=
  match ratings with
  | [] => None
  | _ => Some (Binary64.div (float_sum ratings) (Binary64.of_nat (List.length ratings)))
  end.

Definition authors_string (authors : json) : string :=
  match authors with
  | JList l => PyStr.join "; " (map str l)
  | _ => str authors
  end.

Definition summarize (note : json) : option SubmissionSummary.t :=
  match Py.as_dict note with
  | None => None
  | Some n =>
      match Py.as_dict (Py.or_ (Py.get_default n "content" (JDict [])) (JDict [])) with
      | None => None
      | Some content =>
          let title :=
            Py.or_ (Py.get content "title")
              (Py.or_ (Py.get content "Title") (JStr EmptyString)) in
          let abstract := Py.or_ (Py.get content "abstract") (Py.get content "Abstract") in
          let authors :=
            Py.or_ (Py.get content "authors")
              (Py.or_ (Py.get content "Authors") (JList [])) in
          match Py.as_dict (Py.get_default n "details" (JDict [])) with
          | None => None
          | Some details =>
              match Py.iter (Py.or_ (Py.get_default details "directReplies" (JList []))
                               (JList [])) with
              | None => None
              | Some direct =>
                  match replies_loop direct [] None with
                  | None => None
                  | Some (ratings, decision) =>
                      Some (SubmissionSummary.mk
                              (Py.or_ (Py.get n "forum") (Py.get n "id"))
                              (Py.get n "id")
                              title abstract
                              (authors_string authors)
                              (extract_keywords content)
                              decision
                              (average ratings)
                              (List.length ratings))
                  end
              end
          end
      end
  end.

End Client.

(* ------------------------------------------------------------------ *)
(** ** services/arxiv_matcher.py *)

(** [(arxiv_id, arxiv_title, exact, score)]. *)
Definition match_result : Type := option string * option string * bool * PyFloat.float.

Definition result_score (r : match_result) : PyFloat.float := snd r.

Definition no_match : match_result := (None, None, false, PyFloat.zero).

(** ["".join(ch.lower() for ch in s if ch.isalnum() or ch.isspace())]. *)
Fixpoint keep_lower (s : string) : string :=
  match s with
  | EmptyString => EmptyString
  | String ch r =>
      if PyStr.isalnum ch || PyStr.isspace ch
      then String (PyStr.lower_char ch) (keep_lower r)
      else keep_lower r
  end.

Definition normalize_title (s : string) : string :=
  PyStr.join " " (PyStr.split (keep_lower s)).

Section Matcher.

(** [SequenceMatcher(None, a, b).ratio()] of difflib. *)
Variable ratio : string -> string -> PyFloat.float.

(** [query_arxiv_by_title k title]: the candidates the [k]-th query to
    arXiv returns for [title], or [None] when the request or the parsing of
    its feed raises. *)
Variable query_arxiv_by_title : nat -> string -> option (list (string * string)).

Definition similarity (a b : string) : PyFloat.float :=
  ratio (normalize_title a) (normalize_title b).

(** The [for aid, atitle in candidates] loop of [find_arxiv_match]. *)
Fixpoint match_loop (title norm_title : string) (candidates : list (string * string))
    (best : match_result) : match_result :=
  match candidates with
  | [] => best
  | (aid, atitle) :: rest =>
      if String.eqb (normalize_title atitle) norm_title
      then (Some aid, Some atitle, true, PyFloat.one)
      else
        let s := similarity title atitle in
        if PyFloat.gt s (result_score best)
        then match_loop title norm_title rest (Some aid, Some atitle, false, s)
        else match_loop title norm_title rest best
  end.

(** [find_arxiv_match], as the [k]-th query. *)
Definition find_arxiv_match (k : nat) (title : string) : option match_result :=
  match query_arxiv_by_title k title with
  | None => None
  | Some [] => Some no_match
  | Some candidates => Some (match_loop title (normalize_title title) candidates no_match)
  end.

End Matcher.

(* ------------------------------------------------------------------ *)
(** ** app/models.py, app/db.py, app/config.py *)

(** A [datetime] is a number of microseconds. *)
Definition datetime : Type := Z.

(** [timedelta(seconds=s)]. *)
Definition seconds (s : Z) : Z := (s * 1000000)%Z.
Definition days (d : Z) : Z := seconds (d * 24 * 3600).

Module Venue.
Record t : Type := mk {
  id : nat;
  group_id : string;
  name : string;
  year : option Z;
  added_at : datetime
}.
End Venue.

Module Paper.
Record t : Type := mk {
  id : nat;
  venue_id : nat;
  openreview_forum : string;
  openreview_note : string;
  title : string;
  abstract : option string;
  authors : string;
  keywords : string;
  decision : option string;
  avg_rating : option Binary64.float;
  num_reviews : nat;
  last_refreshed : datetime
}.

Definition set_id (i : nat) (p : t) : t :=
  mk i (venue_id p) (openreview_forum p) (openreview_note p) (title p) (abstract p)
     (authors p) (keywords p) (decision p) (avg_rating p) (num_reviews p)
     (last_refreshed p).
End Paper.

Module ArxivMatch.
Record t : Type := mk {
  id : nat;
  paper_id : nat;
  arxiv_id : string;
  title : string;
  exact : bool;
  score : PyFloat.float;
  matched_at : datetime
}.

Definition set_id (i : nat) (m : t) : t :=
  mk i (paper_id m) (arxiv_id m) (title m) (exact m) (score m) (matched_at m).
End ArxivMatch.

(** The three tables, rows in the order of their ids. *)
Record store : Type := mk_store {
  venues : list Venue.t;
  papers : list Paper.t;
  arxiv_matches : list ArxivMatch.t
}.

Record Settings : Type := mk_settings {
  arxiv_ttl : Z
}.

(** The value of [settings] when the environment sets no TTL. *)
Definition default_settings : Settings := mk_settings (14 * 24 * 3600).

(** The id an autoincrement column gives the next row. *)
Definition next_id (ids : list nat) : nat := S (list_max ids).

(* ------------------------------------------------------------------ *)
(** ** app/ingest.py *)

(** A [SubmissionSummary] whose fields have the types the dataclass
    declares, which is what [ingest_group] stores in the typed columns of
    [Paper]. *)
Module Summary.
Record t : Type := mk {
  forum : string;
  note : string;
  title : string;
  abstract : option string;
  authors : string;
  keywords : list string;
  decision : option string;
  avg_rating : option Binary64.float;
  num_reviews : nat
}.

Definition text (v : json) : option string :=
  match v with JStr s => Some s | _ => None end.

Definition optional_text (v : json) : option (option string) :=
  match v with JNull => Some None | JStr s => Some (Some s) | _ => None end.

(** The summary [summarize] built, when its fields are of the declared
    types. *)
Definition declared (s : SubmissionSummary.t) : option t :=
  match text (SubmissionSummary.forum s), text (SubmissionSummary.note s),
        text (SubmissionSummary.title s), optional_text (SubmissionSummary.abstract s) with
  | Some f, Some n, Some ti, Some ab =>
      Some (mk f n ti ab (SubmissionSummary.authors s) (SubmissionSummary.keywords s)
              (SubmissionSummary.decision s) (SubmissionSummary.avg_rating s)
              (SubmissionSummary.num_reviews s))
  | _, _, _, _ => None
  end.
End Summary.

(** What a run of the pipeline reads and changes besides its arguments:
    the committed store, the number of clock readings taken and the titles
    sent to arXiv, oldest first. *)
Record World : Type := mk_world {
  db : store;
  clock : nat;
  queries : list string
}.

(** The pending rows of a session, which has [autoflush=False]: objects
    added and not yet flushed, which no query sees. *)
Definition pending (row : Type) : Type := list row.

(** The assignments of the [else] branch of the upsert. *)
Definition refresh (summary : Summary.t) (now : datetime) (paper : Paper.t) : Paper.t :=
  Paper.mk (Paper.id paper) (Paper.venue_id paper) (Paper.openreview_forum paper)
    (Paper.openreview_note paper)
    (Summary.title summary) (Summary.abstract summary) (Summary.authors summary)
    (PyStr.join ", " (Summary.keywords summary))
    (Summary.decision summary) (Summary.avg_rating summary)
    (Summary.num_reviews summary) now.

(** The [Paper(...)] of the [if not paper] branch; its id is given at the
    flush. *)
Definition new_paper (venue_id : nat) (summary : Summary.t) (now : datetime) : Paper.t :=
  Paper.mk 0 venue_id (Summary.forum summary) (Summary.note summary)
    (Summary.title summary) (Summary.abstract summary) (Summary.authors summary)
    (PyStr.join ", " (Summary.keywords summary))
    (Summary.decision summary) (Summary.avg_rating summary)
    (Summary.num_reviews summary) now.

(** [db.scalar(select(Paper).where(Paper.openreview_forum == forum))]
    followed by the assignments [f] to the object found: the first row with
    that forum is changed in place; [None] when no row has it. *)
Fixpoint update_first (forum : string) (f : Paper.t -> Paper.t) (rows : list Paper.t)
  : option (list Paper.t) :=
  match rows with
  | [] => None
  | p :: rest =>
      if String.eqb (Paper.openreview_forum p) forum then Some (f p :: rest)
      else match update_first forum f rest with
           | Some rest' => Some (p :: rest')
           | None => None
           end
  end.

(** The flush of pending rows: each gets the next id, in the order they
    were added. *)
Fixpoint insert_papers (rows : list Paper.t) (new : pending Paper.t) : list Paper.t :=
  match new with
  | [] => rows
  | p :: rest =>
      insert_papers (rows ++ [Paper.set_id (next_id (map Paper.id rows)) p]) rest
  end.

Fixpoint insert_matches (rows : list ArxivMatch.t) (new : pending ArxivMatch.t)
  : list ArxivMatch.t :=
  match new with
  | [] => rows
  | m :: rest =>
      insert_matches (rows ++ [ArxivMatch.set_id (next_id (map ArxivMatch.id rows)) m]) rest
  end.

(** [select(ArxivMatch).where(paper_id == pid).order_by(matched_at.desc())],
    first row: among equal [matched_at] the earlier row is kept. *)
Fixpoint latest_from (pid : nat) (rows : list ArxivMatch.t) (best : option ArxivMatch.t)
  : option ArxivMatch.t :=
  match rows with
  | [] => best
  | m :: rest =>
      if Nat.eqb (ArxivMatch.paper_id m) pid
      then match best with
           | None => latest_from pid rest (Some m)
           | Some b =>
               if Z.ltb (ArxivMatch.matched_at b) (ArxivMatch.matched_at m)
               then latest_from pid rest (Some m)
               else latest_from pid rest best
           end
      else latest_from pid rest best
  end.

Definition latest_match (pid : nat) (rows : list ArxivMatch.t) : option ArxivMatch.t :=
  latest_from pid rows None.

(** [if aid:] and [atitle or p.title] on optional strings. *)
Definition nonempty (s : option string) : option string :=
  match s with
  | Some x => if PyStr.is_empty x then None else Some x
  | None => None
  end.

Section Ingest.

(** [utcnow k]: the [k]-th reading of [datetime.utcnow()]. *)
Variable utcnow : nat -> datetime.
Variable ratio : string -> string -> PyFloat.float.
Variable query_arxiv_by_title : nat -> string -> option (list (string * string)).
Variable settings : Settings.

(** [group_id.split("/")[0]]. *)
Definition default_name (group_id : string) : string :=
  hd EmptyString (PyStr.split_on "/"%char group_id EmptyString).

(** Lines 22-26: the venue of the group, added and flushed when the table
    has none. *)
Definition ensure_venue (group_id : string) (name : option string) (year : option Z)
    (rows : list Venue.t) (clock : nat) : Venue.t * list Venue.t * nat :=
  match find (fun v => String.eqb (Venue.group_id v) group_id) rows with
  | Some venue => (venue, rows, clock)
  | None =>
      let venue :=
        Venue.mk (next_id (map Venue.id rows)) group_id
          (match nonempty name with Some n => n | None => default_name group_id end)
          year (utcnow clock) in
      (venue, rows ++ [venue], S clock)
  end.

(** Lines 28-54: the [for summary in submissions] loop.  The query of line
    29 reads [rows]; the papers added at line 44 wait in [new]. *)
Fixpoint upsert_loop (venue_id : nat) (submissions : list Summary.t)
    (rows : list Paper.t) (new : pending Paper.t) (clock count : nat)
  : list Paper.t * pending Paper.t * nat * nat :=
  match submissions with
  | [] => (rows, new, clock, count)
  | summary :: rest =>
      let now := utcnow clock in
      match update_first (Summary.forum summary) (refresh summary now) rows with
      | Some rows' => upsert_loop venue_id rest rows' new (S clock) (S count)
      | None =>
          upsert_loop venue_id rest rows (new ++ [new_paper venue_id summary now])
            (S clock) (S count)
      end
  end.

(** Line 66: [latest and latest.matched_at > deadline]. *)
Definition is_fresh (deadline : datetime) (latest : option ArxivMatch.t) : bool :=
  match latest with
  | Some m => Z.ltb deadline (ArxivMatch.matched_at m)
  | None => false
  end.

(** The state of the matching loop: the matches added, the clock readings
    taken and the titles sent to arXiv. *)
Definition matching : Type := pending ArxivMatch.t * nat * list string.

(** Lines 63-79: one turn of [for p in papers]; [inl] when the turn ends,
    [inr] when [find_arxiv_match] raises, with the clock and the queries at
    that point. *)
Definition match_paper (deadline : datetime) (stored : list ArxivMatch.t)
    (p : Paper.t) (st : matching) : matching + nat * list string :=
  let '(new, clock, sent) := st in
  if is_fresh deadline (latest_match (Paper.id p) stored) then inl st
  else
    let sent' := sent ++ [Paper.title p] in
    match find_arxiv_match ratio query_arxiv_by_title (List.length sent) (Paper.title p) with
    | None => inr (clock, sent')
    | Some (aid, atitle, exact, score) =>
        match nonempty aid with
        | Some a =>
            let row :=
              ArxivMatch.mk 0 (Paper.id p) a
                (match nonempty atitle with Some t => t | None => Paper.title p end)
                exact score (utcnow clock) in
            inl (new ++ [row], S clock, sent')
        | None => inl (new, clock, sent')
        end
    end.

Fixpoint match_papers (deadline : datetime) (stored : list ArxivMatch.t)
    (ps : list Paper.t) (st : matching) : matching + nat * list string :=
  match ps with
  | [] => inl st
  | p :: rest =>
      match match_paper deadline stored p st with
      | inl st' => match_papers deadline stored rest st'
      | inr e => inr e
      end
  end.

(** Lines 20 to 82 of [ingest_group], on the summaries that
    [fetch_submissions_for_group] returned at line 19: the count returned
    ([None] when a query to arXiv raised) and the world left.  A call whose
    fetch raises, and the errors of the database at a flush or a commit,
    are not part of the model: what is proved below is about the calls
    that go past line 19 and whose writes the database takes. *)
Definition ingest_group (submissions : list Summary.t) (group_id : string)
    (name : option string) (year : option Z) (with_arxiv : bool) (w : World)
  : option nat * World :=
  let '(venue, vs, c1) := ensure_venue group_id name year (venues (db w)) (clock w) in
  let '(rows, new, c2, count) :=
    upsert_loop (Venue.id venue) submissions (papers (db w)) [] c1 0 in
  let ps := insert_papers rows new in
  let ms := arxiv_matches (db w) in
  if with_arxiv then
    let deadline := (utcnow c2 - seconds (arxiv_ttl settings))%Z in
    let mine := filter (fun p => Nat.eqb (Paper.venue_id p) (Venue.id venue)) ps in
    match match_papers deadline ms mine ([], S c2, queries w) with
    | inl (added, c3, sent) =>
        (Some count, mk_world (mk_store vs ps (insert_matches ms added)) c3 sent)
    | inr (c3, sent) => (None, mk_world (mk_store vs ps ms) c3 sent)
    end
  else (Some count, mk_world (mk_store vs ps ms) c2 (queries w)).

End Ingest.

(* ------------------------------------------------------------------ *)
(** ** app/services/openreview_client.py: [fetch_submissions_for_group] *)

Definition DEFAULT_INVITATIONS : list string := ["Blind_Submission"; "Submission"].
Definition FALLBACK_INVITATIONS : list string := ["Submission"].

(** The values a dict takes as keys: all but lists and dicts. *)
Definition hashable (v : json) : bool :=
  match v with
  | JList _ | JDict _ => false
  | _ => true
  end.

(** The number a numeric key stands for. *)
Definition key_number (v : json) : option Q :=
  match v with
  | JBool b => Some (if b then 1%Q else 0%Q)
  | JInt z => Some (inject_Z z)
  | JFloat q => Some q
  | _ => None
  end.

(** Two hashable values are the same dict key: equal strings, [None] twice,
    or equal numbers ([True] is 1 and [1.0] is 1). *)
Definition key_eqb (a b : json) : bool :=
  match a, b with
  | JNull, JNull => true
  | JStr s, JStr t => String.eqb s t
  | _, _ =>
      match key_number a, key_number b with
      | Some x, Some y => Qeq_bool x y
      | _, _ => false
      end
  end.

(** [seen[sid] = note] on an insertion-ordered dict: the value of a key
    already there is replaced where it stands, a new key goes last. *)
Fixpoint dict_set (sid note : json) (seen : list (json * json)) : list (json * json) :=
  match seen with
  | [] => [(sid, note)]
  | (k, v) :: rest =>
      if key_eqb k sid then (k, note) :: rest else (k, v) :: dict_set sid note rest
  end.

(** Lines 140-143: [None] when a record is no dict or its id cannot be
    hashed. *)
Fixpoint dedupe (notes : list json) (seen : list (json * json)) : option (list (json * json)) :=
  match notes with
  | [] => Some seen
  | note :: rest =>
      match Py.as_dict note with
      | None => None
      | Some n =>
          let sid := Py.get n "id" in
          if hashable sid then dedupe rest (dict_set sid note seen) else None
      end
  end.

(** What the fetches of a list of invitations end in: the records and the
    invitations asked for, or an exception. *)
Inductive gathered : Type :=
| Gathered (notes : list json) (asked : list string)
| GatherRaised (asked : list string).

(** How [fetch_submissions_for_group] ends, with the invitations it asked
    for. *)
Inductive submissions : Type :=
| Summaries (result : list SubmissionSummary.t) (asked : list string)
| SubmissionsRaised (asked : list string).

Section Submissions.

Variable repr : json -> string.
Variable float_sum : list Binary64.float -> Binary64.float.

(** [client i]: the source as the [i]-th call of [fetch_notes] on the
    client finds it. *)
Variable client : nat -> nat -> string -> nat -> response.

(** [for invite in invitations: notes.extend(await fetch_notes(...))];
    [None] when a fetch runs out of fuel. *)
Fixpoint gather (fuel : nat) (group_id : string) (invitations : list string)
    (notes : list json) (asked : list string) : option gathered :=
  match invitations with
  | [] => Some (Gathered notes asked)
  | invite :: rest =>
      let invitation := (group_id ++ "/-/" ++ invite)%string in
      match fetch_notes (client (List.length asked)) fuel invitation with
      | None => None
      | Some (Raised _) => Some (GatherRaised (asked ++ [invitation]))
      | Some (Returned page _) =>
          gather fuel group_id rest (notes ++ page) (asked ++ [invitation])
      end
  end.

(** [[summarize(note) for note in seen.values()]]. *)
Fixpoint summarize_all (notes : list json) : option (list SubmissionSummary.t) :=
  match notes with
  | [] => Some []
  | note :: rest =>
      match summarize repr float_sum note, summarize_all rest with
      | Some s, Some l => Some (s :: l)
      | _, _ => None
      end
  end.

Definition fetch_submissions_for_group (fuel : nat) (group_id : string)
  : option submissions :=
  match gather fuel group_id DEFAULT_INVITATIONS [] [] with
  | None => None
  | Some (GatherRaised asked) => Some (SubmissionsRaised asked)
  | Some (Gathered notes asked) =>
      match (match notes with
             | [] => gather fuel group_id FALLBACK_INVITATIONS notes asked
             | _ => Some (Gathered notes asked)
             end) with
      | None => None
      | Some (GatherRaised asked') => Some (SubmissionsRaised asked')
      | Some (Gathered [] asked') => Some (Summaries [] asked')
      | Some (Gathered notes' asked') =>
          match dedupe notes' [] with
          | None => Some (SubmissionsRaised asked')
          | Some seen =>
              match summarize_all (map snd seen) with
              | None => Some (SubmissionsRaised asked')
              | Some result => Some (Summaries result asked')
              end
          end
      end
  end.

End Submissions.

(* ------------------------------------------------------------------ *)
(** ** app/streamlit_app.py: [arxiv_status] and the loop of [filter_papers] *)

(** [(a.exact, a.score) < (b.exact, b.score)], tuples compared as Python
    does, [False] below [True]. *)
Definition rank_lt (a b : ArxivMatch.t) : bool :=
  if Bool.eqb (ArxivMatch.exact a) (ArxivMatch.exact b)
  then PyFloat.gt (ArxivMatch.score b) (ArxivMatch.score a)
  else negb (ArxivMatch.exact a) && ArxivMatch.exact b.

(** [sorted(matches, key=lambda m: (m.exact, m.score), reverse=True)]: the
    sort is stable, rows of equal key keep their order. *)
Fixpoint insert_desc (m : ArxivMatch.t) (sorted : list ArxivMatch.t) : list ArxivMatch.t :=
  match sorted with
  | [] => [m]
  | x :: rest => if rank_lt m x then x :: insert_desc m rest else m :: sorted
  end.

Definition sorted_desc (matches : list ArxivMatch.t) : list ArxivMatch.t :=
  fold_right insert_desc [] matches.

(** A row of the table [filter_papers] returns. *)
Module TableRow.
Record t : Type := mk {
  venue : string;
  title : string;
  authors : string;
  decision : string;
  avg_rating : option Binary64.float;
  num_reviews : nat;
  keywords : string;
  best_arxiv : string;
  match_type : string;
  score : string
}.
End TableRow.

Section App.

(** [f"{x:.3f}"] and [round(x, 2)] on floats. *)
Variable format3 : PyFloat.float -> string.
Variable round2 : Binary64.float -> Binary64.float.

Definition arxiv_status (matches : list ArxivMatch.t) : string * string * string :=
  match sorted_desc matches with
  | [] => (EmptyString, EmptyString, EmptyString)
  | best :: _ =>
      (ArxivMatch.arxiv_id best,
       if ArxivMatch.exact best then "exact" else "fuzzy",
       format3 (ArxivMatch.score best))
  end.

(** The float that the literal [0.85] of line 87 is: the float nearest to
    85/100, which is 7656119366529843 / 2^53, a little below 85/100. *)
Definition fuzzy_threshold : PyFloat.float := (7656119366529843 # 9007199254740992)%Q.

(** Lines 81-88: the paper is passed over under the filter. *)
Definition arxiv_filter_skips (arxiv_filter : string) (matches : list ArxivMatch.t) : bool :=
  (String.eqb arxiv_filter "exists" && match matches with [] => true | _ => false end)
  || (String.eqb arxiv_filter "none" && match matches with [] => false | _ => true end)
  || (String.eqb arxiv_filter "exact" && negb (existsb ArxivMatch.exact matches))
  || (String.eqb arxiv_filter "fuzzy"
      && negb (existsb (fun m => negb (ArxivMatch.exact m)
                                 && Qle_bool fuzzy_threshold (ArxivMatch.score m)) matches)).

(** [paper.arxiv_matches] and [paper.venue], read from the store. *)
Definition matches_of (d : store) (paper : Paper.t) : list ArxivMatch.t :=
  filter (fun m => Nat.eqb (ArxivMatch.paper_id m) (Paper.id paper)) (arxiv_matches d).

Definition venue_of (d : store) (paper : Paper.t) : option Venue.t :=
  find (fun v => Nat.eqb (Venue.id v) (Paper.venue_id paper)) (venues d).

(** [paper.venue.year or ''] inside the f-string. *)
Definition year_text (year : option Z) : string :=
  match year with
  | Some y => if Z.eqb y 0 then EmptyString else PyStr.of_Z y
  | None => EmptyString
  end.

Definition or_empty (s : option string) : string :=
  match s with Some x => x | None => EmptyString end.

(** Lines 79-104: the loop over the papers the query returned; [None] when
    a paper kept has no venue. *)
Fixpoint filter_rows (d : store) (arxiv_filter : string) (papers : list Paper.t)
  : option (list TableRow.t) :=
  match papers with
  | [] => Some []
  | paper :: rest =>
      let matches := sorted_desc (matches_of d paper) in
      if arxiv_filter_skips arxiv_filter matches then filter_rows d arxiv_filter rest
      else
        let '(arxiv_id, match_type, score) := arxiv_status matches in
        match venue_of d paper with
        | None => None
        | Some venue =>
            match filter_rows d arxiv_filter rest with
            | None => None
            | Some rows =>
                Some (TableRow.mk (Venue.name venue ++ " " ++ year_text (Venue.year venue))
                        (Paper.title paper) (Paper.authors paper)
                        (or_empty (Paper.decision paper))
                        (option_map round2 (Paper.avg_rating paper))
                        (Paper.num_reviews paper) (Paper.keywords paper)
                        arxiv_id match_type score
                      :: rows)
            end
        end
  end.

End App.

(* ------------------------------------------------------------------ *)
(** ** Vocabulary of the statements *)

(** The records a decoded body carries for [fetch_notes]: the list under
    ["notes"], else under ["items"], else none; [None] when reading them
    raises. *)
Definition page_of (data : json) : option (list json) :=
  match Py.as_dict data with
  | None => None
  | Some d =>
      let notes := Py.or_ (Py.get d "notes") (Py.or_ (Py.get d "items") (JList [])) in
      if Py.truthy notes then Py.iter notes else Some []
  end.

(** The offsets at which consecutive pages start, from [offset]. *)
Fixpoint offsets_from (offset : nat) (pages : list (list json)) : list nat :=
  match pages with
  | [] => []
  | page :: rest => offset :: offsets_from (offset + List.length page) rest
  end.

(** The source answers the requests numbered [k], [k+1], ... with [pages],
    when each is asked at the offset the pages before it add up to. *)
Fixpoint serves (http_get : nat -> string -> nat -> response) (invitation : string)
    (k offset : nat) (pages : list (list json)) : Prop :=
  match pages with
  | [] => True
  | page :: rest =>
      (exists data, http_get k invitation offset = Body data /\ page_of data = Some page)
      /\ serves http_get invitation (S k) (offset + List.length page) rest
  end.

(** No candidate of the list has the normalized title of the query. *)
Definition none_exact (title : string) (candidates : list (string * string)) : Prop :=
  forall c, In c candidates -> normalize_title (snd c) <> normalize_title title.

(** [m] is a most recent stored match of paper [pid]. *)
Definition most_recent (pid : nat) (rows : list ArxivMatch.t) (m : ArxivMatch.t) : Prop :=
  In m rows
  /\ ArxivMatch.paper_id m = pid
  /\ forall m', In m' rows -> ArxivMatch.paper_id m' = pid ->
                (ArxivMatch.matched_at m' <= ArxivMatch.matched_at m)%Z.

(** The titles sent to arXiv and the matches added when a turn, or the
    loop, ends; the matches are lost when it raised. *)
Definition sent_of (r : matching + nat * list string) : list string :=
  match r with
  | inl (_, _, sent) => sent
  | inr (_, sent) => sent
  end.



(** The papers of a list the matching loop queries arXiv for. *)
Definition stale (deadline : datetime) (stored : list ArxivMatch.t) (p : Paper.t) : bool :=
  negb (is_fresh deadline (latest_match (Paper.id p) stored)).

(** A ratio for the examples: twice the length of the common prefix over
    the two lengths together. *)
Fixpoint common_prefix (a b : string) : nat :=
  match a, b with
  | String x a', String y b' => if Ascii.eqb x y then S (common_prefix a' b') else 0
  | _, _ => 0
  end.

Definition prefix_ratio (a b : string) : PyFloat.float :=
  match String.length a + String.length b with
  | O => PyFloat.one
  | S n => Qred (Z.of_nat (2 * common_prefix a b) # Pos.of_succ_nat n)%Q
  end.

(** Feeds for the examples: the same candidates at every query. *)
Definition feed_exact (k : nat) (title : string) : option (list (string * string)) :=
  Some [("0000.0001", "Foo Baz"); ("1111.1111", "Foo Bar"); ("2222.2222", "foo   bar")].

Definition feed_fuzzy (k : nat) (title : string) : option (list (string * string)) :=
  Some [("0000.0001", "Foo Baz"); ("0000.0002", "Foo Bat"); ("0000.0003", "Zed")].

Definition feed_empty (k : nat) (title : string) : option (list (string * string)) :=
  Some [].

(** A clock for the examples: one second a reading. *)
Definition example_clock (k : nat) : datetime :=
  (seconds 1700000000 + seconds (Z.of_nat k))%Z.

(** The direct replies [summarize] loops over, as it reads them from the
    record. *)
Definition direct_replies (note : json) : option (list json) :=
  match Py.as_dict note with
  | None => None
  | Some n =>
      match Py.as_dict (Py.get_default n "details" (JDict [])) with
      | None => None
      | Some details =>
          Py.iter (Py.or_ (Py.get_default details "directReplies" (JList [])) (JList []))
      end
  end.

(** The content dictionary of a reply, empty when the reply has none. *)
Definition reply_content (reply : json) : list (string * json) :=
  match Py.as_dict reply with
  | None => []
  | Some r =>
      match Py.as_dict (Py.or_ (Py.get_default r "content" (JDict [])) (JDict [])) with
      | Some rcontent => rcontent
      | None => []
      end
  end.

(** The invitation of a reply contains ["Decision"]. *)
Definition decision_invitation (reply : json) : bool :=
  match Py.as_dict reply with
  | None => false
  | Some r =>
      match Py.str_in "Decision" (Py.get_default r "invitation" (JStr EmptyString)) with
      | Some b => b
      | None => false
      end
  end.

(** The key equals ["decision"] whatever the case of its letters. *)
Definition decision_key (k : string) : bool := String.eqb (PyStr.lower k) "decision".

(** The condition under which a reply is read for a decision: its
    invitation contains ["Decision"] or a key of its content equals
    ["decision"] whatever the case. *)
Definition deciding (reply : json) : bool :=
  decision_invitation reply || existsb decision_key (map fst (reply_content reply)).

(** No key of the content of the reply is ["decision"] in another case than
    ["decision"] and ["Decision"]. *)
Definition plain_keys (reply : json) : Prop :=
  forall k, In k (map fst (reply_content reply)) -> decision_key k = true ->
            k = "decision" \/ k = "Decision".

(** The value read for the decision: the first truthy one of those under
    ["decision"], ["Decision"] and ["recommendation"], in that order. *)
Definition value_read (rcontent : list (string * json)) : option json :=
  if Py.truthy (Py.get rcontent "decision") then Some (Py.get rcontent "decision")
  else if Py.truthy (Py.get rcontent "Decision") then Some (Py.get rcontent "Decision")
  else if Py.truthy (Py.get rcontent "recommendation")
       then Some (Py.get rcontent "recommendation")
  else None.

(** A value taken out of its [{value: ...}] wrapper, when it is a dict
    that has the key. *)
Definition unwrapped (v : json) : json :=
  match v with
  | JDict m => match Py.lookup "value" m with Some x => x | None => v end
  | _ => v
  end.

(** The decision a reply contributes, if any. *)
Definition contribution (repr : json -> string) (reply : json) : option string :=
  if deciding reply
  then match value_read (reply_content reply) with
       | Some v => if Py.truthy (unwrapped v) then Some (str repr (unwrapped v)) else None
       | None => None
       end
  else None.

(** The last contribution of a list of replies, [decision] when none
    contributes. *)
Definition last_contribution (repr : json -> string) (direct : list json)
    (decision : option string) : option string :=
  fold_left (fun d reply =>
               match contribution repr reply with Some x => Some x | None => d end)
    direct decision.

(** The rating samples of one content dictionary, in the order of its
    keys. *)
Definition rating_samples (repr : json -> string) (rcontent : list (string * json))
  : list Binary64.float :=
  flat_map (fun kv =>
              if PyStr.contains "rating" (PyStr.lower (fst kv))
              then match parse_rating repr (snd kv) with
                   | Some pr => [pr]
                   | None => []
                   end
              else [])
    rcontent.

(** The first digit or point of a string and what follows it. *)
Fixpoint skip_to_token (s : string) : string :=
  match s with
  | EmptyString => EmptyString
  | String c r =>
      if PyStr.isdigit c || Ascii.eqb c "."%char then s else skip_to_token r
  end.

(** The longest prefix made of digits and of one point at most, beyond the
    point already taken when [point] is set. *)
Fixpoint take_token (s : string) (point : bool) : string :=
  match s with
  | EmptyString => EmptyString
  | String c r =>
      if PyStr.isdigit c then String c (take_token r point)
      else if Ascii.eqb c "."%char && negb point then String c (take_token r true)
      else EmptyString
  end.

Definition rating_token (s : string) : string := take_token (skip_to_token s) false.

(** The scan as the specification words it: a token of digits and at most
    one point, ended by the first other character met after a digit has
    been collected. *)
Fixpoint claimed_scan (s buf : string) (digit : bool) : string :=
  match s with
  | EmptyString => buf
  | String ch r =>
      if PyStr.isdigit ch then claimed_scan r (buf ++ String ch EmptyString) true
      else if Ascii.eqb ch "."%char && negb (PyStr.contains "." buf)
      then claimed_scan r (buf ++ String ch EmptyString) digit
      else if digit then buf
      else claimed_scan r buf digit
  end.

(** The sample as the specification words it: the scan of the string form
    of the value, converted. *)
Definition claimed_rating (repr : json -> string) (value : json) : option Binary64.float :=
  let buf := claimed_scan (str repr value) EmptyString false in
  if PyStr.is_empty buf then None else Binary64.of_token buf.

(** The sum of floats added one after the other from zero, which is what
    the built-in [sum] computes up to CPython 3.11. *)
Definition plain_sum (xs : list Binary64.float) : Binary64.float :=
  fold_left Binary64.add xs Binary64.zero.

(** The float of a whole number that floats hold exactly. *)
Definition whole (z : Z) : Binary64.float := Binary64.of_ratio z 1.

(** A [repr] for the examples, none of which renders a float, a list or a
    dict. *)
Definition example_repr (v : json) : string := "<object>".

(** A reply of the given invitation and content, and a record with that
    one direct reply. *)
Definition reply_of (invitation : string) (rcontent : list (string * json)) : json :=
  JDict [("invitation", JStr invitation); ("content", JDict rcontent)].

Definition note_with_reply (invitation : string) (rcontent : list (string * json)) : json :=
  JDict [("id", JStr "n1");
         ("content", JDict [("title", JStr "A Title")]);
         ("details", JDict [("directReplies", JList [reply_of invitation rcontent])])].

(** The forums of a list of papers and of a list of summaries. *)
Definition forums (rows : list Paper.t) : list string := map Paper.openreview_forum rows.

Definition summary_forums (submissions : list Summary.t) : list string :=
  map Summary.forum submissions.

(** The forum is that of a row of the list. *)
Definition stored_forum (rows : list Paper.t) (forum : string) : bool :=
  existsb (String.eqb forum) (forums rows).

(** [p'] is what an ingestion of [submissions], reading the clock between
    [lo] and [hi], makes of the stored paper [p]: the same row when no
    summary has its forum, else the row refreshed from such a summary. *)
Definition refreshed_by (utcnow : nat -> datetime) (submissions : list Summary.t)
    (lo hi : nat) (p p' : Paper.t) : Prop :=
  (~ In (Paper.openreview_forum p) (summary_forums submissions) /\ p' = p)
  \/ exists summary k,
      In summary submissions
      /\ Summary.forum summary = Paper.openreview_forum p
      /\ lo <= k < hi
      /\ p' = refresh summary (utcnow k) p.

(** [p] is a paper that ingestion inserts for [venue_id]: built from a
    summary whose forum no row of [rows] has. *)
Definition inserted_by (utcnow : nat -> datetime) (venue_id : nat)
    (submissions : list Summary.t) (rows : list Paper.t) (lo hi : nat) (p : Paper.t)
  : Prop :=
  exists summary k i,
    In summary submissions
    /\ stored_forum rows (Summary.forum summary) = false
    /\ lo <= k < hi
    /\ p = Paper.set_id i (new_paper venue_id summary (utcnow k)).

(** [p] with another [last_refreshed]. *)
Definition touch (now : datetime) (p : Paper.t) : Paper.t :=
  Paper.mk (Paper.id p) (Paper.venue_id p) (Paper.openreview_forum p)
    (Paper.openreview_note p) (Paper.title p) (Paper.abstract p) (Paper.authors p)
    (Paper.keywords p) (Paper.decision p) (Paper.avg_rating p) (Paper.num_reviews p) now.

(** The number of venues of a group. *)
Definition count_venues (group_id : string) (rows : list Venue.t) : nat :=
  List.length (filter (fun v => String.eqb (Venue.group_id v) group_id) rows).

(** What a second ingestion of the same summaries makes of a stored
    paper: the same row when no summary has its forum, else the row with a
    later [last_refreshed] and nothing else changed. *)
Definition only_touched (submissions : list Summary.t) (p p' : Paper.t) : Prop :=
  (~ In (Paper.openreview_forum p) (summary_forums submissions) /\ p' = p)
  \/ (In (Paper.openreview_forum p) (summary_forums submissions)
      /\ exists now, p' = touch now p /\ (Paper.last_refreshed p < now)%Z).

(** Worlds and summaries for the examples. *)
Definition venue_a : Venue.t :=
  Venue.mk 1 "A.cc/2024/Conference" "A.cc" (Some 2024%Z) (example_clock 0).

Definition paper_a : Paper.t :=
  Paper.mk 1 1 "f1" "f1" "Old title" None "A. Author" "" None None 0 (example_clock 1).

Definition world_a : World := mk_world (mk_store [venue_a] [paper_a] []) 2 [].

Definition empty_world : World := mk_world (mk_store [] [] []) 0 [].

Definition summary_f1 : Summary.t :=
  Summary.mk "f1" "f1" "New title" None "B. Author" [] None None 0.

Definition summary_f1_again : Summary.t :=
  Summary.mk "f1" "n2" "Another title" None "C. Author" [] None None 0.

Definition summary_f2 : Summary.t :=
  Summary.mk "f2" "f2" "Second paper" None "D. Author" ["LLM"; "Safety"] None
    (Some (whole 5)) 2.

Definition match_a : ArxivMatch.t :=
  ArxivMatch.mk 1 1 "2401.00001" "Old title" true PyFloat.one (example_clock 1).

(** A word of a normalized title: not empty, and free of whitespace. *)
Definition space_free (w : string) : Prop :=
  Forall (fun c => PyStr.isspace c = false) (list_ascii_of_string w).

Definition word (w : string) : Prop := w <> EmptyString /\ space_free w.

(** A source that holds [total] records and answers every request with the
    records from the offset on, at most [page_size] of them. *)
Definition record_no (i : nat) : json := JDict [("id", JStr (PyStr.of_Z (Z.of_nat i)))].

Definition paged_source (total : nat) (k : nat) (invitation : string) (offset : nat)
  : response :=
  Body (JDict [("notes",
                JList (map record_no (seq offset (Nat.min page_size (total - offset)))))]).

(* ------------------------------------------------------------------ *)
(** ** Vocabulary of the further statements *)

(** The request numbered [k] at [offset] ends [fetch_notes] with an
    exception: the transport or the decoding fails, the body is no dict, or
    what it carries cannot be iterated. *)
Definition fails (http_get : nat -> string -> nat -> response) (invitation : string)
    (k offset : nat) : Prop :=
  http_get k invitation offset = Failed
  \/ exists data, http_get k invitation offset = Body data /\ page_of data = None.

(** A source without end: every request is answered with [page_size]
    records. *)
Definition endless_source (k : nat) (invitation : string) (offset : nat) : response :=
  Body (JDict [("notes", JList (map record_no (seq offset page_size)))]).

(** A source of [total] records whose requests from the third on fail. *)
Definition flaky_source (total : nat) (k : nat) (invitation : string) (offset : nat)
  : response :=
  if Nat.ltb k 2 then paged_source total k invitation offset else Failed.

(** No two keys of the list are the same dict key. *)
Fixpoint distinct_keys (keys : list json) : Prop :=
  match keys with
  | [] => True
  | k :: rest => (forall k', In k' rest -> key_eqb k k' = false) /\ distinct_keys rest
  end.

(** The id of a record, [None] when it has none. *)
Definition note_id (note : json) : json :=
  match note with
  | JDict n => Py.get n "id"
  | _ => JNull
  end.

(** A record and a client for the examples: the group has the records ["a"]
    and ["b"] under its first invitation and ["b"], changed, and ["c"]
    under its second. *)
Definition note_of (id title : string) : json :=
  JDict [("id", JStr id); ("content", JDict [("title", JStr title)])].

Definition example_client (i k : nat) (invitation : string) (offset : nat) : response :=
  if Nat.eqb offset 0
  then (if String.eqb invitation "V/-/Blind_Submission"
        then Body (JDict [("notes", JList [note_of "a" "First"; note_of "b" "Second"])])
        else Body (JDict [("notes", JList [note_of "b" "Second, again";
                                           note_of "c" "Third"])]))
  else Body (JDict [("notes", JList [])]).

(** A client whose group has records under the invitation [Submission]
    only from the third fetch on. *)
Definition late_client (i k : nat) (invitation : string) (offset : nat) : response :=
  if Nat.eqb i 2 then Body (JDict [("notes", JList [note_of "z" "Late"])])
  else Body (JDict [("notes", JList [])]).

(** The shape [summarize] needs of a reply: a dict whose content, when
    truthy, is a dict, and whose invitation is a string, a list or a dict. *)
Definition reply_ok (reply : json) : bool :=
  match Py.as_dict reply with
  | None => false
  | Some r =>
      match Py.as_dict (Py.or_ (Py.get_default r "content" (JDict [])) (JDict [])),
            Py.str_in "Decision" (Py.get_default r "invitation" (JStr EmptyString)) with
      | Some _, Some _ => true
      | _, _ => false
      end
  end.

(** The shape [summarize] needs of a record: a dict whose content, when
    truthy, is a dict, whose details, when present, is a dict, and whose
    direct replies, when truthy, can be iterated and have the shape
    above. *)
Definition note_ok (note : json) : bool :=
  match Py.as_dict note with
  | None => false
  | Some n =>
      match Py.as_dict (Py.or_ (Py.get_default n "content" (JDict [])) (JDict [])),
            Py.as_dict (Py.get_default n "details" (JDict [])) with
      | Some _, Some details =>
          match Py.iter (Py.or_ (Py.get_default details "directReplies" (JList []))
                           (JList [])) with
          | Some direct => forallb reply_ok direct
          | None => false
          end
      | _, _ => false
      end
  end.

(** The rating samples of a record, reply by reply. *)
Definition samples_of (repr : json -> string) (direct : list json) : list Binary64.float :=
  flat_map (fun reply => rating_samples repr (reply_content reply)) direct.

(** The characters of a string. *)
Definition chars_of (s : string) : list ascii := list_ascii_of_string s.

(** A field value [extract_keywords] reads keywords from: a list or a
    string. *)
Definition yields (v : option json) : bool :=
  match v with
  | Some (JList _) | Some (JStr _) => true
  | _ => false
  end.

Definition has_list (v : option json) : bool :=
  match v with
  | Some (JList _) => true
  | _ => false
  end.

(** A float that is a zero, a positive number or the positive infinity:
    neither negative nor NaN. *)
Definition sign_free (f : Binary64.float) : Prop :=
  match f with
  | S754_zero s | S754_infinity s | S754_finite s _ _ => s = false
  | S754_nan => False
  end.

(** A JSON number, or a boolean, which Python takes for one. *)
Definition is_number (v : json) : bool :=
  match v with
  | JBool _ | JInt _ | JFloat _ => true
  | _ => false
  end.

(** What may follow the digits of a rating for the scan to end on them:
    nothing, or a character that is neither a digit nor a point. *)
Definition ends_token (rest : string) : Prop :=
  match rest with
  | EmptyString => True
  | String c _ => PyStr.isdigit c = false /\ c <> "."%char
  end.

(** The number the decimal digits [d] write, after the digits that gave
    [acc]. *)
Fixpoint uint_value (d : Decimal.uint) (acc : N) : N :=
  match d with
  | Decimal.Nil => acc
  | Decimal.D0 d' => uint_value d' (acc * 10 + 0)
  | Decimal.D1 d' => uint_value d' (acc * 10 + 1)
  | Decimal.D2 d' => uint_value d' (acc * 10 + 2)
  | Decimal.D3 d' => uint_value d' (acc * 10 + 3)
  | Decimal.D4 d' => uint_value d' (acc * 10 + 4)
  | Decimal.D5 d' => uint_value d' (acc * 10 + 5)
  | Decimal.D6 d' => uint_value d' (acc * 10 + 6)
  | Decimal.D7 d' => uint_value d' (acc * 10 + 7)
  | Decimal.D8 d' => uint_value d' (acc * 10 + 8)
  | Decimal.D9 d' => uint_value d' (acc * 10 + 9)
  end%N.

(** What a result of [find_arxiv_match] can be, for a title and the
    candidates of the search: no match, an exact match on a candidate of the
    normalized title, or a fuzzy match on a candidate with its similarity,
    above zero. *)
Definition sound_result (ratio : string -> string -> PyFloat.float) (title : string)
    (candidates : list (string * string)) (r : match_result) : Prop :=
  r = no_match
  \/ exists aid atitle,
      In (aid, atitle) candidates
      /\ ((r = (Some aid, Some atitle, true, PyFloat.one)
           /\ normalize_title atitle = normalize_title title)
          \/ (r = (Some aid, Some atitle, false, similarity ratio title atitle)
              /\ (0 < similarity ratio title atitle)%Q)).

(** What ingestion never changes of a stored paper. *)
Definition identity (p : Paper.t) : nat * nat * string * string :=
  (Paper.id p, Paper.venue_id p, Paper.openreview_forum p, Paper.openreview_note p).

(** A match row as the matching loop adds them for the papers [ps]: with an
    identifier, for one of the papers, stamped by the clock, with the score
    1.0 when exact and a score above zero when not. *)
Definition added_row (utcnow : nat -> datetime) (ps : list Paper.t) (m : ArxivMatch.t)
  : Prop :=
  ArxivMatch.arxiv_id m <> EmptyString
  /\ (exists p, In p ps /\ ArxivMatch.paper_id m = Paper.id p)
  /\ (exists k, ArxivMatch.matched_at m = utcnow k)
  /\ (ArxivMatch.exact m = true -> ArxivMatch.score m = PyFloat.one)
  /\ (ArxivMatch.exact m = false -> (0 < ArxivMatch.score m)%Q).

(** The papers of a venue. *)
Definition papers_of (venue_id : nat) (ps : list Paper.t) : list Paper.t :=
  filter (fun p => Nat.eqb (Paper.venue_id p) venue_id) ps.

(** A feed that fails at every query. *)
Definition feed_down (k : nat) (title : string) : option (list (string * string)) := None.

(** A world with one venue, one paper and a match of that paper. *)
Definition world_matched : World := mk_world (mk_store [venue_a] [paper_a] [match_a]) 2 [].

(** The paper is kept under the arXiv filter. *)
Definition kept (d : store) (arxiv_filter : string) (paper : Paper.t) : bool :=
  negb (arxiv_filter_skips arxiv_filter (sorted_desc (matches_of d paper))).

(** The row of the table for a paper and its venue: the fields of the
    paper, with the best match [arxiv_status] finds among its stored
    matches. *)
Definition row_of (format3 : PyFloat.float -> string)
    (round2 : Binary64.float -> Binary64.float) (d : store) (venue : Venue.t)
    (paper : Paper.t) : TableRow.t :=
  TableRow.mk (Venue.name venue ++ " " ++ year_text (Venue.year venue))
    (Paper.title paper) (Paper.authors paper) (or_empty (Paper.decision paper))
    (option_map round2 (Paper.avg_rating paper)) (Paper.num_reviews paper)
    (Paper.keywords paper)
    (fst (fst (arxiv_status format3 (matches_of d paper))))
    (snd (fst (arxiv_status format3 (matches_of d paper))))
    (snd (arxiv_status format3 (matches_of d paper))).

(** A list of matches in the order of the sort: no row is below the next. *)
Fixpoint descending (l : list ArxivMatch.t) : Prop :=
  match l with
  | x :: (y :: _) as rest => rank_lt x y = false /\ descending rest
  | _ => True
  end.

(** Renderings of floats for the examples. *)
Definition example_format (x : PyFloat.float) : string := "<score>".

(** A score that is the float [0.85] itself. *)
Definition match_at_threshold : ArxivMatch.t :=
  ArxivMatch.mk 3 1 "2401.00003" "Old title, too" false fuzzy_threshold (example_clock 3).

Definition match_fuzzy : ArxivMatch.t :=
  ArxivMatch.mk 2 1 "2401.00002" "Old titles" false (9 # 10)%Q (example_clock 2).

(** The denormalized fields of the paper are those of the summary. *)
Definition carries (summary : Summary.t) (p : Paper.t) : Prop :=
  Paper.title p = Summary.title summary
  /\ Paper.abstract p = Summary.abstract summary
  /\ Paper.authors p = Summary.authors summary
  /\ Paper.keywords p = PyStr.join ", " (Summary.keywords summary)
  /\ Paper.decision p = Summary.decision summary
  /\ Paper.avg_rating p = Summary.avg_rating summary
  /\ Paper.num_reviews p = Summary.num_reviews summary.

(** [last_refreshed] is a reading of the clock numbered from [lo] to below
    [hi]. *)
Definition stamped (utcnow : nat -> datetime) (lo hi : nat) (p : Paper.t) : Prop :=
  exists k, lo <= k < hi /\ Paper.last_refreshed p = utcnow k.

(** What an ingestion of [submissions] makes of the stored paper [p]: the
    same row when no summary has its forum; else the row updated in place
    from the summary of its forum, its id, venue, forum and note kept. *)
Definition upserted (utcnow : nat -> datetime) (submissions : list Summary.t)
    (lo hi : nat) (p p' : Paper.t) : Prop :=
  (~ In (Paper.openreview_forum p) (summary_forums submissions) /\ p' = p)
  \/ exists summary,
      In summary submissions
      /\ Summary.forum summary = Paper.openreview_forum p
      /\ identity p' = identity p
      /\ carries summary p'
      /\ stamped utcnow lo hi p'.

(** [p] is a paper inserted for the venue [venue_id] from a summary whose
    forum no row of [rows] has. *)
Definition inserted_for (utcnow : nat -> datetime) (venue_id : nat)
    (submissions : list Summary.t) (rows : list Paper.t) (lo hi : nat) (p : Paper.t)
  : Prop :=
  exists summary,
    In summary submissions
    /\ ~ In (Summary.forum summary) (forums rows)
    /\ Paper.venue_id p = venue_id
    /\ Paper.openreview_forum p = Summary.forum summary
    /\ Paper.openreview_note p = Summary.note summary
    /\ carries summary p
    /\ stamped utcnow lo hi p.

(** A call of [ingest_group]: the summaries fetched and the arguments. *)
Record call : Type := mk_call {
  call_submissions : list Summary.t;
  call_group : string;
  call_name : option string;
  call_year : option Z;
  call_arxiv : bool
}.

(** The world a sequence of calls leaves. *)
Definition ingest_all (utcnow : nat -> datetime) (ratio : string -> string -> PyFloat.float)
    (query_arxiv_by_title : nat -> string -> option (list (string * string)))
    (settings : Settings) (calls : list call) (w : World) : World :=
  fold_left (fun w c =>
               snd (ingest_group utcnow ratio query_arxiv_by_title settings
                      (call_submissions c) (call_group c) (call_name c) (call_year c)
                      (call_arxiv c) w))
    calls w.

(** The characters of a title that are alphanumeric or whitespace, each
    lowered. *)
Definition kept_lowered (s : string) : string :=
  string_of_list_ascii
    (map PyStr.lower_char
       (filter (fun ch => PyStr.isalnum ch || PyStr.isspace ch) (list_ascii_of_string s))).

(** A string with each run of whitespace replaced by one space and the
    runs at its two ends dropped.  [gap]: whitespace was read since the
    last character written; [first]: no character was written yet. *)
Fixpoint collapse (s : string) (gap first : bool) : string :=
  match s with
  | EmptyString => EmptyString
  | String c r =>
      if PyStr.isspace c then collapse r true first
      else if gap && negb first
           then String " " (String c (collapse r false false))
           else String c (collapse r false false)
  end.

(** A title lowered, without its characters that are neither alphanumeric
    nor whitespace, its runs of whitespace collapsed. *)
Definition normal_form (s : string) : string := collapse (kept_lowered s) false true.

(** A feed whose first candidate of the normal form of "Foo Bar" differs
    from it in case and in whitespace. *)
Definition feed_spaced (k : nat) (title : string) : option (list (string * string)) :=
  Some [("0000.0001", "Foo Baz"); ("2222.2222", "FOO   bar!"); ("1111.1111", "Foo Bar")].

(** The number of the clock reading of line 60: the readings taken before
    it are those the world counts, one for the venue when it is added and
    one for each summary. *)
Definition matching_reading (group_id : string) (submissions : list Summary.t) (w : World)
  : nat :=
  clock w
  + (if Nat.eqb (count_venues group_id (venues (db w))) 0 then 1 else 0)
  + List.length submissions.

(** A world whose one paper has a match of the given age at the reading of
    line 60 of an ingestion without summaries. *)
Definition match_aged (age : Z) : ArxivMatch.t :=
  ArxivMatch.mk 1 1 "2401.00001" "Old title" true PyFloat.one (example_clock 2 - age)%Z.

Definition world_aged (age : Z) : World :=
  mk_world (mk_store [venue_a] [paper_a] [match_aged age]) 2 [].

(* ================================================================== *)
(** * Properties *)

(* ------------------------------------------------------------------ *)
(** ** Pagination *)

Section Pagination.

Variable http_get : nat -> string -> nat -> response.
Variable invitation : string.

Lemma offsets_from_app (pages more : list (list json)) (offset : nat) :
  offsets_from offset (pages ++ more)
  = offsets_from offset pages
    ++ offsets_from (offset + List.length (List.concat pages)) more.
Proof.
  revert offset; induction pages as [|page pages IH]; intro offset; simpl.
  - now rewrite Nat.add_0_r.
  - rewrite IH, List.length_app. f_equal. f_equal. f_equal. lia.
Qed.

Lemma offsets_from_length (pages : list (list json)) (offset : nat) :
  List.length (offsets_from offset pages) = List.length pages.
Proof.
  revert offset; induction pages as [|page pages IH]; intro offset; simpl; auto.
Qed.

(** A response carrying a short page ends the loop. *)
Lemma fetch_loop_last (fuel offset : nat) (collected : list json) (requested : list nat)
    (data : json) (page : list json) :
  http_get (List.length requested) invitation offset = Body data ->
  page_of data = Some page ->
  List.length page < page_size ->
  fetch_loop http_get (S fuel) invitation offset collected requested
  = Some (Returned (collected ++ page) (requested ++ [offset])).
Proof.
  intros Hget Hpage Hshort. simpl. rewrite Hget.
  unfold page_of in Hpage.
  destruct (Py.as_dict data) as [d|]; [|discriminate].
  destruct (Py.truthy _) eqn:Ht; simpl.
  - rewrite Hpage.
    apply Nat.ltb_lt in Hshort. now rewrite Hshort.
  - injection Hpage as <-. now rewrite app_nil_r.
Qed.

(** A response carrying a full page is followed by the next request. *)
Lemma fetch_loop_full (fuel offset : nat) (collected : list json) (requested : list nat)
    (data : json) (page : list json) :
  http_get (List.length requested) invitation offset = Body data ->
  page_of data = Some page ->
  page_size <= List.length page ->
  fetch_loop http_get (S fuel) invitation offset collected requested
  = fetch_loop http_get fuel invitation (offset + List.length page)
      (collected ++ page) (requested ++ [offset]).
Proof.
  intros Hget Hpage Hfull. simpl. rewrite Hget.
  unfold page_of in Hpage.
  destruct (Py.as_dict data) as [d|]; [|discriminate].
  destruct (Py.truthy _) eqn:Ht; simpl.
  - rewrite Hpage.
    apply Nat.ltb_ge in Hfull. now rewrite Hfull.
  - injection Hpage as <-. unfold page_size in Hfull. simpl in Hfull. lia.
Qed.

Lemma fetch_loop_pages (full : list (list json)) :
  forall (last : list json) (fuel offset : nat) (collected : list json)
         (requested : list nat),
    Forall (fun page => page_size <= List.length page) full ->
    List.length last < page_size ->
    serves http_get invitation (List.length requested) offset (full ++ [last]) ->
    List.length full < fuel ->
    fetch_loop http_get fuel invitation offset collected requested
    = Some (Returned (collected ++ List.concat full ++ last)
              (requested ++ offsets_from offset (full ++ [last]))).
Proof.
  induction full as [|page full IH]; intros last fuel offset collected requested
    Hfull Hlast Hserves Hfuel.
  - destruct fuel as [|fuel]; [simpl in Hfuel; lia|].
    simpl in Hserves. destruct Hserves as [[data [Hget Hpage]] _].
    now rewrite (fetch_loop_last _ _ _ _ _ _ Hget Hpage Hlast).
  - destruct fuel as [|fuel]; [simpl in Hfuel; lia|].
    simpl in Hserves. destruct Hserves as [[data [Hget Hpage]] Hrest].
    inversion Hfull as [|? ? Hpage_full Hfull']; subst.
    rewrite (fetch_loop_full _ _ _ _ _ _ Hget Hpage Hpage_full).
    rewrite (IH last fuel); auto.
    + simpl. now rewrite <- !app_assoc.
    + now rewrite List.length_app, Nat.add_1_r.
    + simpl in Hfuel. lia.
Qed.

End Pagination.

(** C7.  [fetch_notes] asks for pages of 200 records from offset 0 and moves
    the offset on by the number of records of each page; when the source
    answers with full pages (200 records or more) followed by a page of
    fewer than 200 records (none included), the call ends with that page,
    after one request per page, and returns the pages concatenated.  So 200
    records followed by none take two requests, at offsets 0 and 200, and
    fewer than 200 records at once take one request. *)
Theorem fetch_notes_pagination :
  forall (http_get : nat -> string -> nat -> response) (invitation : string),
    (forall (full : list (list json)) (last : list json) (fuel : nat),
        Forall (fun page => page_size <= List.length page) full ->
        List.length last < page_size ->
        serves http_get invitation 0 0 (full ++ [last]) ->
        List.length full < fuel ->
        fetch_notes http_get fuel invitation
        = Some (Returned (List.concat full ++ last) (offsets_from 0 (full ++ [last])))
        /\ List.length (offsets_from 0 (full ++ [last])) = S (List.length full))
    /\ (forall (first : list json) (fuel : nat),
           List.length first = page_size ->
           serves http_get invitation 0 0 [first; []] ->
           2 <= fuel ->
           fetch_notes http_get fuel invitation = Some (Returned first [0; page_size]))
    /\ (forall (first : list json) (fuel : nat),
           List.length first < page_size ->
           serves http_get invitation 0 0 [first] ->
           1 <= fuel ->
           fetch_notes http_get fuel invitation = Some (Returned first [0])).
Proof.
  intros http_get invitation. split; [|split].
  - intros full last fuel Hfull Hlast Hserves Hfuel. split.
    + unfold fetch_notes.
      now rewrite (fetch_loop_pages http_get invitation full last fuel 0 [] []).
    + rewrite offsets_from_length, List.length_app. simpl. lia.
  - intros first fuel Hlen Hserves Hfuel. unfold fetch_notes.
    rewrite (fetch_loop_pages http_get invitation [first] [] fuel 0 [] []); simpl; auto.
    + now rewrite !app_nil_r, Hlen.
    + constructor; [lia|constructor].
    + unfold page_size. lia.
  - intros first fuel Hlen Hserves Hfuel. unfold fetch_notes.
    rewrite (fetch_loop_pages http_get invitation [] first fuel 0 [] []); simpl; auto.
Qed.

Lemma fetch_notes_pagination_witness :
  fetch_notes (paged_source 450) 3 "V/-/Submission"
  = Some (Returned (map record_no (seq 0 450)) [0; 200; 400]).
Proof.
  pose proof (proj1 (fetch_notes_pagination (paged_source 450) "V/-/Submission")
                [map record_no (seq 0 200); map record_no (seq 200 200)]
                (map record_no (seq 400 50)) 3) as H.
  destruct H as [H _].
  - repeat constructor; rewrite List.length_map, List.length_seq; unfold page_size; lia.
  - rewrite List.length_map, List.length_seq. unfold page_size. lia.
  - simpl. repeat split; eexists; split; reflexivity.
  - simpl. lia.
  - rewrite H. vm_compute. reflexivity.
Defined.

(* ------------------------------------------------------------------ *)
(** ** The matcher *)

Lemma append_empty_r (s : string) : (s ++ EmptyString)%string = s.
Proof. induction s; simpl; congruence. Qed.

Lemma append_cons_assoc (a : string) (c : ascii) (b : string) :
  ((a ++ String c EmptyString) ++ b)%string = (a ++ String c b)%string.
Proof. induction a; simpl; congruence. Qed.

Lemma is_empty_snoc (buf : string) (c : ascii) :
  PyStr.is_empty (buf ++ String c EmptyString) = false.
Proof. now destruct buf. Qed.

Lemma space_free_snoc (cur : string) (c : ascii) :
  space_free cur -> PyStr.isspace c = false ->
  space_free (cur ++ String c EmptyString).
Proof.
  unfold space_free. induction cur as [|a cur IH]; simpl; intros Hcur Hc.
  - constructor; auto.
  - inversion Hcur; subst. constructor; auto.
Qed.

(** [split] cuts a string into words. *)
Lemma split_ws_words (s : string) :
  forall cur, space_free cur -> Forall word (PyStr.split_ws s cur).
Proof.
  induction s as [|c r IH]; intros cur Hcur; simpl.
  - destruct cur; simpl; constructor; [|constructor].
    split; [discriminate | assumption].
  - destruct (PyStr.isspace c) eqn:Hc.
    + destruct cur; simpl.
      * apply IH. constructor.
      * constructor; [split; [discriminate | assumption]|].
        apply IH. constructor.
    + apply IH. now apply space_free_snoc.
Qed.

(** A normalized title is its words joined by single spaces, and its
    characters are the lowered alphanumeric and whitespace characters of
    the title. *)
Lemma normalize_title_words (s : string) :
  exists ws, normalize_title s = PyStr.join " " ws /\ Forall word ws.
Proof.
  exists (PyStr.split (keep_lower s)). split; [reflexivity|].
  apply split_ws_words. constructor.
Qed.

Lemma keep_lower_chars (s : string) :
  Forall (fun c => exists c0, In c0 (list_ascii_of_string s)
                              /\ (PyStr.isalnum c0 || PyStr.isspace c0) = true
                              /\ c = PyStr.lower_char c0)
    (list_ascii_of_string (keep_lower s)).
Proof.
  induction s as [|c r IH]; simpl; [constructor|].
  assert (Hrest : Forall (fun c' => exists c0, (c = c0 \/ In c0 (list_ascii_of_string r))
                                               /\ (PyStr.isalnum c0 || PyStr.isspace c0) = true
                                               /\ c' = PyStr.lower_char c0)
                    (list_ascii_of_string (keep_lower r))).
  { eapply Forall_impl; [|exact IH].
    intros c' (c0 & Hin & Hok & ->). exists c0. auto. }
  destruct (PyStr.isalnum c || PyStr.isspace c) eqn:Hc; auto.
  simpl. constructor; auto. exists c. auto.
Qed.

Lemma normalize_title_examples :
  normalize_title "Foo Bar" = "foo bar"
  /\ normalize_title "foo   bar" = "foo bar"
  /\ normalize_title "  Deep-Learning:  a  Survey! " = "deeplearning a survey".
Proof. repeat split; reflexivity. Qed.

Section MatcherFacts.

Variable ratio : string -> string -> PyFloat.float.
Variable query_arxiv_by_title : nat -> string -> option (list (string * string)).

Lemma gt_true (a b : PyFloat.float) : PyFloat.gt a b = true <-> (b < a)%Q.
Proof.
  unfold PyFloat.gt. rewrite negb_true_iff.
  split; intro H.
  - apply Qnot_le_lt. intro Hle. apply Qle_bool_iff in Hle. congruence.
  - destruct (Qle_bool a b) eqn:E; auto.
    apply Qle_bool_iff in E. exfalso. now apply (Qlt_not_le b a).
Qed.

Lemma gt_false (a b : PyFloat.float) : PyFloat.gt a b = false <-> (a <= b)%Q.
Proof.
  unfold PyFloat.gt. rewrite negb_false_iff. apply Qle_bool_iff.
Qed.

Lemma match_loop_exact (title : string) (pre : list (string * string)) :
  forall (aid atitle : string) (post : list (string * string)) (best : match_result),
    none_exact title pre ->
    normalize_title atitle = normalize_title title ->
    match_loop ratio title (normalize_title title) (pre ++ (aid, atitle) :: post) best
    = (Some aid, Some atitle, true, PyFloat.one).
Proof.
  induction pre as [|[aid0 atitle0] pre IH]; intros aid atitle post best Hpre Hexact; simpl.
  - rewrite Hexact, String.eqb_refl. reflexivity.
  - assert (Hne : normalize_title atitle0 <> normalize_title title)
      by (apply (Hpre (aid0, atitle0)); now left).
    apply String.eqb_neq in Hne. rewrite Hne.
    assert (Hpre' : none_exact title pre)
      by (intros c Hc; apply Hpre; now right).
    destruct (PyFloat.gt _ _); now apply IH.
Qed.

(** The scan keeps [best] over candidates that do not beat it. *)
Lemma match_loop_keeps (title : string) (candidates : list (string * string)) :
  forall best : match_result,
    none_exact title candidates ->
    (forall c, In c candidates -> (similarity ratio title (snd c) <= result_score best)%Q) ->
    match_loop ratio title (normalize_title title) candidates best = best.
Proof.
  induction candidates as [|[aid atitle] rest IH]; intros best Hnone Hle; simpl; auto.
  assert (Hne : normalize_title atitle <> normalize_title title)
    by (apply (Hnone (aid, atitle)); now left).
  apply String.eqb_neq in Hne. rewrite Hne.
  assert (Hs : PyFloat.gt (similarity ratio title atitle) (result_score best) = false)
    by (apply gt_false; apply (Hle (aid, atitle)); now left).
  rewrite Hs. apply IH.
  - intros c Hc; apply Hnone; now right.
  - intros c Hc; apply Hle; now right.
Qed.

(** The scan ends on the first candidate of greatest score when that score
    beats [best]. *)
Lemma match_loop_first_max (title : string) (pre : list (string * string)) :
  forall (c : string * string) (post : list (string * string)) (best : match_result),
    none_exact title (pre ++ c :: post) ->
    (result_score best < similarity ratio title (snd c))%Q ->
    (forall c', In c' pre -> (similarity ratio title (snd c') < similarity ratio title (snd c))%Q) ->
    (forall c', In c' post -> (similarity ratio title (snd c') <= similarity ratio title (snd c))%Q) ->
    match_loop ratio title (normalize_title title) (pre ++ c :: post) best
    = (Some (fst c), Some (snd c), false, similarity ratio title (snd c)).
Proof.
  induction pre as [|[aid0 atitle0] pre IH]; intros c post best Hnone Hbest Hpre Hpost.
  - destruct c as [aid atitle]. simpl in *.
    assert (Hne : normalize_title atitle <> normalize_title title)
      by (apply (Hnone (aid, atitle)); now left).
    apply String.eqb_neq in Hne. rewrite Hne.
    apply gt_true in Hbest. rewrite Hbest.
    apply match_loop_keeps.
    + intros c Hc; apply Hnone; now right.
    + intros c Hc. simpl. now apply Hpost.
  - simpl.
    assert (Hne : normalize_title atitle0 <> normalize_title title)
      by (apply (Hnone (aid0, atitle0)); now left).
    apply String.eqb_neq in Hne. rewrite Hne.
    assert (Hnone' : none_exact title (pre ++ c :: post))
      by (intros c' Hc'; apply Hnone; now right).
    assert (Hpre' : forall c', In c' pre ->
                          (similarity ratio title (snd c') < similarity ratio title (snd c))%Q)
      by (intros c' Hc'; apply Hpre; now right).
    destruct (PyFloat.gt _ _); apply IH; auto.
    simpl. apply (Hpre (aid0, atitle0)). now left.
Qed.

(** Every list either has no candidate of positive score or splits at the
    first candidate of greatest score. *)
Lemma first_max_exists (score : string * string -> Q) (candidates : list (string * string)) :
  (forall c, In c candidates -> (score c <= 0)%Q)
  \/ exists pre c post,
      candidates = pre ++ c :: post
      /\ (0 < score c)%Q
      /\ (forall c', In c' pre -> (score c' < score c)%Q)
      /\ (forall c', In c' post -> (score c' <= score c)%Q).
Proof.
  induction candidates as [|a rest IH].
  - left. intros c [].
  - destruct IH as [Hzero | (pre & c & post & -> & Hpos & Hpre & Hpost)].
    + destruct (Qlt_le_dec 0 (score a)) as [Ha | Ha].
      * right. exists [], a, rest. repeat split; auto.
        -- intros c' [].
        -- intros c' Hc'. apply Qle_trans with 0%Q; auto. now apply Qlt_le_weak.
      * left. intros c [<- | Hc]; auto.
    + right. destruct (Qlt_le_dec (score a) (score c)) as [Ha | Ha].
      * exists (a :: pre), c, post. repeat split; auto.
        intros c' [<- | Hc']; auto.
      * exists [], a, (pre ++ c :: post). repeat split; auto.
        -- now apply Qlt_le_trans with (score c).
        -- intros c' [].
        -- intros c' Hc'. apply in_app_or in Hc'.
           destruct Hc' as [Hc' | [<- | Hc']]; auto.
           ++ apply Qle_trans with (score c); auto. apply Qlt_le_weak; auto.
           ++ apply Qle_trans with (score c); auto.
Qed.

Lemma find_arxiv_match_loop (k : nat) (title : string) (candidates : list (string * string)) :
  query_arxiv_by_title k title = Some candidates ->
  find_arxiv_match ratio query_arxiv_by_title k title
  = Some (match_loop ratio title (normalize_title title) candidates no_match).
Proof.
  intro Hq. unfold find_arxiv_match. rewrite Hq. now destruct candidates.
Qed.

End MatcherFacts.

Lemma keep_lower_kept_lowered (s : string) : keep_lower s = kept_lowered s.
Proof.
  unfold kept_lowered. induction s as [|c r IH]; [reflexivity|].
  cbn [keep_lower list_ascii_of_string filter].
  destruct (PyStr.isalnum c || PyStr.isspace c); [|exact IH].
  cbn [map string_of_list_ascii]. now rewrite IH.
Qed.

Lemma collapse_first (s : string) : collapse s true true = collapse s false true.
Proof.
  induction s as [|c r IH]; [reflexivity|].
  cbn [collapse]. now destruct (PyStr.isspace c).
Qed.

Lemma split_ws_nonempty (s : string) :
  forall cur, PyStr.is_empty cur = false -> PyStr.split_ws s cur <> [].
Proof.
  induction s as [|c r IH]; intros cur Hcur; cbn [PyStr.split_ws].
  - rewrite Hcur. discriminate.
  - destruct (PyStr.isspace c).
    + rewrite Hcur. discriminate.
    + apply IH. now destruct cur.
Qed.

Lemma join_cons (w : string) (ws : list string) :
  PyStr.join " " (w :: ws)
  = match ws with
    | [] => w
    | _ :: _ => (w ++ " " ++ PyStr.join " " ws)%string
    end.
Proof. now destruct ws. Qed.

(** Splitting at whitespace and joining by single spaces collapses the runs
    of whitespace. *)
Lemma join_split_collapse (s : string) :
  (forall cur,
      PyStr.join " " (PyStr.split_ws s cur)
      = if PyStr.is_empty cur then collapse s false true
        else (cur ++ collapse s false false)%string)
  /\ collapse s true false
     = match PyStr.split_ws s EmptyString with
       | [] => EmptyString
       | w :: ws => (" " ++ PyStr.join " " (w :: ws))%string
       end.
Proof.
  induction s as [|c r [IHA IHB]].
  - split; [|reflexivity].
    intro cur. cbn [PyStr.split_ws collapse].
    destruct cur; [reflexivity|]. cbn [PyStr.is_empty PyStr.join].
    now rewrite append_empty_r.
  - split.
    + intro cur. cbn [PyStr.split_ws collapse].
      destruct (PyStr.isspace c) eqn:Hc.
      * destruct (PyStr.is_empty cur) eqn:Hcur.
        -- rewrite (IHA EmptyString). cbn [PyStr.is_empty].
           now rewrite collapse_first.
        -- rewrite join_cons, IHB.
           destruct (PyStr.split_ws r EmptyString) as [|w ws].
           ++ now rewrite append_empty_r.
           ++ reflexivity.
      * rewrite (IHA (cur ++ String c EmptyString)%string), is_empty_snoc.
        rewrite append_cons_assoc.
        destruct cur; cbn [PyStr.is_empty andb negb]; reflexivity.
    + cbn [PyStr.split_ws collapse PyStr.is_empty].
      destruct (PyStr.isspace c) eqn:Hc; [exact IHB|].
      cbn [andb negb].
      pose proof (split_ws_nonempty r (String c EmptyString) eq_refl) as Hne.
      pose proof (IHA (String c EmptyString)) as Hj. cbn [PyStr.is_empty] in Hj.
      change (EmptyString ++ String c EmptyString)%string with (String c EmptyString).
      destruct (PyStr.split_ws r (String c EmptyString)) as [|w ws]; [now destruct Hne|].
      rewrite Hj. reflexivity.
Qed.

Lemma normalize_title_normal_form (s : string) : normalize_title s = normal_form s.
Proof.
  unfold normalize_title, normal_form, PyStr.split.
  rewrite (proj1 (join_split_collapse (keep_lower s)) EmptyString).
  cbn [PyStr.is_empty]. now rewrite keep_lower_kept_lowered.
Qed.

(** C5.  The normalized title of a title whose characters have code points
    below U+0100 is its normal form: the title lowered, without its
    characters that are neither alphanumeric nor whitespace, each run of
    whitespace collapsed to one space and the runs at the two ends dropped.
    When the search returns candidates of which one has the normal form of
    the query, [find_arxiv_match] returns the first such candidate, with
    the title the search gave for it, [exact = true] and [score = 1.0],
    whatever follows it in the list. *)
Theorem find_arxiv_match_first_exact :
  forall (ratio : string -> string -> PyFloat.float)
         (query_arxiv_by_title : nat -> string -> option (list (string * string))),
    (forall s, normalize_title s = normal_form s)
    /\ forall (k : nat) (title aid atitle : string) (pre post : list (string * string)),
        query_arxiv_by_title k title = Some (pre ++ (aid, atitle) :: post) ->
        (forall c, In c pre -> normal_form (snd c) <> normal_form title) ->
        normal_form atitle = normal_form title ->
        find_arxiv_match ratio query_arxiv_by_title k title
        = Some (Some aid, Some atitle, true, PyFloat.one).
Proof.
  intros ratio query. split; [exact normalize_title_normal_form|].
  intros k title aid atitle pre post Hq Hpre Hexact.
  rewrite (find_arxiv_match_loop _ _ _ _ _ Hq).
  rewrite match_loop_exact; [reflexivity | |].
  - intros c Hc. rewrite !normalize_title_normal_form. now apply Hpre.
  - now rewrite !normalize_title_normal_form.
Qed.

(** C6.  When no candidate has the normalized title of the query,
    [find_arxiv_match] returns no match if the list is empty or no candidate
    scores above zero, and otherwise the candidate of greatest similarity,
    the earliest one among equals, with [exact = false] and its score; one of
    the two cases always applies. *)
Theorem find_arxiv_match_best :
  forall (ratio : string -> string -> PyFloat.float)
         (query_arxiv_by_title : nat -> string -> option (list (string * string)))
         (k : nat) (title : string) (candidates : list (string * string)),
    query_arxiv_by_title k title = Some candidates ->
    none_exact title candidates ->
    let score c := similarity ratio title (snd c) in
    let found := find_arxiv_match ratio query_arxiv_by_title k title in
    (candidates = [] -> found = Some no_match)
    /\ ((forall c, In c candidates -> (score c <= 0)%Q) -> found = Some no_match)
    /\ (forall pre c post,
           candidates = pre ++ c :: post ->
           (0 < score c)%Q ->
           (forall c', In c' pre -> (score c' < score c)%Q) ->
           (forall c', In c' post -> (score c' <= score c)%Q) ->
           found = Some (Some (fst c), Some (snd c), false, score c))
    /\ ((forall c, In c candidates -> (score c <= 0)%Q)
        \/ exists pre c post,
            candidates = pre ++ c :: post
            /\ (0 < score c)%Q
            /\ (forall c', In c' pre -> (score c' < score c)%Q)
            /\ (forall c', In c' post -> (score c' <= score c)%Q)).
Proof.
  intros ratio query k title candidates Hq Hnone score found.
  subst found. rewrite (find_arxiv_match_loop _ _ _ _ _ Hq).
  split; [|split; [|split]].
  - now intros ->.
  - intro Hzero. now rewrite match_loop_keeps.
  - intros pre c post -> Hpos Hpre Hpost. now rewrite match_loop_first_max.
  - apply first_max_exists.
Qed.

Lemma find_arxiv_match_first_exact_witness :
  normal_form "FOO   bar!" = "foo bar"
  /\ normal_form "Foo Bar" = "foo bar"
  /\ find_arxiv_match prefix_ratio feed_spaced 0 "Foo Bar"
     = Some (Some "2222.2222", Some "FOO   bar!", true, PyFloat.one).
Proof.
  split; [reflexivity|]. split; [reflexivity|].
  apply (proj2 (find_arxiv_match_first_exact prefix_ratio feed_spaced) 0 "Foo Bar"
           "2222.2222" "FOO   bar!" [("0000.0001", "Foo Baz")] [("1111.1111", "Foo Bar")]).
  - reflexivity.
  - intros c [<- | []]. vm_compute. discriminate.
  - reflexivity.
Defined.

Lemma find_arxiv_match_best_witness :
  find_arxiv_match prefix_ratio feed_fuzzy 0 "Foo Bar"
  = Some (Some "0000.0001", Some "Foo Baz", false, (6 # 7)%Q).
Proof.
  assert (Hnone : none_exact "Foo Bar"
                    [("0000.0001", "Foo Baz"); ("0000.0002", "Foo Bat"); ("0000.0003", "Zed")])
    by (intros c [<- | [<- | [<- | []]]]; vm_compute; discriminate).
  pose proof (find_arxiv_match_best prefix_ratio feed_fuzzy 0 "Foo Bar" _ eq_refl Hnone) as H.
  cbv zeta in H. destruct H as (_ & _ & H & _).
  apply (H [] ("0000.0001", "Foo Baz") [("0000.0002", "Foo Bat"); ("0000.0003", "Zed")]).
  - reflexivity.
  - reflexivity.
  - intros c' [].
  - intros c' [<- | [<- | []]]; vm_compute; discriminate.
Defined.

(* ------------------------------------------------------------------ *)
(** ** The match cache *)

Lemma latest_from_spec (pid : nat) (rows : list ArxivMatch.t) :
  forall best : option ArxivMatch.t,
    (forall b, best = Some b -> ArxivMatch.paper_id b = pid) ->
    match latest_from pid rows best with
    | None => best = None /\ forall m, In m rows -> ArxivMatch.paper_id m <> pid
    | Some r =>
        (best = Some r \/ In r rows)
        /\ ArxivMatch.paper_id r = pid
        /\ (forall m, In m rows -> ArxivMatch.paper_id m = pid ->
                      (ArxivMatch.matched_at m <= ArxivMatch.matched_at r)%Z)
        /\ (forall b, best = Some b ->
                      (ArxivMatch.matched_at b <= ArxivMatch.matched_at r)%Z)
    end.
Proof.
  induction rows as [|m rows IH]; intros best Hbest; simpl.
  - destruct best as [b|]; [|split; [reflexivity | intros m []]].
    repeat split; auto.
    + intros m [].
    + intros b' [= <-]. lia.
  - destruct (Nat.eqb (ArxivMatch.paper_id m) pid) eqn:Hpid.
    + apply Nat.eqb_eq in Hpid.
      destruct best as [b|].
      * destruct (Z.ltb (ArxivMatch.matched_at b) (ArxivMatch.matched_at m)) eqn:Hlt.
        -- apply Z.ltb_lt in Hlt.
           specialize (IH (Some m)).
           destruct (latest_from pid rows (Some m)) as [r|].
           ++ destruct IH as (Hin & Hr & Hmax & Hb); [now intros ? [= <-]|].
              specialize (Hb m eq_refl).
              repeat split; auto.
              ** destruct Hin as [[= ->] | Hin]; right; [now left | now right].
              ** intros m' [<- | Hm'] Hp; auto.
              ** intros b' [= <-]. lia.
           ++ destruct IH as [IH _]; [now intros ? [= <-]|]. discriminate.
        -- apply Z.ltb_ge in Hlt.
           specialize (IH (Some b) Hbest).
           destruct (latest_from pid rows (Some b)) as [r|].
           ++ destruct IH as (Hin & Hr & Hmax & Hb).
              specialize (Hb b eq_refl).
              repeat split; auto.
              ** destruct Hin as [Hin | Hin]; [now left | right; now right].
              ** intros m' [<- | Hm'] Hp; auto. lia.
              ** intros b' [= <-]. lia.
           ++ destruct IH as [IH _]. discriminate.
      * specialize (IH (Some m)).
        destruct (latest_from pid rows (Some m)) as [r|].
        -- destruct IH as (Hin & Hr & Hmax & Hb); [now intros ? [= <-]|].
           specialize (Hb m eq_refl).
           repeat split; auto.
           ++ destruct Hin as [[= ->] | Hin]; right; [now left | now right].
           ++ intros m' [<- | Hm'] Hp; auto.
           ++ intros b' [=].
        -- destruct IH as [IH _]; [now intros ? [= <-]|]. discriminate.
    + apply Nat.eqb_neq in Hpid.
      specialize (IH best Hbest).
      destruct (latest_from pid rows best) as [r|].
      * destruct IH as (Hin & Hr & Hmax & Hb).
        repeat split; auto.
        -- destruct Hin as [Hin | Hin]; [now left | right; now right].
        -- intros m' [<- | Hm'] Hp; auto. contradiction.
      * destruct IH as [Hnone Hrows]. split; auto.
        intros m' [<- | Hm']; auto.
Qed.

(** The row the query of line 63 returns has the greatest [matched_at] of
    the paper's rows. *)
Lemma latest_match_most_recent (pid : nat) (rows : list ArxivMatch.t) (m : ArxivMatch.t) :
  most_recent pid rows m ->
  exists r, latest_match pid rows = Some r
            /\ ArxivMatch.matched_at r = ArxivMatch.matched_at m.
Proof.
  intros (Hin & Hpid & Hmax).
  pose proof (latest_from_spec pid rows None) as H.
  unfold latest_match.
  destruct (latest_from pid rows None) as [r|].
  - destruct H as (Hr & Hrp & Hrmax & _); [discriminate|].
    exists r. split; auto.
    destruct Hr as [Hr | Hr]; [discriminate|].
    specialize (Hmax r Hr Hrp). specialize (Hrmax m Hin Hpid). lia.
  - destruct H as [_ H]; [discriminate|]. now destruct (H m Hin).
Qed.

Lemma latest_match_none (pid : nat) (rows : list ArxivMatch.t) :
  (forall m, In m rows -> ArxivMatch.paper_id m <> pid) ->
  latest_match pid rows = None.
Proof.
  intro Hnone.
  pose proof (latest_from_spec pid rows None) as H.
  unfold latest_match.
  destruct (latest_from pid rows None) as [r|]; auto.
  destruct H as (Hr & Hrp & _); [discriminate|].
  destruct Hr as [Hr | Hr]; [discriminate|]. now destruct (Hnone r Hr).
Qed.

Section CacheFacts.

Variable utcnow : nat -> datetime.
Variable ratio : string -> string -> PyFloat.float.
Variable query_arxiv_by_title : nat -> string -> option (list (string * string)).

Lemma match_paper_fresh (deadline : datetime) (stored : list ArxivMatch.t)
    (p : Paper.t) (st : matching) :
  stale deadline stored p = false ->
  match_paper utcnow ratio query_arxiv_by_title deadline stored p st = inl st.
Proof.
  unfold stale, match_paper. intro H. apply negb_false_iff in H.
  destruct st as [[new clock] sent]. now rewrite H.
Qed.

Lemma match_paper_stale (deadline : datetime) (stored : list ArxivMatch.t)
    (p : Paper.t) (new : pending ArxivMatch.t) (clock : nat) (sent : list string) :
  stale deadline stored p = true ->
  match_paper utcnow ratio query_arxiv_by_title deadline stored p (new, clock, sent)
  = match find_arxiv_match ratio query_arxiv_by_title (List.length sent) (Paper.title p) with
    | None => inr (clock, sent ++ [Paper.title p])
    | Some (aid, atitle, exact, score) =>
        match nonempty aid with
        | Some a =>
            inl (new ++ [ArxivMatch.mk 0 (Paper.id p) a
                           (match nonempty atitle with
                            | Some t => t
                            | None => Paper.title p
                            end) exact score (utcnow clock)],
                 S clock, sent ++ [Paper.title p])
        | None => inl (new, clock, sent ++ [Paper.title p])
        end
    end.
Proof.
  unfold stale, match_paper. intro H. apply negb_true_iff in H. now rewrite H.
Qed.

Lemma match_paper_stale_sent (deadline : datetime) (stored : list ArxivMatch.t)
    (p : Paper.t) (new : pending ArxivMatch.t) (clock : nat) (sent : list string) :
  stale deadline stored p = true ->
  sent_of (match_paper utcnow ratio query_arxiv_by_title deadline stored p
             (new, clock, sent))
  = sent ++ [Paper.title p].
Proof.
  intro H. rewrite (match_paper_stale _ _ _ _ _ _ H).
  destruct (find_arxiv_match _ _ _ _) as [[[[aid atitle] exact] score]|]; auto.
  now destruct (nonempty aid).
Qed.

(** The loop queries arXiv for the stale papers, in order, and for no
    other. *)
Lemma match_papers_sent (deadline : datetime) (stored : list ArxivMatch.t)
    (ps : list Paper.t) :
  forall (st : matching) (new' : pending ArxivMatch.t) (clock' : nat)
         (sent' : list string),
    match_papers utcnow ratio query_arxiv_by_title deadline stored ps st
    = inl (new', clock', sent') ->
    sent' = snd st ++ map Paper.title (filter (stale deadline stored) ps).
Proof.
  induction ps as [|p ps IH]; intros st new' clock' sent' Hrun; simpl in *.
  - injection Hrun as ->. simpl. now rewrite app_nil_r.
  - destruct (stale deadline stored p) eqn:Hstale.
    + destruct st as [[new clock] sent].
      pose proof (match_paper_stale_sent deadline stored p new clock sent Hstale) as Hsent.
      destruct (match_paper _ _ _ _ _ _ _) as [[[new1 clock1] sent1]|]; [|discriminate].
      simpl in Hsent. subst sent1.
      rewrite (IH _ _ _ _ Hrun). simpl. now rewrite <- app_assoc.
    + rewrite (match_paper_fresh _ _ _ _ Hstale) in Hrun. now apply IH in Hrun.
Qed.


End CacheFacts.

Lemma default_ttl : seconds (arxiv_ttl default_settings) = days 14.
Proof. reflexivity. Qed.


(* ------------------------------------------------------------------ *)
(** ** The normalizer *)

Section NormalizerFacts.

Variable repr : json -> string.
Variable float_sum : list Binary64.float -> Binary64.float.

Lemma any_decision_key_keys (rcontent : list (string * json)) :
  any_decision_key rcontent = existsb decision_key (map fst rcontent).
Proof.
  unfold any_decision_key. induction rcontent as [|kv rest IH]; simpl; auto.
  now rewrite IH.
Qed.

(** The value line 102 reads is the first truthy one of the three, or a
    falsy one when none is truthy; lines 103-104 unwrap it. *)
Lemma decision_value_read (rcontent : list (string * json)) :
  match value_read rcontent with
  | Some v => Py.truthy v = true /\ decision_value rcontent = unwrapped v
  | None => Py.truthy (decision_value rcontent) = false
  end.
Proof.
  unfold value_read, decision_value, Py.or_.
  destruct (Py.truthy (Py.get rcontent "decision")) eqn:Ha; [now split|].
  destruct (Py.truthy (Py.get rcontent "Decision")) eqn:Hb; [now split|].
  destruct (Py.truthy (Py.get rcontent "recommendation")) eqn:Hc; [now split|].
  destruct (Py.get rcontent "recommendation") as [| | | | | |m]; auto.
  destruct m; [reflexivity | discriminate].
Qed.

Lemma reply_step_spec (reply : json) (ratings : list Binary64.float)
    (decision : option string) (ratings' : list Binary64.float)
    (decision' : option string) :
  reply_step repr reply ratings decision = Some (ratings', decision') ->
  ratings' = collect_ratings repr (reply_content reply) ratings
  /\ decision' = match contribution repr reply with
                 | Some x => Some x
                 | None => decision
                 end.
Proof.
  unfold reply_step, contribution, deciding, decision_invitation, reply_content.
  destruct (Py.as_dict reply) as [r|]; [|discriminate].
  destruct (Py.as_dict (Py.or_ _ _)) as [rcontent|]; [|discriminate].
  destruct (Py.str_in _ _) as [b|]; [|discriminate].
  intros [= <- <-]. split; auto.
  rewrite any_decision_key_keys.
  destruct (b || existsb decision_key (map fst rcontent)); simpl; auto.
  pose proof (decision_value_read rcontent) as Hread.
  destruct (value_read rcontent) as [v|].
  - destruct Hread as [_ ->]. now destruct (Py.truthy (unwrapped v)).
  - now rewrite Hread.
Qed.

Lemma collect_ratings_samples (rcontent : list (string * json)) :
  forall ratings,
    collect_ratings repr rcontent ratings = ratings ++ rating_samples repr rcontent.
Proof.
  induction rcontent as [|[key val] rest IH]; intro ratings; simpl.
  - now rewrite app_nil_r.
  - destruct (PyStr.contains "rating" (PyStr.lower key)); auto.
    destruct (parse_rating repr val); auto.
    rewrite IH. now rewrite <- app_assoc.
Qed.

Lemma replies_loop_spec (direct : list json) :
  forall ratings decision ratings' decision',
    replies_loop repr direct ratings decision = Some (ratings', decision') ->
    ratings' = ratings ++ flat_map (fun reply => rating_samples repr (reply_content reply)) direct
    /\ decision' = last_contribution repr direct decision.
Proof.
  induction direct as [|reply rest IH]; intros ratings decision ratings' decision' Hrun;
    simpl in Hrun.
  - injection Hrun as <- <-. simpl. now rewrite app_nil_r.
  - destruct (reply_step repr reply ratings decision) as [[r1 d1]|] eqn:Hstep;
      [|discriminate].
    apply reply_step_spec in Hstep. destruct Hstep as [-> ->].
    apply IH in Hrun. destruct Hrun as [-> ->].
    split; auto.
    simpl. now rewrite collect_ratings_samples, <- app_assoc.
Qed.

(** What [summarize] returns, field by field, when it returns. *)
Lemma summarize_fields (note : json) (s : SubmissionSummary.t) :
  summarize repr float_sum note = Some s ->
  exists n direct,
    note = JDict n
    /\ direct_replies note = Some direct
    /\ SubmissionSummary.forum s = Py.or_ (Py.get n "forum") (Py.get n "id")
    /\ SubmissionSummary.note s = Py.get n "id"
    /\ SubmissionSummary.decision s = last_contribution repr direct None
    /\ SubmissionSummary.avg_rating s
       = average float_sum
           (flat_map (fun reply => rating_samples repr (reply_content reply)) direct)
    /\ SubmissionSummary.num_reviews s
       = List.length
           (flat_map (fun reply => rating_samples repr (reply_content reply)) direct).
Proof.
  unfold summarize, direct_replies.
  destruct note as [| | | | |l|n]; try discriminate. simpl.
  destruct (Py.as_dict (Py.or_ (Py.get_default n "content" _) _)) as [content|];
    [|discriminate].
  destruct (Py.as_dict (Py.get_default n "details" _)) as [details|]; [|discriminate].
  destruct (Py.iter _) as [direct|]; [|discriminate].
  destruct (replies_loop repr direct [] None) as [[ratings decision]|] eqn:Hloop;
    [|discriminate].
  apply replies_loop_spec in Hloop. destruct Hloop as [-> ->].
  intros [= <-]. exists n, direct. simpl. repeat split; auto.
Qed.

Lemma contains_point_cons (c : ascii) (r : string) :
  PyStr.contains "." (String c r) = Ascii.eqb c "."%char || PyStr.contains "." r.
Proof.
  change (PyStr.contains "." (String c r))
    with ((if ascii_dec "."%char c then String.prefix EmptyString r else false)
          || PyStr.contains "." r).
  destruct (ascii_dec "."%char c) as [<- | Hne].
  - now destruct r.
  - assert (Hc : Ascii.eqb c "."%char = false) by (apply Ascii.eqb_neq; congruence).
    now rewrite Hc.
Qed.

Lemma contains_point_snoc (buf : string) (c : ascii) :
  PyStr.contains "." (buf ++ String c EmptyString)
  = PyStr.contains "." buf || Ascii.eqb c "."%char.
Proof.
  induction buf as [|b buf IH].
  - change (EmptyString ++ String c EmptyString)%string with (String c EmptyString).
    rewrite contains_point_cons. simpl. now rewrite orb_false_r.
  - change (String b buf ++ String c EmptyString)%string
      with (String b (buf ++ String c EmptyString)).
    rewrite !contains_point_cons, IH. now rewrite orb_assoc.
Qed.

Lemma digit_not_point (c : ascii) :
  PyStr.isdigit c = true -> Ascii.eqb c "."%char = false.
Proof.
  intro Hd. destruct (Ascii.eqb c "."%char) eqn:E; auto.
  apply Ascii.eqb_eq in E. subst c. discriminate.
Qed.

(** The loop of [parse_rating] past its first character: the buffer grows
    by the longest run that extends it. *)
Lemma scan_rating_started (s : string) :
  forall buf,
    PyStr.is_empty buf = false ->
    scan_rating s buf = (buf ++ take_token s (PyStr.contains "." buf))%string.
Proof.
  induction s as [|c r IH]; intros buf Hbuf; simpl.
  - now rewrite append_empty_r.
  - destruct (PyStr.isdigit c) eqn:Hd; simpl.
    + rewrite IH by apply is_empty_snoc.
      rewrite contains_point_snoc, (digit_not_point _ Hd), orb_false_r.
      now rewrite append_cons_assoc.
    + destruct (Ascii.eqb c "."%char && negb (PyStr.contains "." buf)) eqn:Hp.
      * rewrite IH by apply is_empty_snoc.
        rewrite contains_point_snoc.
        apply andb_true_iff in Hp. destruct Hp as [Hc _]. rewrite Hc, orb_true_r.
        now rewrite append_cons_assoc.
      * rewrite Hbuf. simpl. now rewrite append_empty_r.
Qed.

(** The loop of [parse_rating] returns the first run of digits and of one
    point at most. *)
Lemma scan_rating_token (s : string) : scan_rating s EmptyString = rating_token s.
Proof.
  unfold rating_token. induction s as [|c r IH]; simpl; auto.
  destruct (PyStr.isdigit c) eqn:Hd; simpl.
  - rewrite Hd. rewrite scan_rating_started by reflexivity.
    rewrite contains_point_cons, (digit_not_point _ Hd). reflexivity.
  - destruct (Ascii.eqb c "."%char) eqn:Hc; simpl.
    + rewrite Hd, Hc. simpl. rewrite scan_rating_started by reflexivity.
      rewrite contains_point_cons, Hc. reflexivity.
    + apply IH.
Qed.

End NormalizerFacts.

Lemma last_contribution_snoc (repr : json -> string) (direct : list json) (reply : json)
    (decision : option string) :
  last_contribution repr (direct ++ [reply]) decision
  = match contribution repr reply with
    | Some x => Some x
    | None => last_contribution repr direct decision
    end.
Proof.
  unfold last_contribution. now rewrite fold_left_app.
Qed.

Lemma extract_keywords_example (repr : json -> string) :
  extract_keywords repr [("keywords", JStr "LLM, Safety; RLHF")] = ["LLM"; "Safety"; "RLHF"].
Proof. reflexivity. Qed.

(** C8, as the code has it.  Take the direct replies none of whose content
    keys is ["decision"] in another case than ["decision"] and
    ["Decision"].  Such a reply contributes a decision exactly when its
    invitation contains ["Decision"] or a key of its content equals
    ["decision"] whatever the case, and the value read is truthy: the first
    truthy one of the values under ["decision"], ["Decision"] and
    ["recommendation"], in that order, taken out of a [{value: ...}] wrapper
    when it is a dict that has the key.  The contribution is the string form
    of that value, and the decision of the summary is the contribution of
    the last reply that makes one, absent when none does. *)
Theorem decision_of_replies :
  forall (repr : json -> string) (float_sum : list Binary64.float -> Binary64.float),
    (forall note s,
        summarize repr float_sum note = Some s ->
        exists direct,
          direct_replies note = Some direct
          /\ (Forall plain_keys direct ->
              SubmissionSummary.decision s = last_contribution repr direct None))
    /\ (forall reply ratings decision ratings' decision',
           plain_keys reply ->
           reply_step repr reply ratings decision = Some (ratings', decision') ->
           decision' = match contribution repr reply with
                       | Some x => Some x
                       | None => decision
                       end)
    /\ (forall direct reply decision,
           last_contribution repr (direct ++ [reply]) decision
           = match contribution repr reply with
             | Some x => Some x
             | None => last_contribution repr direct decision
             end).
Proof.
  intros repr float_sum. split; [|split].
  - intros note s Hs.
    destruct (summarize_fields repr float_sum note s Hs)
      as (n & direct & _ & Hd & _ & _ & Hdec & _).
    exists direct. auto.
  - intros reply ratings decision ratings' decision' _ Hstep.
    now destruct (reply_step_spec repr _ _ _ _ _ Hstep).
  - apply last_contribution_snoc.
Qed.

Lemma decision_of_replies_witness :
  exists direct,
    direct_replies (note_with_reply "V/-/Decision"
                      [("Decision", JDict [("value", JStr "Accept (poster)")]);
                       ("recommendation", JStr "Reject")])
    = Some direct
    /\ last_contribution example_repr direct None = Some "Accept (poster)".
Proof.
  destruct (proj1 (decision_of_replies example_repr plain_sum)
              (note_with_reply "V/-/Decision"
                 [("Decision", JDict [("value", JStr "Accept (poster)")]);
                  ("recommendation", JStr "Reject")])
              (SubmissionSummary.mk (JStr "n1") (JStr "n1") (JStr "A Title") JNull
                 EmptyString [] (Some "Accept (poster)") None 0)
              eq_refl) as (direct & Hd & Hdec).
  exists direct. split; [exact Hd|].
  rewrite <- Hdec; [reflexivity|].
  injection Hd as <-. constructor; [|constructor].
  intros k [<- | [<- | []]] Hk; [now right | discriminate].
Defined.

(** C8 as stated fails: a reply of a decision invitation that carries no
    decision value, and a reply whose ["decision"] is empty, both meet the
    condition and leave the summary without a decision. *)
Lemma decision_condition_counterexample :
  deciding (reply_of "V/-/Decision" [("comment", JStr "Thanks")]) = true
  /\ option_map SubmissionSummary.decision
       (summarize example_repr plain_sum
          (note_with_reply "V/-/Decision" [("comment", JStr "Thanks")]))
     = Some None
  /\ deciding (reply_of "V/-/Official_Comment" [("decision", JStr "")]) = true
  /\ option_map SubmissionSummary.decision
       (summarize example_repr plain_sum
          (note_with_reply "V/-/Official_Comment" [("decision", JStr "")]))
     = Some None.
Proof. repeat split; reflexivity. Qed.

(** C9, as the code has it.  The samples of a summary are, reply by reply
    and key by key, the values under the keys that contain ["rating"]
    whatever the case, parsed, those that do not parse left out; the review
    count is their number and the average rating, absent when there is
    none, the float quotient of their built-in sum by their number.  A
    string, and likewise the string form of a list or a dict, parses as its
    first run of digits with one point at most, which starts at the first
    digit or point and ends before the first character that cannot extend
    it, converted as [float] does.  A number is converted by [float]
    without any scan, an integer beyond the range of the floats giving no
    sample, and null gives none.  The keys ["Rating": "7: Good"] and
    ["Soundness_Rating": "3"] give the samples 7.0 and 3.0, the count 2 and,
    their sum being 10.0, the average 5.0. *)
Theorem rating_samples_of_replies :
  forall (repr : json -> string) (float_sum : list Binary64.float -> Binary64.float),
    (forall note s,
        summarize repr float_sum note = Some s ->
        exists direct,
          direct_replies note = Some direct
          /\ SubmissionSummary.num_reviews s = List.length (samples_of repr direct)
          /\ SubmissionSummary.avg_rating s
             = match samples_of repr direct with
               | [] => None
               | samples =>
                   Some (Binary64.div (float_sum samples)
                           (Binary64.of_nat (List.length samples)))
               end)
    /\ (forall v,
           is_number v = false -> v <> JNull ->
           parse_rating repr v = Binary64.of_token (rating_token (str repr v)))
    /\ (forall z,
           parse_rating repr (JInt z)
           = if Binary64.is_finite (Binary64.of_ratio z 1)
             then Some (Binary64.of_ratio z 1) else None)
    /\ (forall q, parse_rating repr (JFloat q) = Some (Binary64.of_Q q))
    /\ (forall b, parse_rating repr (JBool b) = Some (whole (if b then 1 else 0)))
    /\ parse_rating repr JNull = None
    /\ rating_samples repr [("Rating", JStr "7: Good"); ("Soundness_Rating", JStr "3")]
       = [whole 7; whole 3]
    /\ (float_sum [whole 7; whole 3] = whole 10 ->
        option_map (fun s => (SubmissionSummary.avg_rating s, SubmissionSummary.num_reviews s))
          (summarize repr float_sum
             (note_with_reply "V/-/Official_Review"
                [("Rating", JStr "7: Good"); ("Soundness_Rating", JStr "3")]))
        = Some (Some (whole 5), 2))
    /\ plain_sum [whole 7; whole 3] = whole 10.
Proof.
  intros repr float_sum.
  refine (conj _ (conj _ (conj _ (conj _ (conj _ (conj _ (conj _ (conj _ _)))))))).
  - intros note s Hs.
    destruct (summarize_fields repr float_sum note s Hs)
      as (n & direct & _ & Hd & _ & _ & _ & Havg & Hnum).
    exists direct. split; [exact Hd|]. split; [exact Hnum|].
    rewrite Havg. unfold samples_of.
    now destruct (flat_map _ direct).
  - intros v Hn Hv. unfold parse_rating.
    destruct v; try discriminate; try contradiction;
      rewrite scan_rating_token; now destruct (rating_token _).
  - reflexivity.
  - reflexivity.
  - now intros [].
  - reflexivity.
  - reflexivity.
  - intro Hsum.
    change (summarize repr float_sum
              (note_with_reply "V/-/Official_Review"
                 [("Rating", JStr "7: Good"); ("Soundness_Rating", JStr "3")]))
      with (Some (SubmissionSummary.mk (JStr "n1") (JStr "n1") (JStr "A Title") JNull
                    EmptyString [] None
                    (Some (Binary64.div (float_sum [whole 7; whole 3]) (Binary64.of_nat 2)))
                    2)).
    cbn [option_map SubmissionSummary.avg_rating SubmissionSummary.num_reviews].
    rewrite Hsum. reflexivity.
  - reflexivity.
Qed.

Lemma rating_samples_of_replies_witness :
  exists direct,
    direct_replies (note_with_reply "V/-/Official_Review"
                      [("rating", JStr "6: marginally above"); ("confidence", JInt 4)])
    = Some direct
    /\ 1 = List.length (samples_of example_repr direct).
Proof.
  destruct (proj1 (rating_samples_of_replies example_repr plain_sum)
              (note_with_reply "V/-/Official_Review"
                 [("rating", JStr "6: marginally above"); ("confidence", JInt 4)])
              (SubmissionSummary.mk (JStr "n1") (JStr "n1") (JStr "A Title") JNull
                 EmptyString [] None (Some (whole 6)) 1)
              eq_refl) as (direct & Hd & Hnum & _).
  exists direct. split; [exact Hd | exact Hnum].
Defined.

(** C9 as stated fails.  In ["approx. 7"] the scan collects the point and
    stops at the space that follows, before any digit: the code has no
    sample where the scan of the specification finds one.  The number -3
    is its own sample, where the scan of its string form gives 3.0.  And
    the average of three samples 0.1, in floats, is not 0.1. *)
Lemma rating_scan_counterexample :
  parse_rating example_repr (JStr "approx. 7") = None
  /\ claimed_rating example_repr (JStr "approx. 7") = Some (Binary64.of_ratio 7 10)
  /\ option_map SubmissionSummary.num_reviews
       (summarize example_repr plain_sum
          (note_with_reply "V/-/Official_Review" [("rating", JStr "approx. 7")]))
     = Some 0
  /\ parse_rating example_repr (JInt (-3)) = Some (whole (-3))
  /\ claimed_rating example_repr (JInt (-3)) = Some (whole 3)
  /\ rating_samples example_repr
       [("rating", JStr "0.1"); ("Rating", JStr "0.1"); ("RATING", JStr "0.1")]
     = [Binary64.of_ratio 1 10; Binary64.of_ratio 1 10; Binary64.of_ratio 1 10]
  /\ option_map SubmissionSummary.avg_rating
       (summarize example_repr plain_sum
          (note_with_reply "V/-/Official_Review"
             [("rating", JStr "0.1"); ("Rating", JStr "0.1"); ("RATING", JStr "0.1")]))
     = Some (Some (S754_finite false 7205759403792795 (-56)))
  /\ Binary64.of_ratio 1 10 = S754_finite false 7205759403792794 (-56).
Proof. repeat split; reflexivity. Qed.

(* ------------------------------------------------------------------ *)
(** ** The upsert *)

Lemma Forall2_impl_in {A B : Type} (R R' : A -> B -> Prop) (l : list A) (l' : list B) :
  Forall2 R l l' ->
  (forall a b, In a l -> R a b -> R' a b) ->
  Forall2 R' l l'.
Proof.
  induction 1 as [|a b l l' Hab _ IH]; intro Himpl; constructor.
  - apply Himpl; [now left | assumption].
  - apply IH. intros a' b' Ha'. apply Himpl. now right.
Qed.

Lemma Forall2_same {A : Type} (R : A -> A -> Prop) (l : list A) :
  (forall a, In a l -> R a a) -> Forall2 R l l.
Proof.
  induction l as [|a l IH]; intro H; constructor.
  - apply H. now left.
  - apply IH. intros a' Ha'. apply H. now right.
Qed.

Lemma stored_forum_true (rows : list Paper.t) (forum : string) :
  stored_forum rows forum = true <-> In forum (forums rows).
Proof.
  unfold stored_forum. rewrite existsb_exists. split.
  - intros (f & Hin & Heq). apply String.eqb_eq in Heq. now subst.
  - intro Hin. exists forum. split; auto. apply String.eqb_refl.
Qed.

Lemma stored_forum_false (rows : list Paper.t) (forum : string) :
  stored_forum rows forum = false <-> ~ In forum (forums rows).
Proof.
  rewrite <- stored_forum_true. now destruct (stored_forum rows forum).
Qed.

Lemma refresh_forum (summary : Summary.t) (now : datetime) (p : Paper.t) :
  Paper.openreview_forum (refresh summary now p) = Paper.openreview_forum p.
Proof. reflexivity. Qed.

(** The row [update_first] changes is the first of its forum. *)
Lemma update_first_some (forum : string) (f : Paper.t -> Paper.t) (rows rows' : list Paper.t) :
  update_first forum f rows = Some rows' ->
  exists pre p post,
    rows = pre ++ p :: post
    /\ rows' = pre ++ f p :: post
    /\ Paper.openreview_forum p = forum
    /\ ~ In forum (forums pre).
Proof.
  revert rows'. induction rows as [|q rows IH]; intros rows' H; simpl in H.
  - discriminate.
  - destruct (String.eqb (Paper.openreview_forum q) forum) eqn:Hq.
    + injection H as <-. apply String.eqb_eq in Hq.
      exists [], q, rows. repeat split; auto.
    + apply String.eqb_neq in Hq.
      destruct (update_first forum f rows) as [rest'|]; [|discriminate].
      injection H as <-.
      destruct (IH rest' eq_refl) as (pre & p & post & -> & -> & Hp & Hpre).
      exists (q :: pre), p, post. repeat split; auto.
      intros [Heq | Hin]; auto.
Qed.

Lemma update_first_none (forum : string) (f : Paper.t -> Paper.t) (rows : list Paper.t) :
  update_first forum f rows = None <-> stored_forum rows forum = false.
Proof.
  rewrite stored_forum_false.
  induction rows as [|q rows IH]; simpl.
  - split; auto.
  - destruct (String.eqb (Paper.openreview_forum q) forum) eqn:Hq.
    + apply String.eqb_eq in Hq. split; [discriminate|]. intro H. exfalso. apply H. now left.
    + apply String.eqb_neq in Hq.
      destruct (update_first forum f rows) as [rest'|].
      * split; [discriminate|]. intro H. exfalso.
        assert (Hn : ~ In forum (forums rows)) by (intro Hin; apply H; now right).
        apply IH in Hn. discriminate.
      * split; auto. intros _ [Heq | Hin]; auto.
        destruct IH as [IH _]. now apply (IH eq_refl).
Qed.

Lemma update_first_forums (forum : string) (summary : Summary.t) (now : datetime)
    (rows rows' : list Paper.t) :
  update_first forum (refresh summary now) rows = Some rows' ->
  forums rows' = forums rows.
Proof.
  intro H. destruct (update_first_some _ _ _ _ H) as (pre & p & post & -> & -> & _).
  unfold forums. now rewrite !map_app.
Qed.

Section UpsertFacts.

Variable utcnow : nat -> datetime.

Lemma upsert_loop_counts (venue_id : nat) (submissions : list Summary.t) :
  forall rows new clock count rows' new' clock' count',
    upsert_loop utcnow venue_id submissions rows new clock count
    = (rows', new', clock', count') ->
    clock' = clock + List.length submissions
    /\ count' = count + List.length submissions
    /\ forums rows' = forums rows.
Proof.
  induction submissions as [|summary rest IH];
    intros rows new clock count rows' new' clock' count' H; simpl in H.
  - injection H as <- <- <- <-. simpl. repeat split; lia.
  - destruct (update_first _ _ rows) as [rows1|] eqn:Hup.
    + apply IH in H. destruct H as (-> & -> & ->). simpl.
      repeat split; try lia. eapply update_first_forums; eauto.
    + apply IH in H. destruct H as (-> & -> & ->). simpl. repeat split; lia.
Qed.

(** The papers the loop adds: one for each summary whose forum no row
    has, in their order. *)
Lemma upsert_loop_new (venue_id : nat) (submissions : list Summary.t) :
  forall rows new clock count rows' new' clock' count',
    upsert_loop utcnow venue_id submissions rows new clock count
    = (rows', new', clock', count') ->
    exists added,
      new' = new ++ added
      /\ forums added
         = filter (fun f => negb (stored_forum rows f)) (summary_forums submissions)
      /\ Forall (fun p => exists summary k,
                     In summary submissions
                     /\ stored_forum rows (Summary.forum summary) = false
                     /\ clock <= k < clock + List.length submissions
                     /\ p = new_paper venue_id summary (utcnow k)) added.
Proof.
  induction submissions as [|summary rest IH];
    intros rows new clock count rows' new' clock' count' H; simpl in H.
  - injection H as <- <- <- <-. exists []. now rewrite app_nil_r.
  - destruct (update_first _ _ rows) as [rows1|] eqn:Hup.
    + assert (Hstored : stored_forum rows (Summary.forum summary) = true).
      { destruct (stored_forum rows (Summary.forum summary)) eqn:E; auto.
        apply update_first_none with (f := refresh summary (utcnow clock)) in E.
        congruence. }
      apply IH in H. destruct H as (added & -> & Hforums & Hall).
      assert (Hsame : forall f, stored_forum rows1 f = stored_forum rows f)
        by (intro f; unfold stored_forum;
            now rewrite (update_first_forums _ _ _ _ _ Hup)).
      exists added. split; auto. split.
      * simpl. rewrite Hstored. simpl. rewrite Hforums.
        apply filter_ext. intro f. now rewrite Hsame.
      * eapply Forall_impl; [|exact Hall].
        intros p (s & k & Hs & Hns & Hk & ->). exists s, k.
        repeat split; simpl; auto; try lia. now rewrite <- Hsame.
    + apply update_first_none in Hup.
      apply IH in H. destruct H as (added & -> & Hforums & Hall).
      exists (new_paper venue_id summary (utcnow clock) :: added). split; [|split].
      * now rewrite <- app_assoc.
      * simpl. rewrite Hup. simpl. unfold forums in *. simpl. now rewrite Hforums.
      * constructor.
        -- exists summary, clock. repeat split; simpl; auto; lia.
        -- eapply Forall_impl; [|exact Hall].
           intros p (s & k & Hs & Hns & Hk & ->). exists s, k.
           repeat split; simpl; auto; lia.
Qed.

(** The rows after the loop, row by row, when no two rows and no two
    summaries share a forum. *)
Lemma upsert_loop_rows (venue_id : nat) (submissions : list Summary.t) :
  forall rows new clock count rows' new' clock' count',
    upsert_loop utcnow venue_id submissions rows new clock count
    = (rows', new', clock', count') ->
    NoDup (forums rows) ->
    NoDup (summary_forums submissions) ->
    Forall2 (refreshed_by utcnow submissions clock (clock + List.length submissions))
      rows rows'.
Proof.
  induction submissions as [|summary rest IH];
    intros rows new clock count rows' new' clock' count' H Hrows Hsubs; simpl in H.
  - injection H as <- <- <- <-. apply Forall2_same. intros p _. left. split; auto.
  - simpl in Hsubs. inversion Hsubs as [|? ? Hfresh Hrest]; subst.
    destruct (update_first _ _ rows) as [rows1|] eqn:Hup.
    + pose proof (update_first_forums _ _ _ _ _ Hup) as Hforums.
      destruct (update_first_some _ _ _ _ Hup) as (pre & p & post & -> & -> & Hp & Hpre).
      assert (Hpost : ~ In (Summary.forum summary) (forums post)).
      { unfold forums in Hrows. rewrite map_app in Hrows. simpl in Hrows.
        apply NoDup_remove_2 in Hrows. rewrite Hp in Hrows.
        intro Hin. apply Hrows. apply in_or_app. now right. }
      apply IH in H; auto; [|now rewrite Hforums].
      apply Forall2_app_inv_l in H.
      destruct H as (pre' & tail' & Hpre' & Htail & ->).
      inversion Htail as [|? p' ? post' Hp' Hpost']; subst.
      apply Forall2_app; [|constructor].
      * eapply Forall2_impl_in; [exact Hpre'|].
        intros a b Ha [[Hnot ->] | (s & k & Hs & Hf & Hk & ->)].
        -- left. split; auto. simpl. intros [Heq | Hin]; auto.
           apply Hpre. rewrite Heq. unfold forums. now apply in_map.
        -- right. exists s, k. repeat split; simpl; auto; lia.
      * destruct Hp' as [[_ ->] | (s & k & Hs & Hf & _)].
        -- right. exists summary, clock. repeat split; simpl; auto; lia.
        -- exfalso. apply Hfresh. rewrite refresh_forum, Hp in Hf. rewrite <- Hf.
           unfold summary_forums. now apply in_map.
      * eapply Forall2_impl_in; [exact Hpost'|].
        intros a b Ha [[Hnot ->] | (s & k & Hs & Hf & Hk & ->)].
        -- left. split; auto. simpl. intros [Heq | Hin]; auto.
           apply Hpost. rewrite Heq. unfold forums. now apply in_map.
        -- right. exists s, k. repeat split; simpl; auto; lia.
    + apply update_first_none, stored_forum_false in Hup.
      apply IH in H; auto.
      eapply Forall2_impl_in; [exact H|].
      intros a b Ha [[Hnot ->] | (s & k & Hs & Hf & Hk & ->)].
      * left. split; auto. simpl. intros [Heq | Hin]; auto.
        apply Hup. rewrite Heq. unfold forums. now apply in_map.
      * right. exists s, k. repeat split; simpl; auto; lia.
Qed.

End UpsertFacts.

Lemma insert_papers_spec (new : pending Paper.t) :
  forall rows,
    exists added,
      insert_papers rows new = rows ++ added
      /\ Forall2 (fun n n' => exists i, n' = Paper.set_id i n) new added.
Proof.
  induction new as [|p rest IH]; intro rows; simpl.
  - exists []. split; [now rewrite app_nil_r | constructor].
  - destruct (IH (rows ++ [Paper.set_id (next_id (map Paper.id rows)) p]))
      as (added & -> & Hall).
    exists (Paper.set_id (next_id (map Paper.id rows)) p :: added). split.
    + now rewrite <- app_assoc.
    + constructor; auto. now exists (next_id (map Paper.id rows)).
Qed.

Lemma set_id_forums (new added : list Paper.t) :
  Forall2 (fun n n' => exists i, n' = Paper.set_id i n) new added ->
  forums added = forums new.
Proof.
  induction 1 as [|n n' new added [i ->] _ IH]; simpl; auto.
  now rewrite IH.
Qed.

Lemma count_venues_find (group_id : string) (rows : list Venue.t) :
  match find (fun v => String.eqb (Venue.group_id v) group_id) rows with
  | Some v => In v rows /\ Venue.group_id v = group_id /\ 1 <= count_venues group_id rows
  | None => count_venues group_id rows = 0
  end.
Proof.
  unfold count_venues. induction rows as [|v rows IH]; simpl; auto.
  destruct (String.eqb (Venue.group_id v) group_id) eqn:Hv.
  - apply String.eqb_eq in Hv. simpl. repeat split; auto. lia.
  - destruct (find _ rows) as [v'|]; auto.
    destruct IH as (Hin & Hg & Hc). repeat split; auto.
Qed.

Section IngestFacts.

Variable utcnow : nat -> datetime.
Variable ratio : string -> string -> PyFloat.float.
Variable query_arxiv_by_title : nat -> string -> option (list (string * string)).
Variable settings : Settings.

(** The venue of the group after lines 22-26: the one found, or the one
    added when the group had none. *)
Lemma ensure_venue_spec (group_id : string) (name : option string) (year : option Z)
    (rows : list Venue.t) (clock : nat) (venue : Venue.t) (vs : list Venue.t) (c1 : nat) :
  ensure_venue utcnow group_id name year rows clock = (venue, vs, c1) ->
  In venue vs
  /\ Venue.group_id venue = group_id
  /\ clock <= c1
  /\ ((1 <= count_venues group_id rows /\ vs = rows)
      \/ (count_venues group_id rows = 0 /\ count_venues group_id vs = 1)).
Proof.
  unfold ensure_venue. pose proof (count_venues_find group_id rows) as Hfind.
  destruct (find _ rows) as [v|].
  - intros [= <- <- <-]. destruct Hfind as (Hin & Hg & Hc). repeat split; auto.
  - intros [= <- <- <-]. repeat split; auto.
    + apply in_or_app. right. now left.
    + right. split; auto. unfold count_venues in *.
      rewrite filter_app, List.length_app, Hfind. simpl.
      now rewrite String.eqb_refl.
Qed.

Lemma match_papers_clock (deadline : datetime) (stored : list ArxivMatch.t)
    (ps : list Paper.t) :
  forall (st : matching),
    match match_papers utcnow ratio query_arxiv_by_title deadline stored ps st with
    | inl (_, c, _) => snd (fst st) <= c
    | inr (c, _) => snd (fst st) <= c
    end.
Proof.
  induction ps as [|p ps IH]; intros [[new clock] sent]; simpl; auto.
  destruct (is_fresh deadline (latest_match (Paper.id p) stored)).
  - apply (IH (new, clock, sent)).
  - destruct (find_arxiv_match _ _ _ _) as [[[[aid atitle] exact] score]|]; simpl; auto.
    destruct (nonempty aid).
    + match goal with
      | |- context [match_papers _ _ _ _ _ _ ?st] => specialize (IH st)
      end.
      destruct (match_papers _ _ _ _ _ _ _) as [[[n c] snt]|[c snt]]; simpl in *; lia.
    + apply (IH (new, clock, sent ++ [Paper.title p])).
Qed.

(** The store [ingest_group] leaves, in terms of its first two steps. *)
Lemma ingest_group_store (submissions : list Summary.t) (group_id : string)
    (name : option string) (year : option Z) (with_arxiv : bool) (w : World) :
  exists venue vs c1 rows new c2 count,
    ensure_venue utcnow group_id name year (venues (db w)) (clock w) = (venue, vs, c1)
    /\ upsert_loop utcnow (Venue.id venue) submissions (papers (db w)) [] c1 0
       = (rows, new, c2, count)
    /\ venues (db (snd (ingest_group utcnow ratio query_arxiv_by_title settings
                          submissions group_id name year with_arxiv w))) = vs
    /\ papers (db (snd (ingest_group utcnow ratio query_arxiv_by_title settings
                          submissions group_id name year with_arxiv w)))
       = insert_papers rows new
    /\ c2 <= clock (snd (ingest_group utcnow ratio query_arxiv_by_title settings
                           submissions group_id name year with_arxiv w)).
Proof.
  unfold ingest_group.
  destruct (ensure_venue _ _ _ _ _ _) as [[venue vs] c1] eqn:Hv.
  destruct (upsert_loop _ _ _ _ _ _ _) as [[[rows new] c2] count] eqn:Hu.
  exists venue, vs, c1, rows, new, c2, count.
  destruct with_arxiv; simpl; [|repeat split; auto].
  match goal with
  | |- context [match_papers ?u ?r ?q ?d ?s ?ps ?st] =>
      pose proof (match_papers_clock d s ps st) as Hclock;
      destruct (match_papers u r q d s ps st) as [[[added c3] sent]|[c3 sent]]
  end; simpl in *; repeat split; auto; lia.
Qed.

Lemma refreshed_by_weaken (submissions : list Summary.t) (lo hi lo' hi' : nat)
    (p p' : Paper.t) :
  lo' <= lo -> hi <= hi' ->
  refreshed_by utcnow submissions lo hi p p' ->
  refreshed_by utcnow submissions lo' hi' p p'.
Proof.
  intros Hlo Hhi [H | (s & k & Hs & Hf & Hk & ->)]; [now left|].
  right. exists s, k. repeat split; auto; lia.
Qed.

(** The papers [ingest_group] leaves: the stored rows, refreshed in place,
    followed by the rows inserted for the venue of the group. *)
Lemma ingest_group_papers (submissions : list Summary.t) (group_id : string)
    (name : option string) (year : option Z) (with_arxiv : bool) (w : World) :
  let w' := snd (ingest_group utcnow ratio query_arxiv_by_title settings
                   submissions group_id name year with_arxiv w) in
  exists venue kept added,
    In venue (venues (db w'))
    /\ Venue.group_id venue = group_id
    /\ papers (db w') = kept ++ added
    /\ forums kept = forums (papers (db w))
    /\ forums added
       = filter (fun f => negb (stored_forum (papers (db w)) f)) (summary_forums submissions)
    /\ Forall (inserted_by utcnow (Venue.id venue) submissions (papers (db w))
                 (clock w) (clock w')) added
    /\ (NoDup (forums (papers (db w))) ->
        NoDup (summary_forums submissions) ->
        Forall2 (refreshed_by utcnow submissions (clock w) (clock w'))
          (papers (db w)) kept).
Proof.
  intro w'. subst w'.
  destruct (ingest_group_store submissions group_id name year with_arxiv w)
    as (venue & vs & c1 & rows & new & c2 & count & Hv & Hu & Hvs & Hps & Hc2).
  apply ensure_venue_spec in Hv. destruct Hv as (Hin & Hg & Hc1 & _).
  destruct (upsert_loop_counts _ _ _ _ _ _ _ _ _ _ _ Hu) as (Hclock & _ & Hforums).
  destruct (upsert_loop_new _ _ _ _ _ _ _ _ _ _ _ Hu) as (added0 & Hnew & Hadded & Hall).
  simpl in Hnew. subst new.
  destruct (insert_papers_spec added0 rows) as (added & Hins & Hids).
  exists venue, rows, added. rewrite Hvs, Hps. repeat split; auto.
  - now rewrite (set_id_forums _ _ Hids).
  - clear - Hids Hall Hc1 Hc2 Hclock.
    induction Hids as [|n n' new added [i ->] _ IH]; constructor.
    + inversion Hall as [|? ? (s & k & Hs & Hns & Hk & ->) _]; subst.
      exists s, k, i. repeat split; auto; lia.
    + apply IH. now inversion Hall.
  - intros Hrows Hsubs.
    eapply Forall2_impl_in; [eapply upsert_loop_rows; eauto|].
    intros a b _ H. eapply refreshed_by_weaken; [| |exact H]; lia.
Qed.

End IngestFacts.

Lemma forums_after_nodup (rows : list Paper.t) (submissions : list Summary.t) :
  NoDup (forums rows) ->
  NoDup (summary_forums submissions) ->
  NoDup (forums rows
         ++ filter (fun f => negb (stored_forum rows f)) (summary_forums submissions)).
Proof.
  intros Hrows Hsubs. apply NoDup_app; auto.
  - now apply NoDup_filter.
  - intros f Hin Hf. apply filter_In in Hf. destruct Hf as [_ Hf].
    apply stored_forum_true in Hin. rewrite Hin in Hf. discriminate.
Qed.

(* ------------------------------------------------------------------ *)
(** ** Ingesting twice *)

Lemma Forall2_in_r {A B : Type} (R : A -> B -> Prop) (l : list A) (l' : list B) (b : B) :
  Forall2 R l l' -> In b l' -> exists a, In a l /\ R a b.
Proof.
  induction 1 as [|a b' l l' Hab _ IH]; intro Hin; [destruct Hin|].
  destruct Hin as [<- | Hin].
  - exists a. split; [now left | assumption].
  - destruct (IH Hin) as (a' & Ha' & HR). exists a'. split; [now right | assumption].
Qed.

Lemma filter_none {A : Type} (f : A -> bool) (l : list A) :
  (forall a, In a l -> f a = false) -> filter f l = [].
Proof.
  induction l as [|a l IH]; intro H; simpl; auto.
  rewrite (H a) by now left. apply IH. intros a' Ha'. apply H. now right.
Qed.

Lemma same_forum_same_summary (submissions : list Summary.t) (s s' : Summary.t) :
  NoDup (summary_forums submissions) ->
  In s submissions -> In s' submissions ->
  Summary.forum s = Summary.forum s' ->
  s = s'.
Proof.
  induction submissions as [|x rest IH]; intros Hnd Hs Hs' Heq; [destruct Hs|].
  simpl in Hnd. inversion Hnd as [|? ? Hx Hrest]; subst.
  destruct Hs as [<- | Hs], Hs' as [<- | Hs']; auto.
  - exfalso. apply Hx. rewrite Heq. unfold summary_forums. now apply in_map.
  - exfalso. apply Hx. rewrite <- Heq. unfold summary_forums. now apply in_map.
Qed.

Lemma refresh_twice (s : Summary.t) (now earlier : datetime) (p : Paper.t) :
  refresh s now (refresh s earlier p) = touch now (refresh s earlier p).
Proof. reflexivity. Qed.

Lemma refresh_new_paper (s : Summary.t) (now : datetime) (venue_id i : nat) :
  refresh s now (Paper.set_id i (new_paper venue_id s now))
  = Paper.set_id i (new_paper venue_id s now).
Proof. reflexivity. Qed.

Section TwiceFacts.

Variable utcnow : nat -> datetime.
Variable ratio : string -> string -> PyFloat.float.
Variable query_arxiv_by_title : nat -> string -> option (list (string * string)).
Variable settings : Settings.

(** After an ingestion, a paper whose forum a summary has carries the
    fields of that summary and a [last_refreshed] read during the call. *)
Lemma ingest_group_carries (submissions : list Summary.t) (group_id : string)
    (name : option string) (year : option Z) (with_arxiv : bool) (w : World) :
  let w' := snd (ingest_group utcnow ratio query_arxiv_by_title settings
                   submissions group_id name year with_arxiv w) in
  NoDup (forums (papers (db w))) ->
  NoDup (summary_forums submissions) ->
  forall p,
    In p (papers (db w')) ->
    In (Paper.openreview_forum p) (summary_forums submissions) ->
    exists s k,
      In s submissions
      /\ Summary.forum s = Paper.openreview_forum p
      /\ k < clock w'
      /\ refresh s (utcnow k) p = p.
Proof.
  intros w' Hrows Hsubs p Hp Hforum.
  destruct (ingest_group_papers utcnow ratio query_arxiv_by_title settings submissions
              group_id name year with_arxiv w)
    as (venue & kept & added & _ & _ & Hps & _ & _ & Hall & Hkept).
  fold w' in Hps, Hall, Hkept. rewrite Hps in Hp.
  apply in_app_or in Hp. destruct Hp as [Hp | Hp].
  - destruct (Forall2_in_r _ _ _ _ (Hkept Hrows Hsubs) Hp) as (p0 & _ & Hr).
    destruct Hr as [[Hnot ->] | (s & k & Hs & Hf & Hk & ->)]; [contradiction|].
    exists s, k. repeat split; auto; lia.
  - rewrite Forall_forall in Hall.
    destruct (Hall p Hp) as (s & k & i & Hs & _ & Hk & ->).
    exists s, k. repeat split; auto; lia.
Qed.

Lemma ingest_group_forums (submissions : list Summary.t) (group_id : string)
    (name : option string) (year : option Z) (with_arxiv : bool) (w : World) :
  forums (papers (db (snd (ingest_group utcnow ratio query_arxiv_by_title settings
                             submissions group_id name year with_arxiv w))))
  = forums (papers (db w))
    ++ filter (fun f => negb (stored_forum (papers (db w)) f)) (summary_forums submissions).
Proof.
  destruct (ingest_group_papers utcnow ratio query_arxiv_by_title settings submissions
              group_id name year with_arxiv w)
    as (venue & kept & added & _ & _ & Hps & Hkept & Hadded & _).
  rewrite Hps. unfold forums at 1. rewrite map_app. fold (forums kept) (forums added).
  now rewrite Hkept, Hadded.
Qed.

Lemma ingest_group_has_forums (submissions : list Summary.t) (group_id : string)
    (name : option string) (year : option Z) (with_arxiv : bool) (w : World) (f : string) :
  In f (summary_forums submissions) ->
  In f (forums (papers (db (snd (ingest_group utcnow ratio query_arxiv_by_title settings
                                   submissions group_id name year with_arxiv w))))).
Proof.
  intro Hf. rewrite ingest_group_forums. apply in_or_app.
  destruct (stored_forum (papers (db w)) f) eqn:E.
  - left. now apply stored_forum_true.
  - right. apply filter_In. split; auto. now rewrite E.
Qed.

Lemma ingest_group_venues (submissions : list Summary.t) (group_id : string)
    (name : option string) (year : option Z) (with_arxiv : bool) (w : World) :
  let w' := snd (ingest_group utcnow ratio query_arxiv_by_title settings
                   submissions group_id name year with_arxiv w) in
  (1 <= count_venues group_id (venues (db w)) /\ venues (db w') = venues (db w))
  \/ (count_venues group_id (venues (db w)) = 0
      /\ count_venues group_id (venues (db w')) = 1).
Proof.
  intro w'. subst w'.
  destruct (ingest_group_store utcnow ratio query_arxiv_by_title settings submissions
              group_id name year with_arxiv w)
    as (venue & vs & c1 & rows & new & c2 & count & Hv & _ & Hvs & _).
  apply ensure_venue_spec in Hv. destruct Hv as (_ & _ & _ & [[Hc ->] | [Hc Hc']]).
  - left. split; auto.
  - right. rewrite Hvs. split; auto.
Qed.

End TwiceFacts.

Lemma refreshed_is_upserted (utcnow : nat -> datetime) (submissions : list Summary.t)
    (lo hi : nat) (p p' : Paper.t) :
  refreshed_by utcnow submissions lo hi p p' -> upserted utcnow submissions lo hi p p'.
Proof.
  intros [H | (summary & k & Hs & Hf & Hk & ->)]; [now left|].
  right. exists summary. split; [exact Hs|]. split; [exact Hf|].
  split; [reflexivity|]. split; [repeat split|].
  exists k. split; [exact Hk | reflexivity].
Qed.

Lemma inserted_is_inserted_for (utcnow : nat -> datetime) (venue_id : nat)
    (submissions : list Summary.t) (rows : list Paper.t) (lo hi : nat) (p : Paper.t) :
  inserted_by utcnow venue_id submissions rows lo hi p ->
  inserted_for utcnow venue_id submissions rows lo hi p.
Proof.
  intros (summary & k & i & Hs & Hns & Hk & ->).
  exists summary. split; [exact Hs|]. split; [now apply stored_forum_false|].
  split; [reflexivity|]. split; [reflexivity|]. split; [reflexivity|].
  split; [repeat split|].
  exists k. split; [exact Hk | reflexivity].
Qed.

Section SequenceFacts.

Variable utcnow : nat -> datetime.
Variable ratio : string -> string -> PyFloat.float.
Variable query_arxiv_by_title : nat -> string -> option (list (string * string)).
Variable settings : Settings.

(** The forums stored stay stored over a sequence of calls. *)
Lemma ingest_all_keeps_forums (calls : list call) :
  forall (w : World) (f : string),
    In f (forums (papers (db w))) ->
    In f (forums (papers (db (ingest_all utcnow ratio query_arxiv_by_title settings
                                calls w)))).
Proof.
  induction calls as [|c rest IH]; intros w f Hf; [exact Hf|].
  apply IH. rewrite ingest_group_forums. apply in_or_app. now left.
Qed.

(** Calls whose summaries have distinct forums keep the forums stored
    distinct, and every forum ingested is stored in the end. *)
Lemma ingest_all_forums (calls : list call) :
  forall w : World,
    NoDup (forums (papers (db w))) ->
    Forall (fun c => NoDup (summary_forums (call_submissions c))) calls ->
    let w' := ingest_all utcnow ratio query_arxiv_by_title settings calls w in
    NoDup (forums (papers (db w')))
    /\ forall c summary,
        In c calls -> In summary (call_submissions c) ->
        In (Summary.forum summary) (forums (papers (db w'))).
Proof.
  induction calls as [|c rest IH]; intros w Hrows Hcalls; [split; [exact Hrows | intros ? ? []]|].
  inversion Hcalls as [|? ? Hc Hrest]; subst.
  set (w1 := snd (ingest_group utcnow ratio query_arxiv_by_title settings
                    (call_submissions c) (call_group c) (call_name c) (call_year c)
                    (call_arxiv c) w)).
  assert (Hrows1 : NoDup (forums (papers (db w1))))
    by (unfold w1; rewrite ingest_group_forums; now apply forums_after_nodup).
  destruct (IH w1 Hrows1 Hrest) as [Hnodup Hall].
  split; [exact Hnodup|].
  intros c' summary [<- | Hc'] Hs.
  - apply (ingest_all_keeps_forums rest w1). apply ingest_group_has_forums.
    unfold summary_forums. now apply in_map.
  - now apply (Hall c').
Qed.

End SequenceFacts.

(** C1, as the code has it.  Take a store whose papers have distinct
    forums and calls none of which is given two summaries of one forum.
    The upsert is keyed by the forum alone: a summary whose forum a stored
    paper has, of whatever venue, updates that paper in place, with the id,
    venue, forum and note of the row kept, the title, abstract, authors,
    keywords, decision, average rating and review count set from the
    summary and [last_refreshed] set to a reading of the clock taken
    during the call; a summary whose forum no stored paper has inserts a
    paper of that forum for the venue of the group; a paper whose forum no
    summary has stays as it is.  So after any sequence of such calls the
    stored papers have distinct forums, and every forum ingested is the
    forum of the one paper that has it. *)
Theorem upsert_keyed_by_forum :
  forall (utcnow : nat -> datetime) (ratio : string -> string -> PyFloat.float)
         (query_arxiv_by_title : nat -> string -> option (list (string * string)))
         (settings : Settings),
    (forall (submissions : list Summary.t) (group_id : string) (name : option string)
            (year : option Z) (with_arxiv : bool) (w : World),
        let w' := snd (ingest_group utcnow ratio query_arxiv_by_title settings
                         submissions group_id name year with_arxiv w) in
        NoDup (forums (papers (db w))) ->
        NoDup (summary_forums submissions) ->
        exists venue before added,
          In venue (venues (db w'))
          /\ Venue.group_id venue = group_id
          /\ papers (db w') = before ++ added
          /\ Forall2 (upserted utcnow submissions (clock w) (clock w'))
               (papers (db w)) before
          /\ forums added
             = filter (fun f => negb (stored_forum (papers (db w)) f))
                 (summary_forums submissions)
          /\ Forall (inserted_for utcnow (Venue.id venue) submissions (papers (db w))
                       (clock w) (clock w')) added)
    /\ (forall (calls : list call) (w : World),
           let w' := ingest_all utcnow ratio query_arxiv_by_title settings calls w in
           NoDup (forums (papers (db w))) ->
           Forall (fun c => NoDup (summary_forums (call_submissions c))) calls ->
           NoDup (forums (papers (db w')))
           /\ forall c summary,
               In c calls -> In summary (call_submissions c) ->
               In (Summary.forum summary) (forums (papers (db w')))).
Proof.
  intros utcnow ratio query settings. split.
  - intros submissions group_id name year with_arxiv w w' Hrows Hsubs.
    destruct (ingest_group_papers utcnow ratio query settings submissions group_id name
                year with_arxiv w)
      as (venue & before & added & Hin & Hg & Hps & Hkept & Hadded & Hall & Hpairs).
    fold w' in Hin, Hps, Hall, Hpairs.
    exists venue, before, added.
    split; [exact Hin|]. split; [exact Hg|]. split; [exact Hps|].
    split; [|split; [exact Hadded|]].
    + eapply Forall2_impl_in; [exact (Hpairs Hrows Hsubs)|].
      intros a b _. apply refreshed_is_upserted.
    + eapply Forall_impl; [|exact Hall].
      intro a. apply inserted_is_inserted_for.
  - intros calls w w' Hrows Hcalls. now apply ingest_all_forums.
Qed.

Lemma upsert_keyed_by_forum_witness :
  exists before added,
    papers (db (snd (ingest_group example_clock prefix_ratio feed_empty default_settings
                       [summary_f1; summary_f2] "A.cc/2024/Conference" None None true
                       world_a)))
    = before ++ added
    /\ Forall2 (upserted example_clock [summary_f1; summary_f2] 2 5) [paper_a] before
    /\ forums added = ["f2"].
Proof.
  destruct (proj1 (upsert_keyed_by_forum example_clock prefix_ratio feed_empty
                     default_settings)
              [summary_f1; summary_f2] "A.cc/2024/Conference" None None true world_a)
    as (venue & before & added & _ & _ & Hps & Hrows & Hadded & _).
  - repeat constructor. intros [].
  - repeat constructor; simpl; intuition discriminate.
  - exists before, added. split; [exact Hps|]. split; [exact Hrows | exact Hadded].
Defined.

(** C1 as stated fails: ingesting a group whose summary has the forum of a
    paper of another venue rewrites that paper and stores no paper for the
    group. *)
Lemma other_venue_counterexample :
  let w' := snd (ingest_group example_clock prefix_ratio feed_empty default_settings
                   [summary_f1] "B.cc/2024/Conference" None None false world_a) in
  map Venue.group_id (venues (db w')) = ["A.cc/2024/Conference"; "B.cc/2024/Conference"]
  /\ map Venue.id (venues (db w')) = [1; 2]
  /\ Paper.venue_id paper_a = 1
  /\ papers (db w')
     = [Paper.mk 1 1 "f1" "f1" "New title" None "B. Author" "" None None 0
          (example_clock 3)]
  /\ ~ In paper_a (papers (db w')).
Proof.
  repeat split. intros [H | []]. discriminate.
Qed.


(** X25.  When the store holds at most one venue of the
    group and papers of distinct forums, and the summaries have distinct
    forums, ingesting the group twice with the same summaries leaves one
    venue of the group and papers of distinct forums among which every
    forum of the summaries; the second call adds no row, leaves the papers
    whose forum no summary has as they are, and changes nothing but
    [last_refreshed] in the others, to a later instant when the readings of
    the clock increase. *)
Theorem ingest_twice :
  forall (utcnow : nat -> datetime) (ratio : string -> string -> PyFloat.float)
         (query_arxiv_by_title : nat -> string -> option (list (string * string)))
         (settings : Settings) (submissions : list Summary.t) (group_id : string)
         (name name' : option string) (year year' : option Z)
         (with_arxiv with_arxiv' : bool) (w : World),
    let w1 := snd (ingest_group utcnow ratio query_arxiv_by_title settings
                     submissions group_id name year with_arxiv w) in
    let w2 := snd (ingest_group utcnow ratio query_arxiv_by_title settings
                     submissions group_id name' year' with_arxiv' w1) in
    count_venues group_id (venues (db w)) <= 1 ->
    NoDup (forums (papers (db w))) ->
    NoDup (summary_forums submissions) ->
    (forall i j, i < j -> (utcnow i < utcnow j)%Z) ->
    count_venues group_id (venues (db w2)) = 1
    /\ NoDup (forums (papers (db w2)))
    /\ (forall s, In s submissions ->
                  In (Summary.forum s) (forums (papers (db w2))))
    /\ Forall2 (only_touched submissions) (papers (db w1)) (papers (db w2)).
Proof.
  intros utcnow ratio query settings submissions group_id name name' year year'
    with_arxiv with_arxiv' w w1 w2 Hvenues Hrows Hsubs Hclock.
  assert (Hrows1 : NoDup (forums (papers (db w1)))).
  { unfold w1. rewrite ingest_group_forums. now apply forums_after_nodup. }
  assert (Hhas1 : forall f, In f (summary_forums submissions) ->
                            In f (forums (papers (db w1))))
    by (intros f Hf; now apply ingest_group_has_forums).
  assert (Hforums2 : forums (papers (db w2)) = forums (papers (db w1))).
  { unfold w2. rewrite ingest_group_forums.
    rewrite filter_none; [now rewrite app_nil_r|].
    intros f Hf. apply negb_false_iff.
    apply stored_forum_true. now apply Hhas1. }
  split; [|split; [|split]].
  - pose proof (ingest_group_venues utcnow ratio query settings submissions group_id name
                  year with_arxiv w) as H1.
    pose proof (ingest_group_venues utcnow ratio query settings submissions group_id
                  name' year' with_arxiv' w1) as H2.
    cbv zeta in H1, H2. fold w1 in H1. fold w2 in H2.
    destruct H1 as [[Hc Heq] | [Hc Hc1]], H2 as [[Hc' Heq'] | [Hc' Hc2]].
    + rewrite Heq', Heq. lia.
    + rewrite Heq in Hc'. lia.
    + now rewrite Heq'.
    + lia.
  - now rewrite Hforums2.
  - intros s Hs. rewrite Hforums2. apply Hhas1. unfold summary_forums. now apply in_map.
  - destruct (ingest_group_papers utcnow ratio query settings submissions group_id name'
                year' with_arxiv' w1)
      as (venue & kept & added & _ & _ & Hps & Hkept & Hadded & _ & Hpairs).
    fold w2 in Hps, Hpairs.
    assert (Hnil : added = []).
    { assert (Hf : forums added = []).
      { rewrite Hadded. apply filter_none.
        intros f Hf. apply negb_false_iff.
        apply stored_forum_true. now apply Hhas1. }
      destruct added; [reflexivity | discriminate]. }
    subst added. rewrite app_nil_r in Hps. rewrite Hps.
    eapply Forall2_impl_in; [exact (Hpairs Hrows1 Hsubs)|].
    intros p1 p2 Hp1 [[Hnot ->] | (s' & k2 & Hs' & Hf' & Hk2 & ->)].
    + left. split; auto.
    + right.
      assert (Hin : In (Paper.openreview_forum p1) (summary_forums submissions))
        by (rewrite <- Hf'; unfold summary_forums; now apply in_map).
      split; auto.
      destruct (ingest_group_carries utcnow ratio query settings submissions group_id
                  name year with_arxiv w Hrows Hsubs p1 Hp1 Hin)
        as (s & k1 & Hs & Hf & Hk1 & Hcarried).
      fold w1 in Hk1.
      assert (s' = s)
        by (apply (same_forum_same_summary submissions); auto; congruence).
      subst s'. exists (utcnow k2). split.
      * rewrite <- Hcarried at 1. rewrite refresh_twice. now rewrite Hcarried.
      * rewrite <- Hcarried. simpl. apply Hclock. lia.
Qed.

Lemma ingest_twice_witness :
  Forall2 (only_touched [summary_f1; summary_f2])
    (papers (db (snd (ingest_group example_clock prefix_ratio feed_empty default_settings
                        [summary_f1; summary_f2] "A.cc/2024/Conference" None None true
                        world_a))))
    (papers (db (snd (ingest_group example_clock prefix_ratio feed_empty default_settings
                        [summary_f1; summary_f2] "A.cc/2024/Conference" None None true
                        (snd (ingest_group example_clock prefix_ratio feed_empty
                                default_settings [summary_f1; summary_f2]
                                "A.cc/2024/Conference" None None true world_a)))))).
Proof.
  apply (ingest_twice example_clock prefix_ratio feed_empty default_settings
           [summary_f1; summary_f2] "A.cc/2024/Conference" None None None None
           true true world_a).
  - vm_compute. lia.
  - repeat constructor. intros [].
  - repeat constructor; simpl; intuition discriminate.
  - intros i j Hij. unfold example_clock, seconds. lia.
Defined.

(** C2.  The group ingested twice into an empty store, with the same two
    summaries of one forum each time (two notes of one forum): the lookup
    of line 29 does not see the paper added at line 44 for the first
    summary, the session being made without autoflush, so the first call
    stores two papers of that forum; the second call finds the first of
    them for both summaries, rewrites its title with that of the second
    summary, and leaves the [last_refreshed] of the second paper where it
    was. *)
Lemma ingest_twice_shared_forum :
  let w1 := snd (ingest_group example_clock prefix_ratio feed_empty default_settings
                   [summary_f1; summary_f1_again] "A.cc/2024/Conference" None None false
                   empty_world) in
  let w2 := snd (ingest_group example_clock prefix_ratio feed_empty default_settings
                   [summary_f1; summary_f1_again] "A.cc/2024/Conference" None None false
                   w1) in
  map Venue.group_id (venues (db w2)) = ["A.cc/2024/Conference"]
  /\ map Summary.note [summary_f1; summary_f1_again] = ["f1"; "n2"]
  /\ forums (papers (db w2)) = ["f1"; "f1"]
  /\ map Paper.title (papers (db w1)) = ["New title"; "Another title"]
  /\ map Paper.title (papers (db w2)) = ["Another title"; "Another title"]
  /\ map Paper.last_refreshed (papers (db w1)) = [example_clock 1; example_clock 2]
  /\ map Paper.last_refreshed (papers (db w2)) = [example_clock 4; example_clock 2].
Proof. repeat split; reflexivity. Qed.


(* ------------------------------------------------------------------ *)
(** ** The forum of a record *)

Lemma summarize_ignores_forum (repr : json -> string)
    (float_sum : list Binary64.float -> Binary64.float) (n : list (string * json)) (v : json) :
  summarize repr float_sum (JDict (("forum", v) :: n)) = None <-> summarize repr float_sum (JDict n) = None.
Proof.
  unfold summarize. simpl.
  change (Py.get_default (("forum", v) :: n) "content" (JDict []))
    with (Py.get_default n "content" (JDict [])).
  change (Py.get_default (("forum", v) :: n) "details" (JDict []))
    with (Py.get_default n "details" (JDict [])).
  destruct (Py.as_dict (Py.or_ (Py.get_default n "content" _) _)); [|tauto].
  destruct (Py.as_dict (Py.get_default n "details" _)); [|tauto].
  destruct (Py.iter _); [|tauto].
  destruct (replies_loop repr _ [] None) as [[ratings decision]|]; [|tauto].
  split; discriminate.
Qed.

(** C10.  For a record whose ["forum"] is missing, null or empty, the forum
    of the summary is the ["id"] of the record, which is also its note; the
    record is summarized whenever the same record with a forum is; and when
    the fields of the summary have the declared types, ingesting it stores
    a paper whose forum is that id. *)
Theorem forum_defaults_to_id :
  forall (repr : json -> string) (float_sum : list Binary64.float -> Binary64.float),
    (forall n s,
        summarize repr float_sum (JDict n) = Some s ->
        Py.truthy (Py.get n "forum") = false ->
        SubmissionSummary.forum s = Py.get n "id"
        /\ SubmissionSummary.forum s = SubmissionSummary.note s)
    /\ (forall n v,
           summarize repr float_sum (JDict (("forum", v) :: n)) = None
           <-> summarize repr float_sum (JDict n) = None)
    /\ (forall utcnow ratio query_arxiv_by_title settings group_id name year with_arxiv
               w n s typed,
           summarize repr float_sum (JDict n) = Some s ->
           Py.truthy (Py.get n "forum") = false ->
           Summary.declared s = Some typed ->
           Py.get n "id" = JStr (Summary.forum typed)
           /\ In (Summary.forum typed)
                (forums (papers (db (snd (ingest_group utcnow ratio query_arxiv_by_title
                                            settings [typed] group_id name year with_arxiv
                                            w)))))).
Proof.
  intros repr float_sum.
  assert (Hforum : forall n s,
             summarize repr float_sum (JDict n) = Some s ->
             Py.truthy (Py.get n "forum") = false ->
             SubmissionSummary.forum s = Py.get n "id"
             /\ SubmissionSummary.forum s = SubmissionSummary.note s).
  { intros n s Hs Hfalsy.
    destruct (summarize_fields repr float_sum _ s Hs) as (n' & direct & [= <-] & _ & Hf & Hn & _).
    unfold Py.or_ in Hf. rewrite Hfalsy in Hf. split; congruence. }
  split; [exact Hforum | split; [apply summarize_ignores_forum|]].
  intros utcnow ratio query settings group_id name year with_arxiv w n s typed
    Hs Hfalsy Htyped.
  destruct (Hforum n s Hs Hfalsy) as [Hid _].
  assert (Hf : SubmissionSummary.forum s = JStr (Summary.forum typed)).
  { unfold Summary.declared in Htyped.
    destruct (SubmissionSummary.forum s); simpl in Htyped; try discriminate.
    destruct (Summary.text (SubmissionSummary.note s)); try discriminate.
    destruct (Summary.text (SubmissionSummary.title s)); try discriminate.
    destruct (Summary.optional_text (SubmissionSummary.abstract s)); try discriminate.
    now injection Htyped as <-. }
  split; [congruence|].
  apply ingest_group_has_forums. now left.
Qed.

Lemma forum_defaults_to_id_witness :
  In "n7"
    (forums (papers (db (snd (ingest_group example_clock prefix_ratio feed_empty
                                default_settings
                                [Summary.mk "n7" "n7" "A Title" None EmptyString [] None
                                   None 0]
                                "A.cc/2024/Conference" None None false world_a))))).
Proof.
  apply (proj2 (proj2 (proj2 (forum_defaults_to_id example_repr plain_sum))
                 example_clock prefix_ratio feed_empty default_settings
                 "A.cc/2024/Conference" None None false world_a
                 [("id", JStr "n7"); ("content", JDict [("title", JStr "A Title")])]
                 (SubmissionSummary.mk (JStr "n7") (JStr "n7") (JStr "A Title") JNull
                    EmptyString [] None None 0)
                 (Summary.mk "n7" "n7" "A Title" None EmptyString [] None None 0)
                 eq_refl eq_refl eq_refl)).
Defined.

(* ================================================================== *)
(** * Further properties *)

(* ------------------------------------------------------------------ *)
(** ** [fetch_notes]: what a return means, failures, and no end *)

Section PaginationMore.

Variable http_get : nat -> string -> nat -> response.
Variable invitation : string.

Lemma fetch_loop_returned (fuel : nat) :
  forall (offset : nat) (collected : list json) (requested : list nat)
         (collected' : list json) (requested' : list nat),
    fetch_loop http_get fuel invitation offset collected requested
    = Some (Returned collected' requested') ->
    exists full last,
      Forall (fun page => page_size <= List.length page) full
      /\ List.length last < page_size
      /\ serves http_get invitation (List.length requested) offset (full ++ [last])
      /\ collected' = collected ++ List.concat full ++ last
      /\ requested' = requested ++ offsets_from offset (full ++ [last])
      /\ List.length full < fuel.
Proof.
  induction fuel as [|fuel IH]; intros offset collected requested collected' requested' H;
    [discriminate|].
  simpl in H.
  destruct (http_get (List.length requested) invitation offset) as [|data] eqn:Hget;
    [discriminate|].
  destruct (Py.as_dict data) as [d|] eqn:Hd; [|discriminate].
  destruct (Py.truthy (Py.or_ (Py.get d "notes") (Py.or_ (Py.get d "items") (JList []))))
    eqn:Ht; simpl in H.
  - destruct (Py.iter _) as [page|] eqn:Hiter; [|discriminate].
    assert (Hpage : page_of data = Some page)
      by (unfold page_of; now rewrite Hd, Ht).
    destruct (Nat.ltb (List.length page) page_size) eqn:Hlen.
    + injection H as <- <-. apply Nat.ltb_lt in Hlen.
      exists [], page. simpl. repeat split; auto; try lia.
      exists data. auto.
    + apply Nat.ltb_ge in Hlen. apply IH in H.
      destruct H as (full & last & Hfull & Hlast & Hserves & -> & -> & Hfuel).
      exists (page :: full), last. simpl. repeat split; auto; try lia.
      * exists data. auto.
      * rewrite List.length_app, Nat.add_1_r in Hserves. exact Hserves.
      * now rewrite <- !app_assoc.
      * now rewrite <- app_assoc.
  - injection H as <- <-.
    assert (Hpage : page_of data = Some [])
      by (unfold page_of; now rewrite Hd, Ht).
    exists [], []. simpl. repeat split; auto.
    + unfold page_size. lia.
    + exists data. auto.
    + now rewrite app_nil_r.
    + lia.
Qed.

Lemma fetch_loop_endless (fuel : nat) :
  (forall k offset, exists data page,
      http_get k invitation offset = Body data
      /\ page_of data = Some page
      /\ page_size <= List.length page) ->
  forall offset collected requested,
    fetch_loop http_get fuel invitation offset collected requested = None.
Proof.
  intro Hfull. induction fuel as [|fuel IH]; intros offset collected requested; auto.
  destruct (Hfull (List.length requested) offset) as (data & page & Hget & Hpage & Hlen).
  rewrite (fetch_loop_full _ _ _ _ _ _ _ _ Hget Hpage Hlen). apply IH.
Qed.

Lemma fetch_loop_fails (fuel offset : nat) (collected : list json) (requested : list nat) :
  fails http_get invitation (List.length requested) offset ->
  fetch_loop http_get (S fuel) invitation offset collected requested
  = Some (Raised (requested ++ [offset])).
Proof.
  intros [Hget | (data & Hget & Hpage)]; simpl; rewrite Hget; auto.
  unfold page_of in Hpage.
  destruct (Py.as_dict data) as [d|]; auto.
  destruct (Py.truthy _); simpl; [now rewrite Hpage | discriminate].
Qed.

Lemma fetch_loop_raises_after (full : list (list json)) :
  forall (fuel offset : nat) (collected : list json) (requested : list nat),
    Forall (fun page => page_size <= List.length page) full ->
    serves http_get invitation (List.length requested) offset full ->
    fails http_get invitation (List.length requested + List.length full)
      (offset + List.length (List.concat full)) ->
    List.length full < fuel ->
    fetch_loop http_get fuel invitation offset collected requested
    = Some (Raised (requested ++ offsets_from offset full
                    ++ [offset + List.length (List.concat full)])).
Proof.
  induction full as [|page full IH]; intros fuel offset collected requested
    Hfull Hserves Hfails Hfuel.
  - destruct fuel as [|fuel]; [simpl in Hfuel; lia|].
    simpl in *. rewrite !Nat.add_0_r in *. now apply fetch_loop_fails.
  - destruct fuel as [|fuel]; [simpl in Hfuel; lia|].
    simpl in Hserves. destruct Hserves as [[data [Hget Hpage]] Hrest].
    inversion Hfull as [|? ? Hpage_full Hfull']; subst.
    rewrite (fetch_loop_full _ _ _ _ _ _ _ _ Hget Hpage Hpage_full).
    rewrite (IH fuel); auto.
    + simpl. rewrite List.length_app. rewrite <- !app_assoc. simpl.
      now rewrite Nat.add_assoc.
    + now rewrite List.length_app, Nat.add_1_r.
    + rewrite List.length_app. simpl in *. rewrite List.length_app in Hfails.
      replace (List.length requested + 1 + List.length full)
        with (List.length requested + S (List.length full)) by lia.
      now rewrite <- Nat.add_assoc.
    + simpl in Hfuel. lia.
Qed.

End PaginationMore.

(** X1.  A call of [fetch_notes] that returns was served full pages followed
    by one short page, asked for at the offsets the pages before add up to;
    it returns those pages concatenated and made one request per page. *)
Theorem fetch_notes_returned :
  forall (http_get : nat -> string -> nat -> response) (invitation : string)
         (fuel : nat) (collected : list json) (requested : list nat),
    fetch_notes http_get fuel invitation = Some (Returned collected requested) ->
    exists full last,
      Forall (fun page => page_size <= List.length page) full
      /\ List.length last < page_size
      /\ serves http_get invitation 0 0 (full ++ [last])
      /\ collected = List.concat full ++ last
      /\ requested = offsets_from 0 (full ++ [last])
      /\ List.length requested = S (List.length full)
      /\ List.length requested <= fuel.
Proof.
  intros http_get invitation fuel collected requested H.
  apply fetch_loop_returned in H.
  destruct H as (full & last & Hfull & Hlast & Hserves & -> & -> & Hfuel).
  exists full, last. simpl. repeat split; auto.
  - rewrite offsets_from_length, List.length_app. simpl. lia.
  - rewrite offsets_from_length, List.length_app. simpl. lia.
Qed.

Lemma fetch_notes_returned_witness :
  exists full last,
    serves (paged_source 450) "V/-/Submission" 0 0 (full ++ [last])
    /\ map record_no (seq 0 450) = List.concat full ++ last.
Proof.
  destruct (fetch_notes_returned (paged_source 450) "V/-/Submission" 3
              (map record_no (seq 0 450)) [0; 200; 400])
    as (full & last & _ & _ & Hserves & Hcollected & _).
  - vm_compute. reflexivity.
  - exists full, last. split; assumption.
Defined.

(** X2.  Against a source that answers every request with a full page,
    [fetch_notes] does not end: no number of requests makes it return or
    raise. *)
Theorem fetch_notes_no_end :
  forall (http_get : nat -> string -> nat -> response) (invitation : string),
    (forall k offset, exists data page,
        http_get k invitation offset = Body data
        /\ page_of data = Some page
        /\ page_size <= List.length page) ->
    forall fuel, fetch_notes http_get fuel invitation = None.
Proof.
  intros http_get invitation Hfull fuel. unfold fetch_notes.
  now apply fetch_loop_endless.
Qed.

Lemma fetch_notes_no_end_witness :
  fetch_notes endless_source 1000 "V/-/Submission" = None.
Proof.
  apply (fetch_notes_no_end endless_source "V/-/Submission").
  intros k offset.
  exists (JDict [("notes", JList (map record_no (seq offset page_size)))]),
    (map record_no (seq offset page_size)).
  split; [reflexivity|]. split.
  - reflexivity.
  - rewrite List.length_map, List.length_seq. apply Nat.le_refl.
Defined.

(** X3.  When a request fails after full pages, [fetch_notes] raises and
    returns none of the records of those pages; the requests it made are the
    pages' and the failed one. *)
Theorem fetch_notes_raises :
  forall (http_get : nat -> string -> nat -> response) (invitation : string)
         (full : list (list json)) (fuel : nat),
    Forall (fun page => page_size <= List.length page) full ->
    serves http_get invitation 0 0 full ->
    fails http_get invitation (List.length full) (List.length (List.concat full)) ->
    List.length full < fuel ->
    fetch_notes http_get fuel invitation
    = Some (Raised (offsets_from 0 full ++ [List.length (List.concat full)])).
Proof.
  intros http_get invitation full fuel Hfull Hserves Hfails Hfuel.
  unfold fetch_notes.
  now rewrite (fetch_loop_raises_after http_get invitation full fuel 0 [] []).
Qed.

Lemma fetch_notes_raises_witness :
  fetch_notes (flaky_source 450) 5 "V/-/Submission" = Some (Raised [0; 200; 400]).
Proof.
  apply (fetch_notes_raises (flaky_source 450) "V/-/Submission"
           [map record_no (seq 0 200); map record_no (seq 200 200)] 5).
  - repeat constructor; rewrite List.length_map, List.length_seq; unfold page_size; lia.
  - simpl. repeat split; eexists; split; reflexivity.
  - left. reflexivity.
  - simpl. lia.
Defined.

(* ------------------------------------------------------------------ *)
(** ** [fetch_submissions_for_group]: one summary for each record id *)

Lemma Qeq_bool_sym (x y : Q) : Qeq_bool x y = Qeq_bool y x.
Proof.
  destruct (Qeq_bool x y) eqn:E, (Qeq_bool y x) eqn:E'; auto.
  - apply Qeq_bool_iff in E. symmetry in E. apply Qeq_bool_iff in E. congruence.
  - apply Qeq_bool_iff in E'. symmetry in E'. apply Qeq_bool_iff in E'. congruence.
Qed.

Lemma Qeq_bool_trans (x y z : Q) :
  Qeq_bool x y = true -> Qeq_bool y z = true -> Qeq_bool x z = true.
Proof.
  rewrite !Qeq_bool_iff. intros -> ->. reflexivity.
Qed.

Lemma key_eqb_refl (a : json) : hashable a = true -> key_eqb a a = true.
Proof.
  destruct a; simpl; try discriminate; intros _; auto.
  - destruct b; reflexivity.
  - apply Qeq_bool_iff. reflexivity.
  - apply Qeq_bool_iff. reflexivity.
  - apply String.eqb_refl.
Qed.

Lemma key_eqb_sym (a b : json) : key_eqb a b = key_eqb b a.
Proof.
  destruct a, b; simpl; auto; try apply Qeq_bool_sym; try apply String.eqb_sym.
Qed.

Lemma key_eqb_trans (a b c : json) :
  key_eqb a b = true -> key_eqb b c = true -> key_eqb a c = true.
Proof.
  destruct a, b; simpl; try discriminate; destruct c; simpl; try discriminate;
    auto; try apply Qeq_bool_trans.
  intros H1 H2. apply String.eqb_eq in H1, H2. subst. apply String.eqb_refl.
Qed.

(** Keys that are the same key compare the same with any third. *)
Lemma key_eqb_same (a b c : json) :
  key_eqb a b = true -> key_eqb a c = key_eqb b c.
Proof.
  intro Hab. destruct (key_eqb a c) eqn:Hac, (key_eqb b c) eqn:Hbc; auto.
  - rewrite key_eqb_sym in Hab.
    rewrite (key_eqb_trans _ _ _ Hab Hac) in Hbc. discriminate.
  - rewrite (key_eqb_trans _ _ _ Hab Hbc) in Hac. discriminate.
Qed.

Lemma dict_set_keys (sid note : json) (seen : list (json * json)) :
  map fst (dict_set sid note seen)
  = if existsb (fun k => key_eqb k sid) (map fst seen)
    then map fst seen else map fst seen ++ [sid].
Proof.
  induction seen as [|[k v] rest IH]; simpl; auto.
  destruct (key_eqb k sid); simpl; auto.
  rewrite IH. now destruct (existsb _ _).
Qed.

Lemma distinct_keys_snoc (keys : list json) (sid : json) :
  distinct_keys keys ->
  existsb (fun k => key_eqb k sid) keys = false ->
  distinct_keys (keys ++ [sid]).
Proof.
  induction keys as [|k rest IH]; simpl; intros Hd Hno.
  - split; auto. intros k' [].
  - apply orb_false_iff in Hno. destruct Hno as [Hk Hrest]. destruct Hd as [Hk' Hd].
    split; auto.
    intros k' Hin. apply in_app_or in Hin. destruct Hin as [Hin | [<- | []]]; auto.
Qed.

Lemma dict_set_distinct (sid note : json) (seen : list (json * json)) :
  distinct_keys (map fst seen) -> distinct_keys (map fst (dict_set sid note seen)).
Proof.
  intro Hd. rewrite dict_set_keys.
  destruct (existsb _ _) eqn:E; auto. now apply distinct_keys_snoc.
Qed.

(** A binding of the dict after [seen[sid] = note] was there before under
    another key, or is the one just set. *)
Lemma dict_set_in (sid note : json) (seen : list (json * json)) (k v : json) :
  hashable sid = true ->
  distinct_keys (map fst seen) ->
  In (k, v) (dict_set sid note seen) ->
  (In (k, v) seen /\ key_eqb k sid = false) \/ (v = note /\ key_eqb k sid = true).
Proof.
  intros Hh. induction seen as [|[k0 v0] rest IH]; simpl; intros Hd Hin.
  - destruct Hin as [[= <- <-] | []]. right. split; auto. now apply key_eqb_refl.
  - destruct Hd as [Hk0 Hd].
    destruct (key_eqb k0 sid) eqn:E.
    + destruct Hin as [[= <- <-] | Hin]; [right; auto|].
      left. split; [now right|].
      assert (Hne : key_eqb k0 k = false)
        by (apply Hk0; change k with (fst (k, v)); now apply in_map).
      now rewrite key_eqb_sym, <- (key_eqb_same _ _ _ E).
    + destruct Hin as [[= <- <-] | Hin]; [left; split; [now left | assumption]|].
      destruct (IH Hd Hin) as [[Hin' Hne] | Hset]; [left; split; [now right | assumption]|].
      now right.
Qed.

Lemma dict_set_has (sid note : json) (seen : list (json * json)) :
  hashable sid = true ->
  exists k, In (k, note) (dict_set sid note seen) /\ key_eqb k sid = true.
Proof.
  intro Hh. induction seen as [|[k0 v0] rest IH]; simpl.
  - exists sid. split; [now left | now apply key_eqb_refl].
  - destruct (key_eqb k0 sid) eqn:E.
    + exists k0. split; [now left | assumption].
    + destruct IH as (k & Hin & Hk). exists k. split; [now right | assumption].
Qed.

Lemma dict_set_keeps (sid note : json) (seen : list (json * json)) (k v : json) :
  In (k, v) seen -> key_eqb k sid = false -> In (k, v) (dict_set sid note seen).
Proof.
  induction seen as [|[k0 v0] rest IH]; simpl; intros Hin Hne; [destruct Hin|].
  destruct Hin as [[= -> ->] | Hin].
  - rewrite Hne. now left.
  - destruct (key_eqb k0 sid); right; auto.
Qed.

(** The dict after the loop of lines 141-143: its keys differ, and each
    value is the last record of its id, or a value the dict had when no
    record has that id. *)
Lemma dedupe_spec (notes : list json) :
  forall seen0 seen,
    dedupe notes seen0 = Some seen ->
    distinct_keys (map fst seen0) ->
    distinct_keys (map fst seen)
    /\ (forall k v,
           In (k, v) seen ->
           (In (k, v) seen0
            /\ forall x, In x notes -> key_eqb k (note_id x) = false)
           \/ exists pre post,
               notes = pre ++ v :: post
               /\ key_eqb k (note_id v) = true
               /\ forall x, In x post -> key_eqb k (note_id x) = false)
    /\ (forall x, In x notes ->
                  exists k v, In (k, v) seen /\ key_eqb k (note_id x) = true)
    /\ (forall k v, In (k, v) seen0 ->
                    exists v', In (k, v') seen).
Proof.
  induction notes as [|note rest IH]; intros seen0 seen Hrun Hd; simpl in Hrun.
  - injection Hrun as <-. repeat split; auto.
    + intros k v Hin. left. split; auto. intros x [].
    + intros x [].
    + intros k v Hin. now exists v.
  - destruct note as [| | | | | |n]; try discriminate. simpl in Hrun.
    destruct (hashable (Py.get n "id")) eqn:Hh; [|discriminate].
    pose proof (dict_set_distinct (Py.get n "id") (JDict n) seen0 Hd) as Hd1.
    destruct (IH _ _ Hrun Hd1) as (Hdist & Hlast & Hall & Hkeep).
    split; [exact Hdist|]. split; [|split].
    + intros k v Hin. destruct (Hlast k v Hin) as [[Hin1 Hnone] | Hsplit].
      * destruct (dict_set_in _ _ _ _ _ Hh Hd Hin1) as [[Hin0 Hne] | [-> Heq]].
        -- left. split; auto. intros x [<- | Hx]; auto.
        -- right. exists [], rest. repeat split; auto.
      * destruct Hsplit as (pre & post & -> & Hk & Hpost).
        right. exists (JDict n :: pre), post. repeat split; auto.
    + intros x [<- | Hx]; [|now apply Hall].
      destruct (dict_set_has (Py.get n "id") (JDict n) seen0 Hh) as (k & Hin & Hk).
      destruct (Hkeep k _ Hin) as (v' & Hin').
      exists k, v'. split; auto.
    + intros k v Hin.
      destruct (key_eqb k (Py.get n "id")) eqn:E.
      * assert (Hex : exists v1, In (k, v1) (dict_set (Py.get n "id") (JDict n) seen0)).
        { clear - Hin E. induction seen0 as [|[k0 v0] r IHr]; [destruct Hin|].
          simpl. destruct Hin as [[= -> ->] | Hin].
          - rewrite E. eexists. now left.
          - destruct (key_eqb k0 (Py.get n "id")).
            + exists v. now right.
            + destruct (IHr Hin) as (v1 & H1). exists v1. now right. }
        destruct Hex as (v1 & H1). now apply (Hkeep k v1).
      * apply (Hkeep k v). now apply dict_set_keeps.
Qed.

Lemma distinct_ids (seen : list (json * json)) :
  distinct_keys (map fst seen) ->
  (forall k v, In (k, v) seen -> key_eqb k (note_id v) = true) ->
  distinct_keys (map (fun kv => note_id (snd kv)) seen).
Proof.
  induction seen as [|[k v] rest IH]; simpl; auto.
  intros [Hk Hd] Hid. split.
  - intros id' Hin. apply in_map_iff in Hin. destruct Hin as ([k' v'] & <- & Hin).
    simpl.
    assert (Hkv : key_eqb k (note_id v) = true) by (apply Hid; now left).
    assert (Hkv' : key_eqb k' (note_id v') = true) by (apply Hid; now right).
    assert (Hne : key_eqb k k' = false)
      by (apply Hk; change k' with (fst (k', v')); now apply in_map).
    rewrite <- (key_eqb_same _ _ _ Hkv), key_eqb_sym, <- (key_eqb_same _ _ _ Hkv').
    now rewrite key_eqb_sym.
  - apply IH; [assumption|]. intros k' v' Hin. apply Hid. now right.
Qed.

Section SubmissionsFacts.

Variable repr : json -> string.
Variable float_sum : list Binary64.float -> Binary64.float.
Variable client : nat -> nat -> string -> nat -> response.

Lemma summarize_all_spec (notes : list json) :
  forall result,
    summarize_all repr float_sum notes = Some result ->
    Forall2 (fun v s => summarize repr float_sum v = Some s) notes result.
Proof.
  induction notes as [|note rest IH]; intros result H; simpl in H.
  - injection H as <-. constructor.
  - destruct (summarize repr float_sum note) as [s|] eqn:Hs; [|discriminate].
    destruct (summarize_all repr float_sum rest) as [l|]; [|discriminate].
    injection H as <-. constructor; auto.
Qed.

Lemma summarize_note_id (v : json) (s : SubmissionSummary.t) :
  summarize repr float_sum v = Some s -> SubmissionSummary.note s = note_id v.
Proof.
  intro H. destruct (summarize_fields repr float_sum v s H) as (n & direct & -> & _ & _ & Hn & _).
  exact Hn.
Qed.

Lemma summarize_all_notes (notes : list json) (result : list SubmissionSummary.t) :
  summarize_all repr float_sum notes = Some result ->
  map SubmissionSummary.note result = map note_id notes.
Proof.
  intro H. apply summarize_all_spec in H.
  induction H as [|v s notes result Hs _ IH]; simpl; auto.
  now rewrite IH, (summarize_note_id _ _ Hs).
Qed.

(** What the call returns in terms of the records gathered. *)
Lemma fetch_submissions_result (fuel : nat) (group_id : string)
    (result : list SubmissionSummary.t) (asked : list string) :
  fetch_submissions_for_group repr float_sum client fuel group_id = Some (Summaries result asked) ->
  result = []
  \/ exists notes seen,
      dedupe notes [] = Some seen
      /\ summarize_all repr float_sum (map snd seen) = Some result.
Proof.
  unfold fetch_submissions_for_group.
  destruct (gather _ _ _ _ _ _) as [[notes asked0|asked0]|]; try discriminate.
  destruct (match notes with
            | [] => gather client fuel group_id FALLBACK_INVITATIONS notes asked0
            | _ :: _ => Some (Gathered notes asked0)
            end) as [[notes' asked'|asked']|]; try discriminate.
  destruct notes' as [|x notes']; [intros [= <- <-]; now left|].
  destruct (dedupe (x :: notes') []) as [seen|] eqn:Hd; [|discriminate].
  destruct (summarize_all repr float_sum (map snd seen)) as [l|] eqn:Hs; [|discriminate].
  intros [= <- <-]. right. now exists (x :: notes'), seen.
Qed.

Lemma fetch_submissions_primary (fuel : nat) (group_id : string)
    (notes : list json) (asked : list string) :
  gather client fuel group_id DEFAULT_INVITATIONS [] [] = Some (Gathered notes asked) ->
  notes <> [] ->
  fetch_submissions_for_group repr float_sum client fuel group_id
  = match dedupe notes [] with
    | None => Some (SubmissionsRaised asked)
    | Some seen =>
        match summarize_all repr float_sum (map snd seen) with
        | None => Some (SubmissionsRaised asked)
        | Some result => Some (Summaries result asked)
        end
    end.
Proof.
  intros Hg Hne. unfold fetch_submissions_for_group. rewrite Hg.
  destruct notes as [|x notes]; [contradiction|]. reflexivity.
Qed.

Lemma gather_asked (fuel : nat) (group_id : string) (invitations : list string) :
  forall notes asked notes' asked',
    gather client fuel group_id invitations notes asked = Some (Gathered notes' asked') ->
    asked' = asked ++ map (fun invite => (group_id ++ "/-/" ++ invite)%string) invitations.
Proof.
  induction invitations as [|invite rest IH]; intros notes asked notes' asked' H;
    simpl in H.
  - injection H as <- <-. now rewrite app_nil_r.
  - destruct (fetch_notes _ _ _) as [[page requested|requested]|]; try discriminate.
    apply IH in H. rewrite H. now rewrite <- app_assoc.
Qed.

End SubmissionsFacts.

(** X4.  The summaries [fetch_submissions_for_group] returns have distinct
    note ids: no two of them are the same dict key. *)
Theorem submissions_distinct_ids :
  forall (repr : json -> string) (float_sum : list Binary64.float -> Binary64.float)
         (client : nat -> nat -> string -> nat -> response)
         (fuel : nat) (group_id : string) (result : list SubmissionSummary.t)
         (asked : list string),
    fetch_submissions_for_group repr float_sum client fuel group_id = Some (Summaries result asked) ->
    distinct_keys (map SubmissionSummary.note result).
Proof.
  intros repr float_sum client fuel group_id result asked H.
  apply fetch_submissions_result in H.
  destruct H as [-> | (notes & seen & Hd & Hs)]; [exact I|].
  rewrite (summarize_all_notes _ _ _ _ Hs), map_map.
  destruct (dedupe_spec notes [] seen Hd I) as (Hdist & Hlast & _).
  apply distinct_ids; auto.
  intros k v Hin. destruct (Hlast k v Hin) as [[[] _] | (pre & post & _ & Hk & _)].
  exact Hk.
Qed.

Lemma submissions_distinct_ids_witness :
  distinct_keys [JStr "a"; JStr "b"; JStr "c"].
Proof.
  apply (submissions_distinct_ids example_repr plain_sum example_client 1 "V"
           [SubmissionSummary.mk (JStr "a") (JStr "a") (JStr "First") JNull EmptyString []
              None None 0;
            SubmissionSummary.mk (JStr "b") (JStr "b") (JStr "Second, again") JNull
              EmptyString [] None None 0;
            SubmissionSummary.mk (JStr "c") (JStr "c") (JStr "Third") JNull EmptyString []
              None None 0]
           ["V/-/Blind_Submission"; "V/-/Submission"]).
  vm_compute. reflexivity.
Defined.

(** X5.  When the fetches of the default invitations return records, the
    fallback invitation is not asked for; every record fetched has a summary
    of its id in the result, and every summary of the result is that of the
    last record fetched with its id. *)
Theorem submissions_last_copy :
  forall (repr : json -> string) (float_sum : list Binary64.float -> Binary64.float)
         (client : nat -> nat -> string -> nat -> response)
         (fuel : nat) (group_id : string) (notes : list json) (asked asked' : list string)
         (result : list SubmissionSummary.t),
    gather client fuel group_id DEFAULT_INVITATIONS [] [] = Some (Gathered notes asked) ->
    notes <> [] ->
    fetch_submissions_for_group repr float_sum client fuel group_id = Some (Summaries result asked') ->
    asked' = [(group_id ++ "/-/Blind_Submission")%string; (group_id ++ "/-/Submission")%string]
    /\ (forall x, In x notes ->
                  exists s, In s result
                            /\ key_eqb (SubmissionSummary.note s) (note_id x) = true)
    /\ (forall s, In s result ->
                  exists pre v post,
                    notes = pre ++ v :: post
                    /\ summarize repr float_sum v = Some s
                    /\ forall x, In x post -> key_eqb (note_id v) (note_id x) = false).
Proof.
  intros repr float_sum client fuel group_id notes asked asked' result Hg Hne Hrun.
  rewrite (fetch_submissions_primary repr float_sum _ _ _ _ _ Hg Hne) in Hrun.
  destruct (dedupe notes []) as [seen|] eqn:Hd; [|discriminate].
  destruct (summarize_all repr float_sum (map snd seen)) as [l|] eqn:Hs; [|discriminate].
  injection Hrun as <- <-.
  destruct (dedupe_spec notes [] seen Hd I) as (_ & Hlast & Hall & _).
  pose proof (summarize_all_spec _ _ _ _ Hs) as Hpairs.
  split; [apply (gather_asked _ _ _ _ _ _ _ _ Hg)|]. split.
  - intros x Hx. destruct (Hall x Hx) as (k & v & Hin & Hk).
    destruct (Hlast k v Hin) as [[[] _] | (pre & post & _ & Hkv & _)].
    assert (Hv : In v (map snd seen))
      by (change v with (snd (k, v)); now apply in_map).
    clear - Hpairs Hv Hk Hkv.
    induction Hpairs as [|v0 s0 vs ss Hs0 _ IH]; [destruct Hv|].
    destruct Hv as [-> | Hv].
    + exists s0. split; [now left|].
      rewrite (summarize_note_id _ _ _ _ Hs0).
      rewrite <- (key_eqb_same _ _ _ Hkv). exact Hk.
    + destruct (IH Hv) as (s & Hin & Hs). exists s. split; [now right | assumption].
  - intros s Hs'.
    destruct (Forall2_in_r _ _ _ _ Hpairs Hs') as (v & Hv & Hsum).
    apply in_map_iff in Hv. destruct Hv as ([k v'] & <- & Hin). simpl in *.
    destruct (Hlast k v' Hin) as [[[] _] | (pre & post & -> & Hkv & Hpost)].
    exists pre, v', post. repeat split; auto.
    intros x Hx. rewrite <- (key_eqb_same _ _ _ Hkv). now apply Hpost.
Qed.

Lemma submissions_last_copy_witness :
  exists pre v post,
    [note_of "a" "First"; note_of "b" "Second"; note_of "b" "Second, again";
     note_of "c" "Third"]
    = pre ++ v :: post
    /\ summarize example_repr plain_sum v
       = Some (SubmissionSummary.mk (JStr "b") (JStr "b") (JStr "Second, again") JNull
                 EmptyString [] None None 0)
    /\ forall x, In x post -> key_eqb (note_id v) (note_id x) = false.
Proof.
  destruct (submissions_last_copy example_repr plain_sum example_client 1 "V"
              [note_of "a" "First"; note_of "b" "Second"; note_of "b" "Second, again";
               note_of "c" "Third"]
              ["V/-/Blind_Submission"; "V/-/Submission"]
              ["V/-/Blind_Submission"; "V/-/Submission"]
              [SubmissionSummary.mk (JStr "a") (JStr "a") (JStr "First") JNull EmptyString
                 [] None None 0;
               SubmissionSummary.mk (JStr "b") (JStr "b") (JStr "Second, again") JNull
                 EmptyString [] None None 0;
               SubmissionSummary.mk (JStr "c") (JStr "c") (JStr "Third") JNull EmptyString
                 [] None None 0])
    as (_ & _ & Hlast).
  - vm_compute. reflexivity.
  - discriminate.
  - vm_compute. reflexivity.
  - apply Hlast. right. now left.
Defined.

(** X6.  When the three fetches of a group, two for the default invitations
    and one for the fallback, return no record, the call returns the empty
    list; and when a fetch raises after another returned records, the call
    raises and those records are lost. *)
Theorem submissions_empty_or_raised :
  forall (repr : json -> string) (float_sum : list Binary64.float -> Binary64.float)
         (client : nat -> nat -> string -> nat -> response)
         (fuel : nat) (group_id : string),
    let blind := (group_id ++ "/-/Blind_Submission")%string in
    let plain := (group_id ++ "/-/Submission")%string in
    (forall r0 r1 r2,
        fetch_notes (client 0) fuel blind = Some (Returned [] r0) ->
        fetch_notes (client 1) fuel plain = Some (Returned [] r1) ->
        fetch_notes (client 2) fuel plain = Some (Returned [] r2) ->
        fetch_submissions_for_group repr float_sum client fuel group_id
        = Some (Summaries [] [blind; plain; plain]))
    /\ (forall page r0 r1,
           fetch_notes (client 0) fuel blind = Some (Returned page r0) ->
           fetch_notes (client 1) fuel plain = Some (Raised r1) ->
           fetch_submissions_for_group repr float_sum client fuel group_id
           = Some (SubmissionsRaised [blind; plain])).
Proof.
  intros repr float_sum client fuel group_id blind plain. split.
  - intros r0 r1 r2 H0 H1 H2. unfold fetch_submissions_for_group. simpl.
    fold blind plain. rewrite H0. simpl. fold plain. rewrite H1. simpl.
    fold plain. now rewrite H2.
  - intros page r0 r1 H0 H1. unfold fetch_submissions_for_group. simpl.
    fold blind plain. rewrite H0. simpl. fold plain. now rewrite H1.
Qed.

Lemma submissions_empty_or_raised_witness :
  fetch_submissions_for_group example_repr plain_sum (fun i => paged_source 0) 1 "V"
  = Some (Summaries [] ["V/-/Blind_Submission"; "V/-/Submission"; "V/-/Submission"]).
Proof.
  apply (proj1 (submissions_empty_or_raised example_repr plain_sum (fun i => paged_source 0) 1 "V")
           [0] [0] [0]); reflexivity.
Defined.

(* ------------------------------------------------------------------ *)
(** ** [summarize]: when it raises *)

Lemma replies_loop_none (repr : json -> string) (direct : list json) :
  forall ratings decision,
    replies_loop repr direct ratings decision = None <-> forallb reply_ok direct = false.
Proof.
  induction direct as [|reply rest IH]; intros ratings decision; simpl.
  - split; discriminate.
  - unfold reply_step, reply_ok.
    destruct (Py.as_dict reply) as [r|]; [|simpl; tauto].
    destruct (Py.as_dict (Py.or_ _ _)) as [rcontent|]; [|simpl; tauto].
    destruct (Py.str_in _ _) as [b|]; [|simpl; tauto].
    simpl. apply IH.
Qed.

Lemma summarize_none (repr : json -> string)
    (float_sum : list Binary64.float -> Binary64.float) (note : json) :
  summarize repr float_sum note = None <-> note_ok note = false.
Proof.
  unfold summarize, note_ok.
  destruct (Py.as_dict note) as [n|]; [|tauto].
  destruct (Py.as_dict (Py.or_ (Py.get_default n "content" _) _)) as [content|]; [|tauto].
  destruct (Py.as_dict (Py.get_default n "details" _)) as [details|]; [|tauto].
  destruct (Py.iter _) as [direct|]; [|tauto].
  pose proof (replies_loop_none repr direct [] None) as Hloop.
  destruct (replies_loop repr direct [] None) as [[ratings decision]|].
  - split; [discriminate|]. intro H. apply Hloop in H. discriminate.
  - split; auto. intros _. now apply Hloop.
Qed.

(** X8.  [summarize] raises exactly on a record of the wrong shape: one that
    is no dict, or whose content is truthy and no dict, or whose details is
    present and no dict (null included), or whose direct replies cannot be
    iterated, or one of whose replies is no dict, has a truthy content that
    is no dict, or has an invitation that is neither string, list nor dict.
    No rating value, decision value or keyword makes it raise. *)
Theorem summarize_raises_on_shape :
  forall (repr : json -> string) (float_sum : list Binary64.float -> Binary64.float),
    (forall note, summarize repr float_sum note = None <-> note_ok note = false)
    /\ (forall n v,
           Py.lookup "details" n = Some v ->
           Py.as_dict v = None ->
           summarize repr float_sum (JDict n) = None)
    /\ (forall n,
           Py.lookup "details" n = None ->
           Py.truthy (Py.get n "content") = false ->
           summarize repr float_sum (JDict n)
           = Some (SubmissionSummary.mk (Py.or_ (Py.get n "forum") (Py.get n "id"))
                     (Py.get n "id") (JStr EmptyString) JNull EmptyString [] None None 0)).
Proof.
  intros repr float_sum. split; [|split].
  - apply summarize_none.
  - intros n v Hv Hd. apply summarize_none. unfold note_ok. simpl.
    unfold Py.get_default at 2. rewrite Hv, Hd.
    now destruct (Py.as_dict (Py.or_ _ _)).
  - intros n Hd Hc.
    assert (Hor : Py.or_ (Py.get_default n "content" (JDict [])) (JDict []) = JDict []).
    { unfold Py.or_, Py.get, Py.get_default in *.
      destruct (Py.lookup "content" n); [now rewrite Hc | reflexivity]. }
    assert (Hdet : Py.get_default n "details" (JDict []) = JDict [])
      by (unfold Py.get_default; now rewrite Hd).
    unfold summarize. cbn [Py.as_dict]. rewrite Hor, Hdet. reflexivity.
Qed.

Lemma summarize_raises_on_shape_witness :
  summarize example_repr plain_sum (JDict [("id", JStr "n1"); ("details", JNull)]) = None.
Proof.
  apply (proj1 (proj2 (summarize_raises_on_shape example_repr plain_sum))
           [("id", JStr "n1"); ("details", JNull)] JNull); reflexivity.
Defined.

(* ------------------------------------------------------------------ *)
(** ** [extract_keywords] *)

Lemma lstrip_chars (s : string) (c : ascii) :
  In c (chars_of (PyStr.lstrip s)) -> In c (chars_of s).
Proof.
  induction s as [|a r IH]; simpl; auto.
  destruct (PyStr.isspace a); simpl; auto.
Qed.

Lemma rstrip_chars (s : string) (c : ascii) :
  In c (chars_of (PyStr.rstrip s)) -> In c (chars_of s).
Proof.
  induction s as [|a r IH]; simpl; auto.
  destruct (PyStr.is_empty (PyStr.rstrip r) && PyStr.isspace a); simpl.
  - intros [].
  - intros [H | H]; auto.
Qed.

Lemma strip_chars (s : string) (c : ascii) :
  In c (chars_of (PyStr.strip s)) -> In c (chars_of s).
Proof.
  unfold PyStr.strip. intro H. now apply lstrip_chars, rstrip_chars.
Qed.

Lemma rstrip_idem (s : string) : PyStr.rstrip (PyStr.rstrip s) = PyStr.rstrip s.
Proof.
  induction s as [|a r IH]; simpl; auto.
  destruct (PyStr.is_empty (PyStr.rstrip r) && PyStr.isspace a) eqn:E; simpl; auto.
  now rewrite IH, E.
Qed.

Lemma lstrip_rstrip (s : string) :
  PyStr.lstrip (PyStr.rstrip (PyStr.lstrip s)) = PyStr.rstrip (PyStr.lstrip s).
Proof.
  induction s as [|a r IH]; simpl; auto.
  destruct (PyStr.isspace a) eqn:Ha; auto.
  simpl. rewrite Ha, andb_false_r. simpl. now rewrite Ha.
Qed.

(** [strip] leaves a stripped string as it is. *)
Lemma strip_idem (s : string) : PyStr.strip (PyStr.strip s) = PyStr.strip s.
Proof.
  unfold PyStr.strip. now rewrite lstrip_rstrip, rstrip_idem.
Qed.

Lemma chars_of_snoc (cur : string) (c : ascii) :
  chars_of (cur ++ String c EmptyString) = chars_of cur ++ [c].
Proof.
  unfold chars_of. induction cur as [|a r IH]; simpl; auto. now rewrite IH.
Qed.

(** The pieces [split_on] cuts are free of the separator and made of the
    characters of the string. *)
Lemma split_on_pieces (sep : ascii) (s : string) :
  forall cur piece,
    In piece (PyStr.split_on sep s cur) ->
    (~ In sep (chars_of cur) -> ~ In sep (chars_of piece))
    /\ forall c, In c (chars_of piece) -> In c (chars_of cur) \/ In c (chars_of s).
Proof.
  induction s as [|a r IH]; intros cur piece Hin; simpl in Hin.
  - destruct Hin as [<- | []]. split; auto.
  - destruct (Ascii.eqb a sep) eqn:Ha.
    + destruct Hin as [<- | Hin]; [split; auto|].
      destruct (IH _ _ Hin) as [Hsep Hchars]. split.
      * intros _. apply Hsep. intros [].
      * intros c Hc. destruct (Hchars c Hc) as [[] | H]. right. now right.
    + apply Ascii.eqb_neq in Ha.
      destruct (IH _ _ Hin) as [Hsep Hchars]. split.
      * intro Hcur. apply Hsep. rewrite chars_of_snoc. intro H.
        apply in_app_or in H. destruct H as [H | [H | []]]; auto.
      * intros c Hc. destruct (Hchars c Hc) as [H | H].
        -- rewrite chars_of_snoc in H. apply in_app_or in H.
           destruct H as [H | [<- | []]]; auto. right. now left.
        -- right. now right.
Qed.

Lemma replace_char_gone (a b : ascii) (s : string) :
  a <> b -> ~ In a (chars_of (PyStr.replace_char a b s)).
Proof.
  intro Hab. induction s as [|c r IH]; simpl; auto.
  intros [H | H]; auto.
  destruct (Ascii.eqb c a) eqn:E.
  - congruence.
  - apply Ascii.eqb_neq in E. congruence.
Qed.

Section KeywordFacts.

Variable repr : json -> string.

Lemma keywords_from_stripped (keys : list string) (content : list (string * json)) (w : string) :
  In w (keywords_from repr keys content) -> PyStr.strip w = w.
Proof.
  induction keys as [|k rest IH]; simpl; [intros []|].
  destruct (Py.lookup k content) as [[| | | |s|l|d]|]; auto.
  - intro H. apply filter_In in H. destruct H as [H _].
    apply in_map_iff in H. destruct H as (piece & <- & _). apply strip_idem.
  - intro H. apply in_map_iff in H. destruct H as (v & <- & _). apply strip_idem.
Qed.

Lemma keywords_from_tokens (keys : list string) (content : list (string * json)) (w : string) :
  (forall k, In k keys -> has_list (Py.lookup k content) = false) ->
  In w (keywords_from repr keys content) ->
  w <> EmptyString
  /\ ~ In ","%char (chars_of w)
  /\ ~ In ";"%char (chars_of w).
Proof.
  induction keys as [|k rest IH]; simpl; [intros _ []|].
  intros Hlists.
  assert (Hk : has_list (Py.lookup k content) = false) by (apply Hlists; now left).
  assert (Hrest : forall k', In k' rest -> has_list (Py.lookup k' content) = false)
    by (intros k' Hk'; apply Hlists; now right).
  destruct (Py.lookup k content) as [[| | | |s|l|d]|]; auto; [|discriminate].
  intro H. apply filter_In in H. destruct H as [H Hne].
  apply in_map_iff in H. destruct H as (piece & <- & Hpiece).
  destruct (split_on_pieces _ _ _ _ Hpiece) as [Hsep Hchars].
  repeat split.
  - intro E. rewrite E in Hne. discriminate.
  - intro Hc. apply strip_chars in Hc. now apply Hsep.
  - intro Hc. apply strip_chars in Hc.
    destruct (Hchars _ Hc) as [[] | H].
    revert H. apply replace_char_gone. discriminate.
Qed.

Lemma keywords_from_skips (pre : list string) :
  forall (content : list (string * json)) (rest : list string),
    (forall k, In k pre -> yields (Py.lookup k content) = false) ->
    keywords_from repr (pre ++ rest) content = keywords_from repr rest content.
Proof.
  induction pre as [|k pre IH]; intros content rest Hpre; simpl; auto.
  assert (Hk : yields (Py.lookup k content) = false) by (apply Hpre; now left).
  destruct (Py.lookup k content) as [[| | | |s|l|d]|]; try discriminate;
    apply IH; intros k' Hk'; apply Hpre; now right.
Qed.

End KeywordFacts.

(** X9.  Every keyword [extract_keywords] returns is stripped of leading and
    trailing whitespace; when no keyword field of the content is a list, so
    that the keywords come from a string, none of them is empty and none
    contains a comma or a semicolon. *)
Theorem keywords_are_tokens :
  forall (repr : json -> string) (content : list (string * json)) (w : string),
    In w (extract_keywords repr content) ->
    PyStr.strip w = w
    /\ ((forall k, In k keyword_keys -> has_list (Py.lookup k content) = false) ->
        w <> EmptyString
        /\ ~ In ","%char (chars_of w)
        /\ ~ In ";"%char (chars_of w)).
Proof.
  intros repr content w Hw. split.
  - now apply (keywords_from_stripped repr keyword_keys content).
  - intro Hlists. now apply (keywords_from_tokens repr keyword_keys content).
Qed.

Lemma keywords_are_tokens_witness :
  PyStr.strip "Safety" = "Safety"
  /\ ((forall k, In k keyword_keys
                 -> has_list (Py.lookup k [("Keywords", JStr " LLM ;; Safety, ,RLHF")])
                    = false) ->
      "Safety" <> EmptyString
      /\ ~ In ","%char (chars_of "Safety")
      /\ ~ In ";"%char (chars_of "Safety")).
Proof.
  apply (keywords_are_tokens example_repr [("Keywords", JStr " LLM ;; Safety, ,RLHF")]).
  vm_compute. right. now left.
Defined.

(** X10.  [extract_keywords] passes over a keyword field that is missing or
    holds neither a list nor a string: the result is empty when no field of
    the five holds one, and otherwise it is read from the first of the five,
    in their order, that does, as if the content had that field alone. *)
Theorem keywords_first_usable_field :
  forall (repr : json -> string) (content : list (string * json)),
    ((forall k, In k keyword_keys -> yields (Py.lookup k content) = false) ->
     extract_keywords repr content = [])
    /\ (forall pre k post v,
           keyword_keys = pre ++ k :: post ->
           (forall k', In k' pre -> yields (Py.lookup k' content) = false) ->
           Py.lookup k content = Some v ->
           yields (Some v) = true ->
           extract_keywords repr content = extract_keywords repr [(k, v)]).
Proof.
  intros repr content. split.
  - intro Hnone. unfold extract_keywords.
    rewrite <- (app_nil_r keyword_keys). now rewrite keywords_from_skips.
  - intros pre k post v Hkeys Hpre Hk Hv. unfold extract_keywords.
    rewrite Hkeys at 1. rewrite keywords_from_skips by assumption.
    assert (Hhead : forall keys, keywords_from repr (k :: keys) content
                                 = keywords_from repr [k] [(k, v)]).
    { intro keys. simpl. rewrite Hk, String.eqb_refl.
      destruct v as [| | | |s|l|d]; try discriminate; reflexivity. }
    rewrite Hhead.
    unfold keyword_keys in Hkeys.
    destruct pre as [|k1 [|k2 [|k3 [|k4 [|k5 pre]]]]]; simpl in Hkeys;
      injection Hkeys; intros; subst; simpl;
      destruct v as [| | | |s|l|d]; try discriminate; try reflexivity.
    all: destruct pre; discriminate.
Qed.

Lemma keywords_first_usable_field_witness :
  extract_keywords example_repr [("keywords", JInt 3); ("Keywords", JStr "LLM; Safety")]
  = extract_keywords example_repr [("Keywords", JStr "LLM; Safety")].
Proof.
  apply (proj2 (keywords_first_usable_field example_repr
                  [("keywords", JInt 3); ("Keywords", JStr "LLM; Safety")])
           ["keywords"] "Keywords" ["key_areas"; "Key Areas"; "Key Area(s)"]
           (JStr "LLM; Safety")).
  - reflexivity.
  - intros k' [<- | []]. reflexivity.
  - reflexivity.
  - reflexivity.
Defined.

(* ------------------------------------------------------------------ *)
(** ** [parse_rating] *)

(** Rounding a mantissa that is not negative gives a float that is neither
    negative nor NaN. *)
Lemma shr_1_nonneg (mrs : shr_record) :
  (0 <= shr_m mrs)%Z -> (0 <= shr_m (shr_1 mrs))%Z.
Proof.
  destruct mrs as [m r s]. simpl. intro H.
  destruct m as [|p|p]; simpl; try lia.
  destruct p; simpl; lia.
Qed.

Lemma iter_shr_1_nonneg (n : positive) :
  forall mrs, (0 <= shr_m mrs)%Z -> (0 <= shr_m (iter_pos shr_1 n mrs))%Z.
Proof.
  induction n as [n IH|n IH|]; intros mrs H; simpl.
  - apply IH, IH. now apply shr_1_nonneg.
  - now apply IH, IH.
  - now apply shr_1_nonneg.
Qed.

Lemma shr_fexp_nonneg (m e : Z) (l : location) :
  (0 <= m)%Z -> (0 <= shr_m (fst (shr_fexp Binary64.prec Binary64.emax m e l)))%Z.
Proof.
  intro H. unfold shr_fexp, shr.
  assert (H0 : (0 <= shr_m (shr_record_of_loc m l))%Z)
    by (destruct l as [|[]]; simpl; auto).
  destruct (_ - e)%Z; simpl; auto.
  now apply iter_shr_1_nonneg.
Qed.

Lemma round_nearest_even_nonneg (m : Z) (l : location) :
  (0 <= m)%Z -> (0 <= round_nearest_even m l)%Z.
Proof.
  intro H. destruct l as [|[]]; simpl; try lia.
  destruct (Z.even m); lia.
Qed.

Lemma binary_round_aux_nonneg (m e : Z) (l : location) :
  (0 <= m)%Z -> sign_free (binary_round_aux Binary64.prec Binary64.emax false m e l).
Proof.
  intro H. unfold binary_round_aux.
  pose proof (shr_fexp_nonneg m e l H) as H1.
  destruct (shr_fexp Binary64.prec Binary64.emax m e l) as [mrs' e'].
  simpl in H1.
  pose proof (shr_fexp_nonneg _ e' loc_Exact
                (round_nearest_even_nonneg _ (loc_of_shr_record mrs') H1)) as H2.
  destruct (shr_fexp Binary64.prec Binary64.emax _ e' loc_Exact) as [mrs'' e''].
  simpl in H2.
  destruct (shr_m mrs'') as [|p|p]; simpl; auto; try lia.
  now destruct (Z.leb e'' _).
Qed.

Lemma div_core_nonneg (m1 m2 : positive) (e1 e2 : Z) :
  (0 <= fst (fst (SFdiv_core_binary Binary64.prec Binary64.emax
                    (Z.pos m1) e1 (Z.pos m2) e2)))%Z.
Proof.
  unfold SFdiv_core_binary.
  match goal with
  | |- context [Z.div_eucl ?a ?b] =>
      assert (Ha : (0 <= a)%Z);
      [|pose proof (Z_div_mod a b eq_refl) as Hm; destruct (Z.div_eucl a b) as [q r]]
  end.
  - match goal with |- context [match ?s with _ => _ end] => destruct s end; try lia.
    apply Z.shiftl_nonneg. lia.
  - simpl. destruct Hm as [Hq Hr]. nia.
Qed.

(** The float nearest to a ratio that is not negative is not negative. *)
Lemma of_ratio_nonneg (n : N) (d : positive) :
  sign_free (Binary64.of_ratio (Z.of_N n) d).
Proof.
  destruct n as [|p]; simpl; [reflexivity|].
  unfold SFdiv.
  pose proof (div_core_nonneg p d 0 0) as H.
  destruct (SFdiv_core_binary Binary64.prec Binary64.emax (Z.pos p) 0 (Z.pos d) 0)
    as [[mz ez] lz].
  now apply binary_round_aux_nonneg.
Qed.

Lemma sign_free_leb (f : Binary64.float) :
  sign_free f -> Binary64.leb Binary64.zero f = true.
Proof.
  destruct f as [s|s| |s m e]; simpl; intro H; try subst s; try reflexivity.
  destruct H.
Qed.

Lemma read_token_nonneg (s : string) :
  forall num scale point digit f,
    Binary64.read_token s num scale point digit = Some f -> sign_free f.
Proof.
  induction s as [|c r IH]; intros num scale point digit f H; simpl in H.
  - destruct digit; [|discriminate]. injection H as <-. apply of_ratio_nonneg.
  - destruct (PyStr.isdecimal c); [now apply IH in H|].
    destruct (Ascii.eqb c "."%char && negb point); [now apply IH in H | discriminate].
Qed.

Lemma skip_to_token_none (s : string) :
  (forall c, In c (chars_of s) -> PyStr.isdigit c = false /\ c <> "."%char) ->
  skip_to_token s = EmptyString.
Proof.
  induction s as [|c r IH]; intro H; simpl; auto.
  destruct (H c (or_introl eq_refl)) as [Hd Hp].
  apply Ascii.eqb_neq in Hp. rewrite Hd, Hp. simpl.
  apply IH. intros c' Hc'. apply H. now right.
Qed.

Lemma parse_rating_text (repr : json -> string) (v : json) :
  is_number v = false -> v <> JNull ->
  parse_rating repr v = Binary64.of_token (rating_token (str repr v)).
Proof.
  intros Hn Hv. unfold parse_rating.
  destruct v; try discriminate; try contradiction;
    rewrite scan_rating_token; now destruct (rating_token _).
Qed.

(** X11.  A sample parsed from a value that is no number is never negative
    (nor NaN), and a string without a digit or a point gives no sample: a
    negative sample can only be a JSON number. *)
Theorem parse_rating_sign :
  forall (repr : json -> string),
    (forall v pr,
        parse_rating repr v = Some pr -> is_number v = false ->
        Binary64.leb Binary64.zero pr = true)
    /\ (forall s,
           (forall c, In c (chars_of s) -> PyStr.isdigit c = false /\ c <> "."%char) ->
           parse_rating repr (JStr s) = None).
Proof.
  intro repr. split.
  - intros v pr H Hn. apply sign_free_leb.
    destruct v as [| | | | s | l | d]; try discriminate;
      rewrite parse_rating_text in H by (auto; discriminate);
      now apply read_token_nonneg in H.
  - intros s Hs. rewrite parse_rating_text by (auto; discriminate).
    simpl. unfold rating_token. now rewrite skip_to_token_none.
Qed.

Lemma parse_rating_sign_witness :
  Binary64.leb Binary64.zero (whole 3) = true
  /\ parse_rating example_repr (JStr "N/A") = None.
Proof.
  split.
  - apply (proj1 (parse_rating_sign example_repr) (JStr "-3: reject") (whole 3));
      reflexivity.
  - apply (proj2 (parse_rating_sign example_repr) "N/A").
    intros c [<- | [<- | [<- | []]]]; split; (reflexivity || discriminate).
Defined.

Lemma uint_value_pos (d : Decimal.uint) :
  forall p, uint_value d (N.pos p) = N.pos (Pos.of_uint_acc d p).
Proof.
  induction d; intro p; cbn [uint_value Pos.of_uint_acc]; auto;
    match goal with
    | |- uint_value _ ?n = N.pos (Pos.of_uint_acc _ ?q) =>
        replace n with (N.pos q) by lia; auto
    end.
Qed.

Lemma uint_value_of_uint (d : Decimal.uint) : uint_value d 0 = N.of_uint d.
Proof.
  unfold N.of_uint. induction d; cbn [uint_value Pos.of_uint]; auto;
    apply uint_value_pos.
Qed.

Lemma take_token_digits (d : Decimal.uint) (rest : string) :
  ends_token rest ->
  forall point,
    take_token (NilEmpty.string_of_uint d ++ rest) point = NilEmpty.string_of_uint d.
Proof.
  intros Hrest. induction d; intro point; simpl;
    try (change (PyStr.isdigit _) with true; cbv iota; now rewrite IHd).
  destruct rest as [|c r]; simpl; auto.
  destruct Hrest as [Hd Hp]. apply Ascii.eqb_neq in Hp. now rewrite Hd, Hp.
Qed.

Lemma read_token_digits (d : Decimal.uint) :
  forall num scale digit,
    Binary64.read_token (NilEmpty.string_of_uint d) num scale false digit
    = match d with
      | Decimal.Nil => if digit then Some (Binary64.of_ratio (Z.of_N num) scale) else None
      | _ => Some (Binary64.of_ratio (Z.of_N (uint_value d num)) scale)
      end.
Proof.
  induction d; intros num scale digit; cbn [NilEmpty.string_of_uint Binary64.read_token uint_value];
    auto;
    change (PyStr.isdecimal _) with true; cbv iota; rewrite IHd;
    now destruct d.
Qed.

(** The text of a natural number, with what may follow it, parses to the
    float nearest to the number. *)
Lemma parse_rating_number_text (repr : json -> string) (n : N) (rest : string) :
  ends_token rest ->
  parse_rating repr (JStr (str repr (JInt (Z.of_N n)) ++ rest))
  = Some (Binary64.of_ratio (Z.of_N n) 1).
Proof.
  intro Hrest.
  rewrite parse_rating_text by (auto; discriminate).
  assert (Hstr : str repr (JInt (Z.of_N n)) = NilEmpty.string_of_uint (N.to_uint n)
                 /\ N.to_uint n <> Decimal.Nil).
  { destruct n as [|p]; [split; [reflexivity | discriminate]|].
    pose proof (Unsigned.to_uint_nonnil p) as Hnil.
    simpl. unfold PyStr.of_Z. simpl. split; auto.
    now destruct (Pos.to_uint p). }
  destruct Hstr as [Hstr Hnil].
  change (str repr (JStr (str repr (JInt (Z.of_N n)) ++ rest)))
    with (str repr (JInt (Z.of_N n)) ++ rest)%string.
  rewrite Hstr. unfold rating_token.
  assert (Hskip : skip_to_token (NilEmpty.string_of_uint (N.to_uint n) ++ rest)
                  = (NilEmpty.string_of_uint (N.to_uint n) ++ rest)%string)
    by (destruct (N.to_uint n); try contradiction; reflexivity).
  rewrite Hskip, take_token_digits by assumption.
  unfold Binary64.of_token. rewrite read_token_digits.
  rewrite uint_value_of_uint, DecimalN.Unsigned.of_to.
  now destruct (N.to_uint n); try contradiction.
Qed.

(** X12.  The string form of a natural number, followed by nothing or by
    text that starts with neither a digit nor a point, parses to the float
    nearest to the number: the float the number itself gives as a sample,
    when it gives one.  The nearest float need not be the number
    (9007199254740993 gives 9007199254740992.0), and a number beyond the
    range of the floats gives no sample while its text gives infinity. *)
Theorem parse_rating_of_number_text :
  forall (repr : json -> string) (n : N) (rest : string),
    ends_token rest ->
    parse_rating repr (JStr (str repr (JInt (Z.of_N n)) ++ rest))
    = Some (Binary64.of_ratio (Z.of_N n) 1)
    /\ (forall pr,
           parse_rating repr (JInt (Z.of_N n)) = Some pr ->
           parse_rating repr (JStr (str repr (JInt (Z.of_N n)) ++ rest)) = Some pr)
    /\ Binary64.of_ratio 9007199254740993 1 = Binary64.of_ratio 9007199254740992 1
    /\ parse_rating repr (JInt (10 ^ 400)) = None
    /\ parse_rating repr (JStr (str repr (JInt (10 ^ 400)))) = Some (S754_infinity false).
Proof.
  intros repr n rest Hrest.
  pose proof (parse_rating_number_text repr n rest Hrest) as Htext.
  split; [exact Htext|]. split; [|split; [|split]].
  - intros pr Hpr. rewrite Htext.
    unfold parse_rating, float_of_number, Binary64.of_Z in Hpr.
    destruct (Binary64.is_finite _); [exact Hpr | discriminate].
  - vm_compute. reflexivity.
  - vm_compute. reflexivity.
  - vm_compute. reflexivity.
Qed.

Lemma parse_rating_of_number_text_witness :
  parse_rating example_repr (JStr (str example_repr (JInt (Z.of_N 7)) ++ ": Good paper"))
  = Some (whole 7).
Proof.
  refine (proj1 (parse_rating_of_number_text example_repr 7%N ": Good paper" _)).
  split; [reflexivity | discriminate].
Defined.

(* ------------------------------------------------------------------ *)
(** ** [normalize_title] *)

(** Lowering a character changes neither its class nor, a second time,
    the character. *)
Lemma lower_char_class (c : ascii) :
  PyStr.isalnum (PyStr.lower_char c) = PyStr.isalnum c
  /\ PyStr.isspace (PyStr.lower_char c) = PyStr.isspace c
  /\ PyStr.lower_char (PyStr.lower_char c) = PyStr.lower_char c.
Proof.
  destruct c as [[] [] [] [] [] [] [] []]; vm_compute; auto.
Qed.

Lemma lower_char_space (c : ascii) :
  PyStr.isspace c = true -> PyStr.lower_char c = c.
Proof.
  destruct c as [[] [] [] [] [] [] [] []]; vm_compute; auto; discriminate.
Qed.

Lemma keep_lower_app (a b : string) :
  keep_lower (a ++ b) = (keep_lower a ++ keep_lower b)%string.
Proof.
  induction a as [|c r IH]; simpl; auto.
  destruct (PyStr.isalnum c || PyStr.isspace c); simpl; now rewrite IH.
Qed.

(** A whitespace character ends the word being read. *)
Lemma split_ws_space (x : string) :
  forall (c : ascii) (r cur : string),
    PyStr.isspace c = true ->
    PyStr.split_ws (x ++ String c r) cur
    = PyStr.split_ws x cur ++ PyStr.split_ws r EmptyString.
Proof.
  induction x as [|a x IH]; intros c r cur Hc; simpl.
  - rewrite Hc. now destruct (PyStr.is_empty cur).
  - destruct (PyStr.isspace a).
    + destruct (PyStr.is_empty cur); simpl; now rewrite IH.
    + now apply IH.
Qed.

Lemma split_ws_word (w : string) :
  forall (t cur : string),
    space_free w ->
    PyStr.split_ws (w ++ t) cur = PyStr.split_ws t (cur ++ w).
Proof.
  induction w as [|a w IH]; intros t cur Hw; simpl.
  - now rewrite append_empty_r.
  - inversion Hw as [|? ? Ha Hw']; subst. rewrite Ha.
    rewrite IH by assumption. now rewrite append_cons_assoc.
Qed.

(** Splitting words joined by single spaces gives the words back. *)
Lemma split_join (ws : list string) :
  Forall word ws -> PyStr.split (PyStr.join " " ws) = ws.
Proof.
  unfold PyStr.split. induction 1 as [|w rest [Hne Hfree] Hrest IH]; auto.
  destruct rest as [|w' rest].
  - simpl. rewrite <- (append_empty_r w) at 1.
    rewrite split_ws_word by assumption. simpl. now destruct w.
  - change (PyStr.join " " (w :: w' :: rest))
      with (w ++ String " " (PyStr.join " " (w' :: rest)))%string.
    rewrite split_ws_word by assumption.
    set (J := PyStr.join " " (w' :: rest)) in *.
    destruct w; [contradiction|]. simpl. now rewrite IH.
Qed.

Lemma split_ws_chars (s : string) :
  forall cur w c,
    In w (PyStr.split_ws s cur) -> In c (chars_of w) ->
    In c (chars_of cur) \/ In c (chars_of s).
Proof.
  induction s as [|a r IH]; intros cur w c Hw Hc; simpl in Hw.
  - destruct (PyStr.is_empty cur); [destruct Hw|]. destruct Hw as [<- | []]. now left.
  - destruct (PyStr.isspace a).
    + destruct (PyStr.is_empty cur).
      * destruct (IH _ _ _ Hw Hc) as [[] | H]. right. now right.
      * destruct Hw as [<- | Hw]; [now left|].
        destruct (IH _ _ _ Hw Hc) as [[] | H]. right. now right.
    + destruct (IH _ _ _ Hw Hc) as [H | H].
      * rewrite chars_of_snoc in H. apply in_app_or in H.
        destruct H as [H | [<- | []]]; auto. right. now left.
      * right. now right.
Qed.

Lemma join_chars (ws : list string) (c : ascii) :
  In c (chars_of (PyStr.join " " ws)) ->
  c = " "%char \/ exists w, In w ws /\ In c (chars_of w).
Proof.
  assert (Happ : forall a b, chars_of (a ++ b) = chars_of a ++ chars_of b).
  { intros a b. unfold chars_of. induction a as [|x a IHa]; simpl; auto.
    now rewrite IHa. }
  induction ws as [|w rest IH]; simpl; [intros []|].
  destruct rest as [|w' rest].
  - intro H. right. exists w. split; [now left | assumption].
  - rewrite Happ. intro H. apply in_app_or in H. destruct H as [H | H].
    + right. exists w. split; [now left | assumption].
    + simpl in H. destruct H as [<- | H]; [now left|].
      destruct (IH H) as [-> | (w0 & Hw0 & Hc)]; [now left|].
      right. exists w0. split; [now right | assumption].
Qed.

Lemma keep_lower_kept (s : string) :
  (forall c, In c (chars_of s) ->
             (PyStr.isalnum c || PyStr.isspace c) = true /\ PyStr.lower_char c = c) ->
  keep_lower s = s.
Proof.
  induction s as [|c r IH]; intro H; simpl; auto.
  destruct (H c (or_introl eq_refl)) as [Hk Hl]. rewrite Hk, Hl. f_equal.
  apply IH. intros c' Hc'. apply H. now right.
Qed.

Lemma normalize_title_chars (s : string) (c : ascii) :
  In c (chars_of (normalize_title s)) ->
  (PyStr.isalnum c || PyStr.isspace c) = true /\ PyStr.lower_char c = c.
Proof.
  intro H. apply join_chars in H. destruct H as [-> | (w & Hw & Hc)]; [now split|].
  destruct (split_ws_chars _ _ _ _ Hw Hc) as [[] | Hk].
  pose proof (keep_lower_chars s) as Hall. rewrite Forall_forall in Hall.
  destruct (Hall c Hk) as (c0 & _ & Hok & ->).
  destruct (lower_char_class c0) as (Ha & Hs & Hl). now rewrite Ha, Hs, Hl.
Qed.

(** X13.  On titles whose characters have code points below U+0100,
    [normalize_title] is idempotent: the normalized title of such a title
    is its own normalized title. *)
Theorem normalize_title_idempotent :
  forall s : string, normalize_title (normalize_title s) = normalize_title s.
Proof.
  intro s. unfold normalize_title at 1.
  rewrite keep_lower_kept by apply normalize_title_chars.
  destruct (normalize_title_words s) as (ws & -> & Hws).
  now rewrite split_join.
Qed.

(** X14.  [normalize_title] does not tell titles apart by a character
    replaced by one of the same lowered form that is kept or dropped as it
    is, by the characters that are neither alphanumeric nor whitespace, or
    by the length of a run of whitespace. *)
Theorem normalize_title_insensitive :
  (forall a b c d,
      PyStr.lower_char c = PyStr.lower_char d ->
      (PyStr.isalnum c || PyStr.isspace c) = (PyStr.isalnum d || PyStr.isspace d) ->
      normalize_title (a ++ String c b) = normalize_title (a ++ String d b))
  /\ (forall a b c,
         (PyStr.isalnum c || PyStr.isspace c) = false ->
         normalize_title (a ++ String c b) = normalize_title (a ++ b))
  /\ (forall a b c c',
         PyStr.isspace c = true -> PyStr.isspace c' = true ->
         normalize_title (a ++ String c (String c' b))
         = normalize_title (a ++ String c' b)).
Proof.
  split; [|split].
  - intros a b c d Hlow Hkept. unfold normalize_title. rewrite !keep_lower_app.
    cbn [keep_lower]. now rewrite Hlow, Hkept.
  - intros a b c Hc. unfold normalize_title. rewrite !keep_lower_app. simpl.
    now rewrite Hc.
  - intros a b c c' Hc Hc'. unfold normalize_title, PyStr.split.
    rewrite !keep_lower_app. simpl.
    rewrite Hc, Hc', !orb_true_r, (lower_char_space _ Hc), (lower_char_space _ Hc').
    rewrite !split_ws_space by assumption. simpl. now rewrite Hc'.
Qed.

Lemma normalize_title_insensitive_witness :
  normalize_title ("Deep" ++ String "L" "earning") = normalize_title ("Deep" ++ String "l" "earning")
  /\ normalize_title ("Deep" ++ String "-" "Learning") = normalize_title ("Deep" ++ "Learning").
Proof.
  split.
  - apply (proj1 normalize_title_insensitive "Deep" "earning" "L"%char "l"%char);
      reflexivity.
  - apply (proj1 (proj2 normalize_title_insensitive) "Deep" "Learning" "-"%char).
    reflexivity.
Defined.

(* ------------------------------------------------------------------ *)
(** ** [find_arxiv_match]: what it can return *)

Lemma sound_result_score (ratio : string -> string -> PyFloat.float) (title : string)
    (candidates : list (string * string)) (r : match_result) :
  sound_result ratio title candidates r -> (0 <= result_score r)%Q.
Proof.
  intros [-> | (aid & atitle & _ & [[-> _] | [-> Hpos]])]; simpl.
  - apply Qle_refl.
  - unfold PyFloat.one, Qle. simpl. lia.
  - now apply Qlt_le_weak.
Qed.

Lemma match_loop_sound (ratio : string -> string -> PyFloat.float) (title : string)
    (all : list (string * string)) (candidates : list (string * string)) :
  forall best,
    (forall c, In c candidates -> In c all) ->
    sound_result ratio title all best ->
    sound_result ratio title all
      (match_loop ratio title (normalize_title title) candidates best).
Proof.
  induction candidates as [|[aid atitle] rest IH]; intros best Hin Hbest; simpl; auto.
  assert (Hc : In (aid, atitle) all) by (apply Hin; now left).
  assert (Hrest : forall c, In c rest -> In c all) by (intros c H; apply Hin; now right).
  destruct (String.eqb (normalize_title atitle) (normalize_title title)) eqn:E.
  - apply String.eqb_eq in E. right. exists aid, atitle. split; auto.
  - destruct (PyFloat.gt (similarity ratio title atitle) (result_score best)) eqn:G;
      apply IH; auto.
    apply gt_true in G. right. exists aid, atitle. split; auto. right. split; auto.
    apply Qle_lt_trans with (result_score best); auto.
    now apply (sound_result_score ratio title all).
Qed.

Lemma find_arxiv_match_result (ratio : string -> string -> PyFloat.float)
    (query_arxiv_by_title : nat -> string -> option (list (string * string)))
    (k : nat) (title : string) (candidates : list (string * string))
    (r : match_result) :
  query_arxiv_by_title k title = Some candidates ->
  find_arxiv_match ratio query_arxiv_by_title k title = Some r ->
  sound_result ratio title candidates r.
Proof.
  intros Hq Hfind.
  rewrite (find_arxiv_match_loop _ _ _ _ _ Hq) in Hfind. injection Hfind as <-.
  apply match_loop_sound; auto. now left.
Qed.

(** X15.  Whatever the search returns, the result of [find_arxiv_match] is
    no match, or names a candidate of the search: with [exact] set and the
    score 1.0 when the candidate has the normalized title of the query,
    with [exact] unset and the candidate's similarity, above zero,
    otherwise.  When the ratio lies between 0 and 1 so does the score. *)
Theorem find_arxiv_match_sound :
  forall (ratio : string -> string -> PyFloat.float)
         (query_arxiv_by_title : nat -> string -> option (list (string * string)))
         (k : nat) (title : string) (candidates : list (string * string))
         (r : match_result),
    query_arxiv_by_title k title = Some candidates ->
    find_arxiv_match ratio query_arxiv_by_title k title = Some r ->
    sound_result ratio title candidates r
    /\ ((forall a b, (0 <= ratio a b /\ ratio a b <= 1)%Q) ->
        (0 <= result_score r /\ result_score r <= 1)%Q).
Proof.
  intros ratio query k title candidates r Hq Hfind.
  pose proof (find_arxiv_match_result _ _ _ _ _ _ Hq Hfind) as Hsound.
  split; auto. intro Hratio.
  split; [now apply (sound_result_score ratio title candidates)|].
  destruct Hsound as [-> | (aid & atitle & _ & [[-> _] | [-> _]])]; simpl.
  - unfold PyFloat.zero, Qle. simpl. lia.
  - apply Qle_refl.
  - apply Hratio.
Qed.

Lemma find_arxiv_match_sound_witness :
  sound_result prefix_ratio "Foo Bar"
    [("0000.0001", "Foo Baz"); ("0000.0002", "Foo Bat"); ("0000.0003", "Zed")]
    (Some "0000.0001", Some "Foo Baz", false, (6 # 7)%Q).
Proof.
  apply (find_arxiv_match_sound prefix_ratio feed_fuzzy 0 "Foo Bar"
           [("0000.0001", "Foo Baz"); ("0000.0002", "Foo Bat"); ("0000.0003", "Zed")]
           (Some "0000.0001", Some "Foo Baz", false, (6 # 7)%Q)); reflexivity.
Defined.

(* ------------------------------------------------------------------ *)
(** ** [ingest_group]: what it returns, keeps and adds *)

Lemma update_first_identity (forum : string) (summary : Summary.t) (now : datetime)
    (rows rows' : list Paper.t) :
  update_first forum (refresh summary now) rows = Some rows' ->
  map identity rows' = map identity rows.
Proof.
  intro H. destruct (update_first_some _ _ _ _ H) as (pre & p & post & -> & -> & _).
  now rewrite !map_app.
Qed.

Lemma upsert_loop_identity (utcnow : nat -> datetime) (venue_id : nat)
    (submissions : list Summary.t) :
  forall rows new clock count rows' new' clock' count',
    upsert_loop utcnow venue_id submissions rows new clock count
    = (rows', new', clock', count') ->
    map identity rows' = map identity rows.
Proof.
  induction submissions as [|summary rest IH];
    intros rows new clock count rows' new' clock' count' H; simpl in H.
  - now injection H as <- <- <- <-.
  - destruct (update_first _ _ rows) as [rows1|] eqn:Hup.
    + apply IH in H. rewrite H. eapply update_first_identity; eauto.
    + now apply IH in H.
Qed.

Lemma insert_matches_spec (new : pending ArxivMatch.t) :
  forall rows,
    exists added,
      insert_matches rows new = rows ++ added
      /\ Forall2 (fun n n' => exists i, n' = ArxivMatch.set_id i n) new added.
Proof.
  induction new as [|m rest IH]; intro rows; simpl.
  - exists []. split; [now rewrite app_nil_r | constructor].
  - destruct (IH (rows ++ [ArxivMatch.set_id (next_id (map ArxivMatch.id rows)) m]))
      as (added & -> & Hall).
    exists (ArxivMatch.set_id (next_id (map ArxivMatch.id rows)) m :: added). split.
    + now rewrite <- app_assoc.
    + constructor; auto. now exists (next_id (map ArxivMatch.id rows)).
Qed.

Lemma next_id_fresh (ids : list nat) : ~ In (next_id ids) ids.
Proof.
  unfold next_id. intro H.
  assert (Hle : forall l x, In x l -> x <= list_max l).
  { induction l as [|a l IHl]; intros x Hx; [destruct Hx|].
    destruct Hx as [<- | Hx]; simpl; [lia|].
    specialize (IHl x Hx). lia. }
  apply Hle in H. lia.
Qed.

Lemma nodup_snoc_fresh (ids : list nat) :
  NoDup ids -> NoDup (ids ++ [next_id ids]).
Proof.
  intro H. apply NoDup_app; auto.
  - repeat constructor. intros [].
  - intros a Ha [<- | []]. now apply (next_id_fresh ids).
Qed.

Lemma insert_papers_ids (new : pending Paper.t) :
  forall rows, NoDup (map Paper.id rows) -> NoDup (map Paper.id (insert_papers rows new)).
Proof.
  induction new as [|p rest IH]; intros rows H; simpl; auto.
  apply IH. rewrite map_app. simpl. now apply nodup_snoc_fresh.
Qed.

Lemma insert_matches_ids (new : pending ArxivMatch.t) :
  forall rows,
    NoDup (map ArxivMatch.id rows) -> NoDup (map ArxivMatch.id (insert_matches rows new)).
Proof.
  induction new as [|m rest IH]; intros rows H; simpl; auto.
  apply IH. rewrite map_app. simpl. now apply nodup_snoc_fresh.
Qed.

Section MoreIngestFacts.

Variable utcnow : nat -> datetime.
Variable ratio : string -> string -> PyFloat.float.
Variable query_arxiv_by_title : nat -> string -> option (list (string * string)).
Variable settings : Settings.

Lemma find_arxiv_match_some (k : nat) (title : string) (r : match_result) :
  find_arxiv_match ratio query_arxiv_by_title k title = Some r ->
  exists candidates, query_arxiv_by_title k title = Some candidates.
Proof.
  unfold find_arxiv_match. destruct (query_arxiv_by_title k title) as [c|]; [|discriminate].
  intros _. now exists c.
Qed.

Lemma find_arxiv_match_none (k : nat) (title : string) :
  find_arxiv_match ratio query_arxiv_by_title k title = None ->
  query_arxiv_by_title k title = None.
Proof.
  unfold find_arxiv_match. destruct (query_arxiv_by_title k title) as [[|c l]|]; auto;
    discriminate.
Qed.

(** The rows the loop adds. *)
Lemma match_papers_added (deadline : datetime) (stored : list ArxivMatch.t)
    (all : list Paper.t) (ps : list Paper.t) :
  (forall p, In p ps -> In p all) ->
  forall st new' clock' sent',
    match_papers utcnow ratio query_arxiv_by_title deadline stored ps st
    = inl (new', clock', sent') ->
    exists added, new' = fst (fst st) ++ added /\ Forall (added_row utcnow all) added.
Proof.
  induction ps as [|p ps IH]; intros Hin [[new clock] sent] new' clock' sent' Hrun;
    simpl in Hrun.
  - injection Hrun as <- <- <-. exists []. simpl. now rewrite app_nil_r.
  - assert (Hp : In p all) by (apply Hin; now left).
    assert (Hps : forall q, In q ps -> In q all) by (intros q Hq; apply Hin; now right).
    destruct (is_fresh deadline (latest_match (Paper.id p) stored)).
    + exact (IH Hps (new, clock, sent) _ _ _ Hrun).
    + destruct (find_arxiv_match _ _ _ _) as [[[[aid atitle] exact] score]|] eqn:Hfind;
        [|discriminate].
      destruct (find_arxiv_match_some _ _ _ Hfind) as (candidates & Hq).
      pose proof (find_arxiv_match_result _ _ _ _ _ _ Hq Hfind) as Hsound.
      destruct (nonempty aid) as [a|] eqn:Ha.
      * apply (IH Hps) in Hrun. destruct Hrun as (added & -> & Hall). simpl.
        eexists. rewrite <- app_assoc. split; [reflexivity|].
        constructor; auto.
        unfold added_row. simpl. repeat split.
        -- unfold nonempty in Ha. destruct aid as [x|]; [|discriminate].
           destruct x; simpl in Ha; [discriminate|]. injection Ha as <-. discriminate.
        -- now exists p.
        -- now exists clock.
        -- intros ->.
           destruct Hsound as [[=] | (aid' & atitle' & _ & [[[= _ _ <-] _] | [[=] _]])].
           reflexivity.
        -- intros ->.
           destruct Hsound as [E | (aid' & atitle' & _ & [[[=] _] | [[= _ _ ->] Hpos]])];
             auto.
           injection E as -> _ _. discriminate.
      * exact (IH Hps (new, clock, sent ++ [Paper.title p]) _ _ _ Hrun).
Qed.

(** All of [ingest_group], step by step. *)
Lemma ingest_group_steps (submissions : list Summary.t) (group_id : string)
    (name : option string) (year : option Z) (with_arxiv : bool) (w : World) :
  exists venue vs c1 rows new c2 count,
    ensure_venue utcnow group_id name year (venues (db w)) (clock w) = (venue, vs, c1)
    /\ upsert_loop utcnow (Venue.id venue) submissions (papers (db w)) [] c1 0
       = (rows, new, c2, count)
    /\ ingest_group utcnow ratio query_arxiv_by_title settings submissions group_id name
         year with_arxiv w
       = if with_arxiv
         then match match_papers utcnow ratio query_arxiv_by_title
                      (utcnow c2 - seconds (arxiv_ttl settings))%Z (arxiv_matches (db w))
                      (papers_of (Venue.id venue) (insert_papers rows new))
                      ([], S c2, queries w) with
              | inl (added, c3, sent) =>
                  (Some count,
                   mk_world (mk_store vs (insert_papers rows new)
                               (insert_matches (arxiv_matches (db w)) added)) c3 sent)
              | inr (c3, sent) =>
                  (None,
                   mk_world (mk_store vs (insert_papers rows new) (arxiv_matches (db w)))
                     c3 sent)
              end
         else (Some count,
               mk_world (mk_store vs (insert_papers rows new) (arxiv_matches (db w)))
                 c2 (queries w)).
Proof.
  unfold ingest_group, papers_of.
  destruct (ensure_venue _ _ _ _ _ _) as [[venue vs] c1] eqn:Hv.
  destruct (upsert_loop _ _ _ _ _ _ _) as [[[rows new] c2] count] eqn:Hu.
  exists venue, vs, c1, rows, new, c2, count.
  split; [reflexivity|]. split; [exact Hu|].
  destruct with_arxiv; [|reflexivity].
  now destruct (match_papers _ _ _ _ _ _ _) as [[[added c3] sent]|[c3 sent]].
Qed.

End MoreIngestFacts.

(** X16.  The count [ingest_group] returns, when it returns, is the number
    of summaries it was given, those that share a forum counted each. *)
Theorem ingest_group_count :
  forall (utcnow : nat -> datetime) (ratio : string -> string -> PyFloat.float)
         (query_arxiv_by_title : nat -> string -> option (list (string * string)))
         (settings : Settings) (submissions : list Summary.t) (group_id : string)
         (name : option string) (year : option Z) (with_arxiv : bool) (w : World)
         (count : nat),
    fst (ingest_group utcnow ratio query_arxiv_by_title settings submissions
           group_id name year with_arxiv w) = Some count ->
    count = List.length submissions.
Proof.
  intros utcnow ratio query settings submissions group_id name year with_arxiv w count.
  destruct (ingest_group_steps utcnow ratio query settings submissions group_id name year
              with_arxiv w)
    as (venue & vs & c1 & rows & new & c2 & count' & _ & Hu & ->).
  apply upsert_loop_counts in Hu. destruct Hu as (_ & -> & _).
  destruct with_arxiv.
  - destruct (match_papers _ _ _ _ _ _ _) as [[[added c3] sent]|[c3 sent]];
      simpl; congruence.
  - simpl. congruence.
Qed.

Lemma ingest_group_count_witness :
  fst (ingest_group example_clock prefix_ratio feed_empty default_settings
         [summary_f1; summary_f1_again] "A.cc/2024/Conference" None None true empty_world)
  = Some 2.
Proof.
  assert (Hret : exists count,
             fst (ingest_group example_clock prefix_ratio feed_empty default_settings
                    [summary_f1; summary_f1_again] "A.cc/2024/Conference" None None true
                    empty_world) = Some count)
    by (eexists; vm_compute; reflexivity).
  destruct Hret as (count & Hcount). rewrite Hcount. f_equal.
  exact (ingest_group_count example_clock prefix_ratio feed_empty default_settings
           [summary_f1; summary_f1_again] "A.cc/2024/Conference" None None true
           empty_world count Hcount).
Defined.

(** X17.  [ingest_group] deletes nothing: the venues and the matches stored
    before are a prefix of those stored after, at most one venue is added,
    and the papers stored before are all there after, in their order, each
    with the id, venue, forum and note it had. *)
Theorem ingest_group_keeps_rows :
  forall (utcnow : nat -> datetime) (ratio : string -> string -> PyFloat.float)
         (query_arxiv_by_title : nat -> string -> option (list (string * string)))
         (settings : Settings) (submissions : list Summary.t) (group_id : string)
         (name : option string) (year : option Z) (with_arxiv : bool) (w : World),
    let w' := snd (ingest_group utcnow ratio query_arxiv_by_title settings submissions
                     group_id name year with_arxiv w) in
    exists more_venues kept added more_matches,
      venues (db w') = venues (db w) ++ more_venues
      /\ List.length more_venues <= 1
      /\ papers (db w') = kept ++ added
      /\ map identity kept = map identity (papers (db w))
      /\ arxiv_matches (db w') = arxiv_matches (db w) ++ more_matches.
Proof.
  intros utcnow ratio query settings submissions group_id name year with_arxiv w w'.
  subst w'.
  destruct (ingest_group_steps utcnow ratio query settings submissions group_id name year
              with_arxiv w)
    as (venue & vs & c1 & rows & new & c2 & count & Hv & Hu & ->).
  assert (Hvs : exists more, vs = venues (db w) ++ more /\ List.length more <= 1).
  { unfold ensure_venue in Hv. destruct (find _ _).
    - injection Hv as _ <- _. exists []. rewrite app_nil_r. auto.
    - injection Hv as _ <- _. eexists. split; [reflexivity | simpl; lia]. }
  destruct Hvs as (more & -> & Hmore).
  pose proof (upsert_loop_identity _ _ _ _ _ _ _ _ _ _ _ Hu) as Hid.
  destruct (insert_papers_spec new rows) as (added & Hins & _).
  exists more, rows, added.
  destruct with_arxiv; simpl.
  - destruct (match_papers _ _ _ _ _ _ _) as [[[madded c3] sent]|[c3 sent]]; simpl.
    + destruct (insert_matches_spec madded (arxiv_matches (db w))) as (ms & -> & _).
      exists ms. auto.
    + exists []. rewrite app_nil_r. auto.
  - exists []. rewrite app_nil_r. auto.
Qed.

(** X18.  [ingest_group] keeps the ids of each table distinct: the rows it
    adds get ids no stored row has. *)
Theorem ingest_group_fresh_ids :
  forall (utcnow : nat -> datetime) (ratio : string -> string -> PyFloat.float)
         (query_arxiv_by_title : nat -> string -> option (list (string * string)))
         (settings : Settings) (submissions : list Summary.t) (group_id : string)
         (name : option string) (year : option Z) (with_arxiv : bool) (w : World),
    let w' := snd (ingest_group utcnow ratio query_arxiv_by_title settings submissions
                     group_id name year with_arxiv w) in
    NoDup (map Venue.id (venues (db w))) ->
    NoDup (map Paper.id (papers (db w))) ->
    NoDup (map ArxivMatch.id (arxiv_matches (db w))) ->
    NoDup (map Venue.id (venues (db w')))
    /\ NoDup (map Paper.id (papers (db w')))
    /\ NoDup (map ArxivMatch.id (arxiv_matches (db w'))).
Proof.
  intros utcnow ratio query settings submissions group_id name year with_arxiv w w'
    Hvenues Hpapers Hmatches.
  subst w'.
  destruct (ingest_group_steps utcnow ratio query settings submissions group_id name year
              with_arxiv w)
    as (venue & vs & c1 & rows & new & c2 & count & Hv & Hu & ->).
  assert (Hvs : NoDup (map Venue.id vs)).
  { unfold ensure_venue in Hv. destruct (find _ _).
    - now injection Hv as _ <- _.
    - injection Hv as _ <- _. rewrite map_app. simpl. now apply nodup_snoc_fresh. }
  assert (Hps : NoDup (map Paper.id (insert_papers rows new))).
  { apply insert_papers_ids.
    pose proof (upsert_loop_identity _ _ _ _ _ _ _ _ _ _ _ Hu) as Hid.
    assert (Hids : map Paper.id rows = map Paper.id (papers (db w))).
    { change Paper.id with (fun p => fst (fst (fst (identity p)))).
      rewrite <- !(map_map identity (fun t => fst (fst (fst t)))). now rewrite Hid. }
    now rewrite Hids. }
  destruct with_arxiv; simpl; auto.
  destruct (match_papers _ _ _ _ _ _ _) as [[[madded c3] sent]|[c3 sent]]; simpl; auto.
  repeat split; auto. now apply insert_matches_ids.
Qed.

Lemma ingest_group_fresh_ids_witness :
  NoDup (map Paper.id
           (papers (db (snd (ingest_group example_clock prefix_ratio feed_fuzzy
                               default_settings [summary_f1; summary_f2]
                               "A.cc/2024/Conference" None None true world_a))))).
Proof.
  apply (ingest_group_fresh_ids example_clock prefix_ratio feed_fuzzy default_settings
           [summary_f1; summary_f2] "A.cc/2024/Conference" None None true world_a).
  - repeat constructor. intros [].
  - repeat constructor. intros [].
  - constructor.
Defined.

(** X19.  Every match row an ingestion adds has a non-empty arXiv id,
    belongs to a paper of the venue of the group, is stamped with a reading
    of the clock, and has the score 1.0 when exact and a score above zero
    when not. *)
Theorem ingest_group_added_matches :
  forall (utcnow : nat -> datetime) (ratio : string -> string -> PyFloat.float)
         (query_arxiv_by_title : nat -> string -> option (list (string * string)))
         (settings : Settings) (submissions : list Summary.t) (group_id : string)
         (name : option string) (year : option Z) (with_arxiv : bool) (w : World),
    let w' := snd (ingest_group utcnow ratio query_arxiv_by_title settings submissions
                     group_id name year with_arxiv w) in
    exists venue more,
      In venue (venues (db w'))
      /\ Venue.group_id venue = group_id
      /\ arxiv_matches (db w') = arxiv_matches (db w) ++ more
      /\ Forall (added_row utcnow (papers_of (Venue.id venue) (papers (db w')))) more.
Proof.
  intros utcnow ratio query settings submissions group_id name year with_arxiv w w'.
  subst w'.
  destruct (ingest_group_steps utcnow ratio query settings submissions group_id name year
              with_arxiv w)
    as (venue & vs & c1 & rows & new & c2 & count & Hv & Hu & ->).
  apply ensure_venue_spec in Hv. destruct Hv as (Hin & Hg & _).
  exists venue.
  destruct with_arxiv; simpl.
  - destruct (match_papers _ _ _ _ _ _ _) as [[[madded c3] sent]|[c3 sent]] eqn:Hrun;
      simpl.
    + destruct (insert_matches_spec madded (arxiv_matches (db w))) as (ms & -> & Hids).
      exists ms. repeat split; auto.
      apply (match_papers_added _ _ _ _ _
               (papers_of (Venue.id venue) (insert_papers rows new))) in Hrun; auto.
      destruct Hrun as (added & Heq & Hall). simpl in Heq. subst added.
      clear - Hids Hall. induction Hids as [|m m' l l' [i ->] _ IH]; constructor.
      * inversion Hall; subst. assumption.
      * apply IH. now inversion Hall.
    + exists []. rewrite app_nil_r. repeat split; auto.
  - exists []. rewrite app_nil_r. repeat split; auto.
Qed.

(** X20.  The papers and the venues [ingest_group] stores do not depend on
    the matching: they are the same with matching on or off, whatever arXiv
    answers and whether or not the call raises.  With matching off, and when
    the call raises, the match table is left as it was; with matching off no
    query is sent. *)
Theorem ingest_group_matching_apart :
  forall (utcnow : nat -> datetime) (ratio ratio' : string -> string -> PyFloat.float)
         (query query' : nat -> string -> option (list (string * string)))
         (settings settings' : Settings) (submissions : list Summary.t)
         (group_id : string) (name : option string) (year : option Z)
         (with_arxiv with_arxiv' : bool) (w : World),
    let run := ingest_group utcnow ratio query settings submissions group_id name year
                 with_arxiv w in
    let run' := ingest_group utcnow ratio' query' settings' submissions group_id name year
                  with_arxiv' w in
    papers (db (snd run)) = papers (db (snd run'))
    /\ venues (db (snd run)) = venues (db (snd run'))
    /\ (fst run = None -> arxiv_matches (db (snd run)) = arxiv_matches (db w))
    /\ (with_arxiv = false ->
        arxiv_matches (db (snd run)) = arxiv_matches (db w)
        /\ queries (snd run) = queries w).
Proof.
  intros utcnow ratio ratio' query query' settings settings' submissions group_id name
    year with_arxiv with_arxiv' w run run'.
  subst run run'.
  destruct (ingest_group_steps utcnow ratio query settings submissions group_id name year
              with_arxiv w)
    as (venue & vs & c1 & rows & new & c2 & count & Hv & Hu & ->).
  destruct (ingest_group_steps utcnow ratio' query' settings' submissions group_id name
              year with_arxiv' w)
    as (venue' & vs' & c1' & rows' & new' & c2' & count' & Hv' & Hu' & ->).
  rewrite Hv in Hv'. injection Hv' as <- <- <-.
  rewrite Hu in Hu'. injection Hu' as <- <- <- <-.
  assert (Hsame : forall (b : bool) r q s,
             papers (db (snd (if b
                              then match match_papers utcnow r q
                                           (utcnow c2 - seconds (arxiv_ttl s))%Z
                                           (arxiv_matches (db w))
                                           (papers_of (Venue.id venue)
                                              (insert_papers rows new))
                                           ([], S c2, queries w) with
                                   | inl (added, c3, sent) =>
                                       (Some count,
                                        mk_world
                                          (mk_store vs (insert_papers rows new)
                                             (insert_matches (arxiv_matches (db w)) added))
                                          c3 sent)
                                   | inr (c3, sent) =>
                                       (None,
                                        mk_world
                                          (mk_store vs (insert_papers rows new)
                                             (arxiv_matches (db w))) c3 sent)
                                   end
                              else (Some count,
                                    mk_world
                                      (mk_store vs (insert_papers rows new)
                                         (arxiv_matches (db w))) c2 (queries w)))))
             = insert_papers rows new
             /\ venues (db (snd (if b
                                 then match match_papers utcnow r q
                                              (utcnow c2 - seconds (arxiv_ttl s))%Z
                                              (arxiv_matches (db w))
                                              (papers_of (Venue.id venue)
                                                 (insert_papers rows new))
                                              ([], S c2, queries w) with
                                      | inl (added, c3, sent) =>
                                          (Some count,
                                           mk_world
                                             (mk_store vs (insert_papers rows new)
                                                (insert_matches (arxiv_matches (db w))
                                                   added)) c3 sent)
                                      | inr (c3, sent) =>
                                          (None,
                                           mk_world
                                             (mk_store vs (insert_papers rows new)
                                                (arxiv_matches (db w))) c3 sent)
                                      end
                                 else (Some count,
                                       mk_world
                                         (mk_store vs (insert_papers rows new)
                                            (arxiv_matches (db w))) c2 (queries w)))))
                = vs).
  { intros b r q s. destruct b; simpl; auto.
    now destruct (match_papers _ _ _ _ _ _ _) as [[[added c3] sent]|[c3 sent]]. }
  destruct (Hsame with_arxiv ratio query settings) as [-> ->].
  destruct (Hsame with_arxiv' ratio' query' settings') as [-> ->].
  split; [reflexivity|]. split; [reflexivity|]. split.
  - destruct with_arxiv; simpl; [|discriminate].
    now destruct (match_papers _ _ _ _ _ _ _) as [[[added c3] sent]|[c3 sent]].
  - intros ->. split; reflexivity.
Qed.

Lemma ingest_group_matching_apart_witness :
  arxiv_matches
    (db (snd (ingest_group example_clock prefix_ratio feed_down default_settings
                [summary_f1; summary_f2] "A.cc/2024/Conference" None None true
                world_matched)))
  = arxiv_matches (db world_matched).
Proof.
  apply (proj1 (proj2 (proj2
           (ingest_group_matching_apart example_clock prefix_ratio prefix_ratio feed_down
              feed_down default_settings default_settings [summary_f1; summary_f2]
              "A.cc/2024/Conference" None None true true world_matched)))).
  reflexivity.
Defined.

Lemma split_on_head (sep : ascii) (a : string) :
  forall b cur,
    ~ In sep (chars_of a) ->
    hd EmptyString (PyStr.split_on sep (a ++ String sep b) cur) = (cur ++ a)%string
    /\ hd EmptyString (PyStr.split_on sep a cur) = (cur ++ a)%string.
Proof.
  induction a as [|c r IH]; intros b cur Hsep; simpl.
  - rewrite Ascii.eqb_refl. simpl. now rewrite append_empty_r.
  - assert (Hc : Ascii.eqb c sep = false)
      by (apply Ascii.eqb_neq; intros ->; apply Hsep; now left).
    rewrite Hc.
    assert (Hr : ~ In sep (chars_of r)) by (intro H; apply Hsep; now right).
    destruct (IH b (cur ++ String c EmptyString)%string Hr) as [H1 H2].
    rewrite H1, H2. now rewrite append_cons_assoc.
Qed.

(** X21.  A venue of the group that is already stored is left as it is,
    whatever name and year the call is given; when the group has no venue
    one is added, named as given or, with no name or an empty one, after the
    part of the group id before its first slash. *)
Theorem ingest_group_venue :
  forall (utcnow : nat -> datetime) (ratio : string -> string -> PyFloat.float)
         (query_arxiv_by_title : nat -> string -> option (list (string * string)))
         (settings : Settings) (submissions : list Summary.t) (group_id : string)
         (name : option string) (year : option Z) (with_arxiv : bool) (w : World),
    let w' := snd (ingest_group utcnow ratio query_arxiv_by_title settings submissions
                     group_id name year with_arxiv w) in
    (1 <= count_venues group_id (venues (db w)) -> venues (db w') = venues (db w))
    /\ (count_venues group_id (venues (db w)) = 0 ->
        venues (db w')
        = venues (db w)
          ++ [Venue.mk (next_id (map Venue.id (venues (db w)))) group_id
                (match nonempty name with
                 | Some n => n
                 | None => default_name group_id
                 end) year (utcnow (clock w))])
    /\ (forall a b, ~ In "/"%char (chars_of a) ->
                    default_name (a ++ String "/" b) = a /\ default_name a = a).
Proof.
  intros utcnow ratio query settings submissions group_id name year with_arxiv w w'.
  subst w'.
  destruct (ingest_group_store utcnow ratio query settings submissions group_id name year
              with_arxiv w)
    as (venue & vs & c1 & rows & new & c2 & count & Hv & _ & -> & _).
  pose proof (count_venues_find group_id (venues (db w))) as Hfind.
  unfold ensure_venue in Hv.
  destruct (find _ (venues (db w))) as [v|].
  - injection Hv as _ <- _. destruct Hfind as (_ & _ & Hc).
    split; [auto|]. split; [intro H0; lia|].
    intros a b Hsep. unfold default_name.
    destruct (split_on_head "/"%char a b EmptyString Hsep) as [H1 H2]. now rewrite H1, H2.
  - injection Hv as _ <- _.
    split; [intro H1; lia|]. split; [auto|].
    intros a b Hsep. unfold default_name.
    destruct (split_on_head "/"%char a b EmptyString Hsep) as [H1 H2]. now rewrite H1, H2.
Qed.

Lemma ingest_group_venue_witness :
  venues (db (snd (ingest_group example_clock prefix_ratio feed_empty default_settings
                     [summary_f1] "A.cc/2024/Conference" (Some "Another name")
                     (Some 1999%Z) true world_a)))
  = venues (db world_a).
Proof.
  apply (proj1 (ingest_group_venue example_clock prefix_ratio feed_empty default_settings
                  [summary_f1] "A.cc/2024/Conference" (Some "Another name")
                  (Some 1999%Z) true world_a)).
  vm_compute. lia.
Defined.

(* ------------------------------------------------------------------ *)
(** ** [ingest_group]: the cache across calls *)

Lemma stale_most_recent (deadline : datetime) (stored : list ArxivMatch.t) (p : Paper.t)
    (m : ArxivMatch.t) :
  most_recent (Paper.id p) stored m ->
  stale deadline stored p = negb (Z.ltb deadline (ArxivMatch.matched_at m)).
Proof.
  intro Hm. destruct (latest_match_most_recent _ _ _ Hm) as (r & Hr & Hat).
  unfold stale. rewrite Hr. simpl. now rewrite Hat.
Qed.

Lemma stale_same_id (deadline : datetime) (stored : list ArxivMatch.t) (p q : Paper.t) :
  Paper.id p = Paper.id q -> stale deadline stored p = stale deadline stored q.
Proof. unfold stale. now intros ->. Qed.

Lemma ensure_venue_clock (utcnow : nat -> datetime) (group_id : string)
    (name : option string) (year : option Z) (rows : list Venue.t) (clock : nat)
    (venue : Venue.t) (vs : list Venue.t) (c1 : nat) :
  ensure_venue utcnow group_id name year rows clock = (venue, vs, c1) ->
  c1 = clock + (if Nat.eqb (count_venues group_id rows) 0 then 1 else 0).
Proof.
  unfold ensure_venue. pose proof (count_venues_find group_id rows) as Hfind.
  destruct (find _ rows) as [v|].
  - intros [= _ _ <-]. destruct Hfind as (_ & _ & Hc).
    destruct (count_venues group_id rows); simpl; lia.
  - intros [= _ _ <-]. rewrite Hfind. simpl. lia.
Qed.

Section CacheIngestFacts.

Variable utcnow : nat -> datetime.
Variable ratio : string -> string -> PyFloat.float.
Variable query_arxiv_by_title : nat -> string -> option (list (string * string)).

(** Whether the loop ends or raises, the titles sent are the first titles
    of the stale papers. *)
Lemma match_papers_sent_prefix (deadline : datetime) (stored : list ArxivMatch.t)
    (ps : list Paper.t) :
  forall st : matching,
    exists n,
      sent_of (match_papers utcnow ratio query_arxiv_by_title deadline stored ps st)
      = snd st ++ firstn n (map Paper.title (filter (stale deadline stored) ps)).
Proof.
  induction ps as [|p ps IH]; intros [[new clock] sent].
  - exists 0. simpl. now rewrite app_nil_r.
  - cbn [match_papers filter].
    destruct (stale deadline stored p) eqn:Hstale.
    + pose proof (match_paper_stale_sent utcnow ratio query_arxiv_by_title deadline stored
                    p new clock sent Hstale) as Hsent.
      destruct (match_paper _ _ _ _ _ _ _) as [[[new1 clock1] sent1]|[clock1 sent1]];
        simpl in Hsent; subst sent1.
      * destruct (IH (new1, clock1, sent ++ [Paper.title p])) as (n & Hn).
        exists (S n). rewrite Hn. simpl. now rewrite <- app_assoc.
      * exists 1. reflexivity.
    + rewrite (match_paper_fresh _ _ _ _ _ _ _ Hstale). apply IH.
Qed.

(** The rows the loop adds are rows of stale papers. *)
Lemma match_papers_added_stale (deadline : datetime) (stored : list ArxivMatch.t)
    (ps : list Paper.t) :
  forall st new' clock' sent',
    match_papers utcnow ratio query_arxiv_by_title deadline stored ps st
    = inl (new', clock', sent') ->
    exists added,
      new' = fst (fst st) ++ added
      /\ Forall (fun m => exists p, In p ps
                                    /\ stale deadline stored p = true
                                    /\ ArxivMatch.paper_id m = Paper.id p) added.
Proof.
  induction ps as [|p ps IH]; intros [[new clock] sent] new' clock' sent' Hrun.
  - injection Hrun as <- <- <-. exists []. simpl. now rewrite app_nil_r.
  - cbn [match_papers] in Hrun.
    assert (Hweak : forall added : list ArxivMatch.t,
               Forall (fun m => exists q, In q ps
                                         /\ stale deadline stored q = true
                                         /\ ArxivMatch.paper_id m = Paper.id q) added ->
               Forall (fun m => exists q, In q (p :: ps)
                                         /\ stale deadline stored q = true
                                         /\ ArxivMatch.paper_id m = Paper.id q) added).
    { intros added H. eapply Forall_impl; [|exact H].
      intros m (q & Hq & Hs & Hid). exists q. split; [now right | auto]. }
    destruct (stale deadline stored p) eqn:Hstale.
    + rewrite (match_paper_stale _ _ _ _ _ _ _ _ _ Hstale) in Hrun.
      destruct (find_arxiv_match _ _ _ _) as [[[[aid atitle] exact] score]|];
        [|discriminate].
      destruct (nonempty aid) as [a|].
      * apply IH in Hrun. destruct Hrun as (added & -> & Hall). simpl.
        eexists. rewrite <- app_assoc. split; [reflexivity|].
        constructor; [|now apply Hweak].
        exists p. split; [now left | split; [exact Hstale | reflexivity]].
      * apply IH in Hrun. destruct Hrun as (added & -> & Hall).
        exists added. split; [reflexivity | now apply Hweak].
    + rewrite (match_paper_fresh _ _ _ _ _ _ _ Hstale) in Hrun.
      apply IH in Hrun. destruct Hrun as (added & -> & Hall).
      exists added. split; [reflexivity | now apply Hweak].
Qed.

End CacheIngestFacts.

(** C3.  In an ingestion with matching on, let [now] be the clock reading
    of line 60 and the deadline [now] minus the TTL of the settings.  A
    paper of the venue of the group is passed over exactly when its most
    recent stored match has [matched_at] later than the deadline: the
    titles sent to arXiv are those of the other papers of the venue, in
    their order (the first of them when a query raises), and every match
    row added is a row of such a paper, so that none is added for a paper
    passed over.  A paper without a stored match is not passed over.
    With the default TTL of 14 days, a most recent match made 13 days
    before [now] has the paper passed over and one made 15 days before
    [now] has not. *)
Theorem cache_hit_skips_matcher :
  forall (utcnow : nat -> datetime) (ratio : string -> string -> PyFloat.float)
         (query_arxiv_by_title : nat -> string -> option (list (string * string)))
         (settings : Settings) (submissions : list Summary.t) (group_id : string)
         (name : option string) (year : option Z) (w : World),
    let r := ingest_group utcnow ratio query_arxiv_by_title settings submissions
               group_id name year true w in
    let w' := snd r in
    let now := utcnow (matching_reading group_id submissions w) in
    let deadline := (now - seconds (arxiv_ttl settings))%Z in
    let stored := arxiv_matches (db w) in
    exists venue,
      In venue (venues (db w'))
      /\ Venue.group_id venue = group_id
      /\ (exists n,
             queries w'
             = queries w
               ++ firstn n (map Paper.title
                              (filter (stale deadline stored)
                                 (papers_of (Venue.id venue) (papers (db w'))))))
      /\ (fst r <> None ->
          queries w'
          = queries w
            ++ map Paper.title
                 (filter (stale deadline stored)
                    (papers_of (Venue.id venue) (papers (db w')))))
      /\ (exists more,
             arxiv_matches (db w') = stored ++ more
             /\ Forall (fun m => forall p, ArxivMatch.paper_id m = Paper.id p ->
                                           stale deadline stored p = true) more)
      /\ (forall p m,
             most_recent (Paper.id p) stored m ->
             (stale deadline stored p = false
              <-> (deadline < ArxivMatch.matched_at m)%Z))
      /\ (forall p,
             (forall m, In m stored -> ArxivMatch.paper_id m <> Paper.id p) ->
             stale deadline stored p = true)
      /\ (settings = default_settings ->
          forall p m,
            most_recent (Paper.id p) stored m ->
            (ArxivMatch.matched_at m = (now - days 13)%Z ->
             stale deadline stored p = false)
            /\ (ArxivMatch.matched_at m = (now - days 15)%Z ->
                stale deadline stored p = true)).
Proof.
  intros utcnow ratio query settings submissions group_id name year w r w' now deadline
    stored.
  destruct (ingest_group_steps utcnow ratio query settings submissions group_id name year
              true w)
    as (venue & vs & c1 & rows & new & c2 & count & Hv & Hu & Hrun).
  assert (Hc2 : c2 = matching_reading group_id submissions w).
  { apply ensure_venue_clock in Hv.
    apply upsert_loop_counts in Hu. destruct Hu as (-> & _ & _).
    unfold matching_reading. now rewrite Hv. }
  cbv iota in Hrun. rewrite Hc2 in Hrun. fold now in Hrun. fold deadline in Hrun.
  fold stored in Hrun.
  apply ensure_venue_spec in Hv. destruct Hv as (Hin & Hg & _).
  exists venue.
  set (mine := papers_of (Venue.id venue) (insert_papers rows new)) in *.
  pose proof (match_papers_sent_prefix utcnow ratio query deadline stored mine
                ([], S (matching_reading group_id submissions w), queries w)) as Hprefix.
  pose proof (match_papers_sent utcnow ratio query deadline stored mine
                ([], S (matching_reading group_id submissions w), queries w)) as Hsent.
  pose proof (match_papers_added_stale utcnow ratio query deadline stored mine
                ([], S (matching_reading group_id submissions w), queries w)) as Hadded.
  assert (Hpapers : papers (db w') = insert_papers rows new /\ venues (db w') = vs).
  { unfold w', r. rewrite Hrun.
    now destruct (match_papers _ _ _ _ _ _ _) as [[[added c3] sent]|[c3 sent]]. }
  destruct Hpapers as [Hps Hvs]. rewrite Hps, Hvs. fold mine.
  split; [exact Hin|]. split; [exact Hg|].
  split; [|split; [|split; [|split; [|split]]]].
  - destruct Hprefix as (n & Hn). exists n. cbn [snd] in Hn. rewrite <- Hn.
    unfold w', r. rewrite Hrun.
    now destruct (match_papers _ _ _ _ _ _ _) as [[[added c3] sent]|[c3 sent]].
  - unfold w', r. rewrite Hrun.
    destruct (match_papers _ _ _ _ _ _ _) as [[[added c3] sent]|[c3 sent]].
    + intros _. simpl. now apply (Hsent added c3 sent).
    + intro H. now destruct H.
  - unfold w', r. rewrite Hrun.
    destruct (match_papers _ _ _ _ _ _ _) as [[[added c3] sent]|[c3 sent]].
    + destruct (Hadded added c3 sent eq_refl) as (added' & Heq & Hall).
      simpl in Heq. subst added'.
      destruct (insert_matches_spec added stored) as (more & Hmore & Hids).
      exists more. simpl. split; [exact Hmore|].
      clear - Hall Hids.
      induction Hids as [|m m' l l' [i ->] _ IH]; constructor.
      * inversion Hall as [|? ? (q & _ & Hs & Hid) _]; subst.
        intros p Hp. simpl in Hp.
        rewrite (stale_same_id deadline stored p q) by congruence. exact Hs.
      * apply IH. now inversion Hall.
    + exists []. simpl. split; [now rewrite app_nil_r | constructor].
  - intros p m Hm. rewrite (stale_most_recent deadline stored p m Hm).
    rewrite negb_false_iff. apply Z.ltb_lt.
  - intros p Hnone. unfold stale. now rewrite (latest_match_none _ _ Hnone).
  - intros -> p m Hm. rewrite (stale_most_recent _ stored p m Hm). split; intros ->.
    + apply negb_false_iff, Z.ltb_lt. unfold deadline. rewrite default_ttl.
      unfold days, seconds. lia.
    + apply negb_true_iff, Z.ltb_ge. unfold deadline. rewrite default_ttl.
      unfold days, seconds. lia.
Qed.

Lemma cache_hit_skips_matcher_witness :
  stale (example_clock 2 - seconds (arxiv_ttl default_settings))%Z
    [match_aged (days 13)] paper_a = false
  /\ stale (example_clock 2 - seconds (arxiv_ttl default_settings))%Z
       [match_aged (days 15)] paper_a = true.
Proof.
  assert (Hrecent : forall age, most_recent (Paper.id paper_a) [match_aged age]
                                  (match_aged age)).
  { intro age. split; [now left|]. split; [reflexivity|].
    intros m' [<-|[]] _. apply Z.le_refl. }
  split.
  - destruct (cache_hit_skips_matcher example_clock prefix_ratio feed_exact
                default_settings [] "A.cc/2024/Conference" None None
                (world_aged (days 13)))
      as (venue & _ & _ & _ & _ & _ & _ & _ & Hdays).
    apply (proj1 (Hdays eq_refl paper_a (match_aged (days 13)) (Hrecent (days 13)))).
    reflexivity.
  - destruct (cache_hit_skips_matcher example_clock prefix_ratio feed_exact
                default_settings [] "A.cc/2024/Conference" None None
                (world_aged (days 15)))
      as (venue & _ & _ & _ & _ & _ & _ & _ & Hdays).
    apply (proj2 (Hdays eq_refl paper_a (match_aged (days 15)) (Hrecent (days 15)))).
    reflexivity.
Defined.

(** The same two worlds, run: nothing is sent for the match of 13 days,
    the title is sent for the match of 15 days. *)
Example cache_within_ttl_example :
  queries (snd (ingest_group example_clock prefix_ratio feed_exact default_settings []
                  "A.cc/2024/Conference" None None true (world_aged (days 13)))) = []
  /\ queries (snd (ingest_group example_clock prefix_ratio feed_exact default_settings []
                     "A.cc/2024/Conference" None None true (world_aged (days 15))))
     = ["Old title"].
Proof. split; vm_compute; reflexivity. Qed.

Lemma fresh_row_is_fresh (deadline : datetime) (stored : list ArxivMatch.t)
    (pid : nat) (m : ArxivMatch.t) :
  In m stored ->
  ArxivMatch.paper_id m = pid ->
  (deadline < ArxivMatch.matched_at m)%Z ->
  is_fresh deadline (latest_match pid stored) = true.
Proof.
  intros Hin Hpid Hlt.
  pose proof (latest_from_spec pid stored None) as H. unfold latest_match.
  destruct (latest_from pid stored None) as [r|].
  - destruct H as (_ & _ & Hmax & _); [discriminate|].
    specialize (Hmax m Hin Hpid). simpl. apply Z.ltb_lt. lia.
  - destruct H as [_ H]; [discriminate|]. now destruct (H m Hin).
Qed.

Lemma match_papers_all_fresh (utcnow : nat -> datetime)
    (ratio : string -> string -> PyFloat.float)
    (query_arxiv_by_title : nat -> string -> option (list (string * string)))
    (deadline : datetime) (stored : list ArxivMatch.t) (ps : list Paper.t) :
  (forall p, In p ps -> stale deadline stored p = false) ->
  forall st,
    match_papers utcnow ratio query_arxiv_by_title deadline stored ps st = inl st.
Proof.
  induction ps as [|p ps IH]; intros Hall st; simpl; auto.
  rewrite match_paper_fresh by (apply Hall; now left).
  apply IH. intros q Hq. apply Hall. now right.
Qed.

(** X22.  When every paper of the venue of the group has a stored match
    later than the deadline of the call, an ingestion with matching on sends
    no query to arXiv, adds no match and returns the count. *)
Theorem ingest_group_all_cached :
  forall (utcnow : nat -> datetime) (ratio : string -> string -> PyFloat.float)
         (query_arxiv_by_title : nat -> string -> option (list (string * string)))
         (settings : Settings) (submissions : list Summary.t) (group_id : string)
         (name : option string) (year : option Z) (w : World),
    let run := ingest_group utcnow ratio query_arxiv_by_title settings submissions
                 group_id name year true w in
    (forall p v,
        In p (papers (db (snd run))) ->
        In v (venues (db (snd run))) ->
        Venue.group_id v = group_id ->
        Paper.venue_id p = Venue.id v ->
        exists m,
          In m (arxiv_matches (db w))
          /\ ArxivMatch.paper_id m = Paper.id p
          /\ forall k, k <= clock w + 1 + List.length submissions ->
                       (utcnow k - seconds (arxiv_ttl settings)
                        < ArxivMatch.matched_at m)%Z) ->
    fst run = Some (List.length submissions)
    /\ queries (snd run) = queries w
    /\ arxiv_matches (db (snd run)) = arxiv_matches (db w).
Proof.
  intros utcnow ratio query settings submissions group_id name year w run Hcached.
  subst run.
  destruct (ingest_group_store utcnow ratio query settings submissions group_id name year
              true w)
    as (venue & vs & c1 & rows & new & c2 & count & Hv & Hu & Hvs & Hps & _).
  rewrite Hvs, Hps in Hcached.
  destruct (ingest_group_steps utcnow ratio query settings submissions group_id name year
              true w)
    as (venue' & vs' & c1' & rows' & new' & c2' & count' & Hv' & Hu' & ->).
  rewrite Hv in Hv'. injection Hv' as <- <- <-.
  rewrite Hu in Hu'. injection Hu' as <- <- <- <-.
  pose proof (upsert_loop_counts _ _ _ _ _ _ _ _ _ _ _ Hu) as (Hc2 & Hcount & _).
  simpl in Hcount. subst count.
  assert (Hc1 : c1 <= clock w + 1).
  { unfold ensure_venue in Hv. destruct (find _ _); injection Hv as _ _ <-; lia. }
  apply ensure_venue_spec in Hv. destruct Hv as (Hin & Hg & _).
  rewrite match_papers_all_fresh; [simpl; auto|].
  intros p Hp. unfold papers_of in Hp. apply filter_In in Hp.
  destruct Hp as [Hp Hvid]. apply Nat.eqb_eq in Hvid.
  destruct (Hcached p venue Hp Hin Hg Hvid) as (m & Hmin & Hpid & Hlt).
  unfold stale. rewrite (fresh_row_is_fresh _ _ _ m); auto.
  apply Hlt. lia.
Qed.

Lemma ingest_group_all_cached_witness :
  queries (snd (ingest_group example_clock prefix_ratio feed_down default_settings
                  [summary_f1] "A.cc/2024/Conference" None None true world_matched))
  = queries world_matched.
Proof.
  apply (ingest_group_all_cached example_clock prefix_ratio feed_down default_settings
           [summary_f1] "A.cc/2024/Conference" None None world_matched).
  intros p v Hp Hv Hg Hvid. exists match_a.
  destruct Hp as [<- | []].
  split; [now left|]. split; [reflexivity|].
  intros k Hk. simpl in Hk.
  change (ArxivMatch.matched_at match_a) with (example_clock 1).
  change (arxiv_ttl default_settings) with (14 * 24 * 3600)%Z.
  unfold example_clock, seconds. lia.
Defined.

(* ------------------------------------------------------------------ *)
(** ** [arxiv_status] and the arXiv filter of [filter_papers] *)

Lemma rank_lt_true (a b : ArxivMatch.t) :
  rank_lt a b = true
  <-> (ArxivMatch.exact a = false /\ ArxivMatch.exact b = true)
      \/ (ArxivMatch.exact a = ArxivMatch.exact b
          /\ (ArxivMatch.score a < ArxivMatch.score b)%Q).
Proof.
  unfold rank_lt.
  destruct (ArxivMatch.exact a), (ArxivMatch.exact b); simpl; rewrite ?gt_true;
    intuition congruence.
Qed.

(** A row not below a row that is not below a third is not below the
    third. *)
Lemma rank_lt_chain (a x m : ArxivMatch.t) :
  rank_lt a x = false -> rank_lt x m = false -> rank_lt a m = false.
Proof.
  unfold rank_lt.
  destruct (ArxivMatch.exact a), (ArxivMatch.exact x), (ArxivMatch.exact m); simpl;
    auto; try discriminate.
  - rewrite !gt_false. intros H1 H2. now apply Qle_trans with (ArxivMatch.score x).
  - rewrite !gt_false. intros H1 H2. now apply Qle_trans with (ArxivMatch.score x).
Qed.

Lemma rank_lt_below (m x a : ArxivMatch.t) :
  rank_lt m x = true -> rank_lt a x = false -> rank_lt m a = true.
Proof.
  rewrite !rank_lt_true. unfold rank_lt.
  destruct (ArxivMatch.exact a), (ArxivMatch.exact x), (ArxivMatch.exact m); simpl;
    rewrite ?gt_false; intros [[H1 H2] | [H1 H2]] H3; try discriminate; auto.
  - right. split; auto. now apply Qlt_le_trans with (ArxivMatch.score x).
  - right. split; auto. now apply Qlt_le_trans with (ArxivMatch.score x).
Qed.

Lemma insert_desc_in (m x : ArxivMatch.t) (l : list ArxivMatch.t) :
  In x (insert_desc m l) <-> x = m \/ In x l.
Proof.
  induction l as [|y l IH]; simpl; [intuition|].
  destruct (rank_lt m y); simpl; rewrite ?IH; intuition.
Qed.

Lemma sorted_desc_in (x : ArxivMatch.t) (l : list ArxivMatch.t) :
  In x (sorted_desc l) <-> In x l.
Proof.
  induction l as [|y l IH]; simpl; [tauto|].
  rewrite insert_desc_in, IH. intuition.
Qed.

(** The first row of the sorted list is the first row of greatest rank. *)
Lemma sorted_desc_head (matches : list ArxivMatch.t) :
  match sorted_desc matches with
  | [] => matches = []
  | best :: _ =>
      exists pre post,
        matches = pre ++ best :: post
        /\ (forall m, In m pre -> rank_lt m best = true)
        /\ (forall m, In m post -> rank_lt best m = false)
  end.
Proof.
  induction matches as [|a l IH]; simpl; auto.
  destruct (sorted_desc l) as [|x rest] eqn:E; simpl.
  - subst l. exists [], [].
    split; [reflexivity|]. split; intros m [].
  - destruct IH as (pre & post & -> & Hpre & Hpost).
    destruct (rank_lt a x) eqn:Hax.
    + exists (a :: pre), post.
      split; [reflexivity|]. split; [|exact Hpost].
      intros m [<- | Hm]; auto.
    + exists [], (pre ++ x :: post).
      split; [reflexivity|]. split; [intros m []|].
      intros m Hm. apply in_app_or in Hm. destruct Hm as [Hm | [<- | Hm]]; auto.
      * destruct (rank_lt a m) eqn:Ham; auto.
        pose proof (rank_lt_below m x a (Hpre m Hm) Hax) as Hma.
        apply rank_lt_true in Ham, Hma.
        destruct Ham as [[H1 H2] | [H1 H2]], Hma as [[H3 H4] | [H3 H4]];
          try congruence.
        exfalso. apply (Qlt_irrefl (ArxivMatch.score a)).
        now apply Qlt_trans with (ArxivMatch.score m).
      * apply (rank_lt_chain a x m); auto.
Qed.

(** X23.  [arxiv_status] of no match is three empty strings; otherwise it
    reports the first stored match of greatest rank, exact matches ranking
    above fuzzy ones and higher scores above lower: so it says ["exact"]
    exactly when some stored match is exact. *)
Theorem arxiv_status_best :
  forall (format3 : PyFloat.float -> string) (matches : list ArxivMatch.t),
    (matches = [] ->
     arxiv_status format3 matches = (EmptyString, EmptyString, EmptyString))
    /\ (matches <> [] ->
        exists pre best post,
          matches = pre ++ best :: post
          /\ (forall m, In m pre -> rank_lt m best = true)
          /\ (forall m, In m post -> rank_lt best m = false)
          /\ arxiv_status format3 matches
             = (ArxivMatch.arxiv_id best,
                if ArxivMatch.exact best then "exact" else "fuzzy",
                format3 (ArxivMatch.score best))
          /\ (ArxivMatch.exact best = true
              <-> exists m, In m matches /\ ArxivMatch.exact m = true)).
Proof.
  intros format3 matches. split; [now intros ->|].
  intro Hne. pose proof (sorted_desc_head matches) as H. unfold arxiv_status.
  destruct (sorted_desc matches) as [|best rest]; [contradiction|].
  destruct H as (pre & post & -> & Hpre & Hpost).
  exists pre, best, post.
  split; [reflexivity|]. split; [exact Hpre|]. split; [exact Hpost|].
  split; [reflexivity|]. split.
  - intro Hb. exists best. split; auto. apply in_or_app. right. now left.
  - intros (m & Hm & He). apply in_app_or in Hm.
    destruct Hm as [Hm | [<- | Hm]]; auto.
    + specialize (Hpre m Hm). apply rank_lt_true in Hpre.
      destruct Hpre as [[H1 H2] | [H1 H2]]; congruence.
    + specialize (Hpost m Hm). unfold rank_lt in Hpost. rewrite He in Hpost.
      destruct (ArxivMatch.exact best); [reflexivity | discriminate].
Qed.

Lemma arxiv_status_best_witness :
  [match_fuzzy; match_a] <> []
  /\ exists best,
       In best [match_fuzzy; match_a]
       /\ arxiv_status example_format [match_fuzzy; match_a]
          = (ArxivMatch.arxiv_id best,
             if ArxivMatch.exact best then "exact" else "fuzzy",
             example_format (ArxivMatch.score best))
       /\ ArxivMatch.exact best = true.
Proof.
  split; [discriminate|].
  destruct (proj2 (arxiv_status_best example_format [match_fuzzy; match_a]))
    as (pre & best & post & Hsplit & _ & _ & Hstatus & Hexact).
  - discriminate.
  - exists best. split; [|split; [exact Hstatus|]].
    + rewrite Hsplit. apply in_or_app. right. now left.
    + apply Hexact. exists match_a. split; [right; now left | reflexivity].
Defined.

Lemma rank_lt_asym (a b : ArxivMatch.t) : rank_lt a b = true -> rank_lt b a = false.
Proof.
  intro H. destruct (rank_lt b a) eqn:E; auto.
  apply rank_lt_true in H, E.
  destruct H as [[H1 H2] | [H1 H2]], E as [[H3 H4] | [H3 H4]]; try congruence.
  exfalso. apply (Qlt_irrefl (ArxivMatch.score a)).
  now apply Qlt_trans with (ArxivMatch.score b).
Qed.

Lemma insert_desc_descending (m : ArxivMatch.t) (l : list ArxivMatch.t) :
  descending l -> descending (insert_desc m l).
Proof.
  induction l as [|x rest IH]; intro H; [exact I|].
  cbn [insert_desc]. destruct (rank_lt m x) eqn:Hmx.
  - assert (Hrest : descending rest) by (destruct rest; [exact I | apply H]).
    specialize (IH Hrest).
    destruct rest as [|y rest']; cbn [insert_desc] in *.
    + split; [now apply rank_lt_asym | exact I].
    + destruct (rank_lt m y); split; auto.
      * apply H.
      * now apply rank_lt_asym.
  - split; auto.
Qed.

Lemma sorted_desc_descending (l : list ArxivMatch.t) : descending (sorted_desc l).
Proof.
  induction l as [|x l IH]; [exact I|].
  now apply insert_desc_descending.
Qed.

(** Sorting a sorted list changes nothing: the sort is stable. *)
Lemma descending_sorted (l : list ArxivMatch.t) : descending l -> sorted_desc l = l.
Proof.
  induction l as [|x rest IH]; intro H; [reflexivity|].
  change (sorted_desc (x :: rest)) with (insert_desc x (sorted_desc rest)).
  destruct rest as [|y rest']; [reflexivity|].
  destruct H as [Hxy Hrest]. rewrite (IH Hrest). cbn [insert_desc]. now rewrite Hxy.
Qed.

Lemma sorted_desc_twice (l : list ArxivMatch.t) :
  sorted_desc (sorted_desc l) = sorted_desc l.
Proof. apply descending_sorted, sorted_desc_descending. Qed.

Section FilterFacts.

Variable format3 : PyFloat.float -> string.
Variable round2 : Binary64.float -> Binary64.float.

Lemma filter_rows_rows (d : store) (arxiv_filter : string) (papers : list Paper.t) :
  forall rows,
    filter_rows format3 round2 d arxiv_filter papers = Some rows ->
    Forall2 (fun paper row =>
               exists venue,
                 venue_of d paper = Some venue
                 /\ row = row_of format3 round2 d venue paper)
      (filter (kept d arxiv_filter) papers) rows.
Proof.
  induction papers as [|p rest IH]; intros rows H; simpl in H.
  - injection H as <-. constructor.
  - unfold kept at 1. cbn [filter].
    destruct (arxiv_filter_skips arxiv_filter (sorted_desc (matches_of d p)));
      cbn [negb].
    + now apply IH.
    + unfold arxiv_status in H. rewrite sorted_desc_twice in H.
      fold (arxiv_status format3 (matches_of d p)) in H.
      destruct (arxiv_status format3 (matches_of d p)) as [[aid mt] sc] eqn:Hst.
      destruct (venue_of d p) as [v|] eqn:Hv; [|discriminate].
      destruct (filter_rows format3 round2 d arxiv_filter rest) as [rows'|];
        [|discriminate].
      injection H as <-. constructor; [|now apply IH].
      exists v. split; [exact Hv|]. unfold row_of. now rewrite Hst.
Qed.

End FilterFacts.

Lemma existsb_sorted (f : ArxivMatch.t -> bool) (l : list ArxivMatch.t) :
  existsb f (sorted_desc l) = existsb f l.
Proof.
  destruct (existsb f l) eqn:E.
  - apply existsb_exists in E. destruct E as (x & Hx & Hf).
    apply existsb_exists. exists x. split; auto. now apply sorted_desc_in.
  - destruct (existsb f (sorted_desc l)) eqn:E'; auto.
    apply existsb_exists in E'. destruct E' as (x & Hx & Hf).
    apply (proj1 (sorted_desc_in x l)) in Hx.
    assert (existsb f l = true) as Ht.
    { apply existsb_exists. exists x. now split. }
    congruence.
Qed.

Lemma sorted_desc_nil (l : list ArxivMatch.t) :
  match sorted_desc l with [] => l = [] | _ => l <> [] end.
Proof.
  pose proof (sorted_desc_head l) as H.
  destruct (sorted_desc l); auto.
  destruct H as (pre & post & -> & _). now destruct pre.
Qed.

(** X24.  The rows [filter_papers] builds are those of the papers its
    arXiv filter keeps, in the order of the query, each made of the fields
    of the paper, the name and year of its venue and the best match
    [arxiv_status] finds among its stored matches.  The filter ["exists"]
    keeps the papers ["none"] passes over; ["exact"] keeps those with an
    exact match and ["fuzzy"] those with a match that is not exact and
    scores the float [0.85] or more, that float being 7656119366529843 /
    2^53 and not 85/100; any other filter keeps every paper. *)
Theorem filter_papers_arxiv_filter :
  forall (format3 : PyFloat.float -> string) (round2 : Binary64.float -> Binary64.float)
         (d : store) (arxiv_filter : string) (papers : list Paper.t),
    (forall rows,
        filter_rows format3 round2 d arxiv_filter papers = Some rows ->
        Forall2 (fun paper row =>
                   exists venue,
                     In venue (venues d)
                     /\ Venue.id venue = Paper.venue_id paper
                     /\ row = row_of format3 round2 d venue paper)
          (filter (kept d arxiv_filter) papers) rows)
    /\ (forall p, kept d "exists" p = negb (kept d "none" p))
    /\ (forall p, kept d "exists" p = true <-> matches_of d p <> [])
    /\ (forall p, kept d "exact" p = true
                  <-> exists m, In m (matches_of d p) /\ ArxivMatch.exact m = true)
    /\ (forall p, kept d "fuzzy" p = true
                  <-> exists m, In m (matches_of d p)
                                /\ ArxivMatch.exact m = false
                                /\ (7656119366529843 # 9007199254740992
                                    <= ArxivMatch.score m)%Q)
    /\ Binary64.of_ratio 85 100 = S754_finite false 7656119366529843 (-53)
    /\ (forall p,
           arxiv_filter <> "exists" -> arxiv_filter <> "none" ->
           arxiv_filter <> "exact" -> arxiv_filter <> "fuzzy" ->
           kept d arxiv_filter p = true).
Proof.
  intros format3 round2 d arxiv_filter papers.
  split; [|split; [|split; [|split; [|split; [|split]]]]].
  - intros rows H. apply filter_rows_rows in H.
    eapply Forall2_impl_in; [exact H|].
    intros p row _ (v & Hv & ->). exists v. unfold venue_of in Hv.
    pose proof (find_some _ _ Hv) as [Hin Hid]. apply Nat.eqb_eq in Hid.
    repeat split; auto.
  - intro p. unfold kept, arxiv_filter_skips. simpl.
    now destruct (sorted_desc (matches_of d p)).
  - intro p. unfold kept, arxiv_filter_skips. simpl.
    pose proof (sorted_desc_nil (matches_of d p)) as H.
    destruct (sorted_desc (matches_of d p)); simpl; split; auto; try discriminate;
      try (intro Hne; now rewrite H in Hne).
  - intro p. unfold kept, arxiv_filter_skips. simpl.
    rewrite orb_false_r, negb_involutive, existsb_sorted, existsb_exists. tauto.
  - intro p. unfold kept, arxiv_filter_skips. simpl.
    rewrite negb_involutive, existsb_sorted, existsb_exists.
    split.
    + intros (m & Hm & H). apply andb_true_iff in H. destruct H as [He Hs].
      apply negb_true_iff in He. apply Qle_bool_iff in Hs. eauto.
    + intros (m & Hm & He & Hs). exists m. split; auto.
      apply andb_true_iff. split; [now apply negb_true_iff | now apply Qle_bool_iff].
  - vm_compute. reflexivity.
  - intros p H1 H2 H3 H4. unfold kept, arxiv_filter_skips.
    apply String.eqb_neq in H1, H2, H3, H4. now rewrite H1, H2, H3, H4.
Qed.

Lemma filter_papers_arxiv_filter_witness :
  kept (mk_store [venue_a] [paper_a] [match_at_threshold]) "fuzzy" paper_a = true.
Proof.
  apply (proj1 (proj2 (proj2 (proj2 (proj2
           (filter_papers_arxiv_filter example_format (fun x => x)
              (mk_store [venue_a] [paper_a] [match_at_threshold]) "fuzzy" [paper_a])))))
           paper_a).
  exists match_at_threshold. split; [now left|]. split; [reflexivity|].
  apply Qle_refl.
Defined.
